(** * FlowState: the effect units, the realtime output callback and the
      host facade

    A shallow embedding of
    - [src/flow_state_audio_effects.py]: [AudioEffect], [GainEffect], [Chorus];
    - [src/flow_state_main.py]: [AudioEngine] (volume, mute, the sounddevice
      callback);
    - [src/flow_state_launcher.py]: [HostAppInterface.get_audio_properties]
      and [HostAppInterface.request_playback_action].

    Python objects are records, mutation is state passing, exceptions are a
    result type, and dynamic dispatch over the effect subclasses is a match on
    the subclass part of the record.  The methods are modelled by their
    bodies, as they run on an instance: a method whose body is [pass] does
    nothing.  [get_parameters] is abstract in [AudioEffect] and overridden by
    no class of the module; that bears on instantiation only, which
    [construct] models. *)

From Stdlib Require Import ZArith QArith Qround List String Bool Lia.
From stdpp Require Import base option list gmap strings.

Local Open Scope Z_scope.

(** ** Python runtime notions *)

(** The exceptions the modelled code can meet.  All of them derive from
    [Exception], so a clause [except Exception] catches each of them. *)
Inductive exn : Type :=
| ZeroDivisionError
| IndexError
| TypeError
| ValueError
| OverflowError
| AttributeError (what : string)
| KeyError (key : string)
| QueueEmpty                       (* queue.Empty *)
| OtherException (what : string).  (* raised by a collaborator *)

Inductive res (A : Type) : Type :=
| Ret (a : A)
| Raise (e : exn).
Arguments Ret {A} a.
Arguments Raise {A} e.

(** A computation over a mutable world [W]: the world after the call is
    returned in both cases, because what a method wrote before it raised
    stays written. *)
Definition M (W A : Type) : Type := W -> res A * W.

Definition ret {W A} (a : A) : M W A := fun w => (Ret a, w).

Definition throw {W A} (e : exn) : M W A := fun w => (Raise e, w).

Definition bind {W A B} (c : M W A) (k : A -> M W B) : M W B :=
  fun w =>
    match c w with
    | (Ret a, w') => k a w'
    | (Raise e, w') => (Raise e, w')
    end.

Definition gets {W A} (f : W -> A) : M W A := fun w => (Ret (f w), w).

Definition modify {W} (f : W -> W) : M W unit := fun w => (Ret tt, f w).

(** [try: body except Exception: handler] *)
Definition try_except {W A} (body : M W A) (handler : exn -> M W A) : M W A :=
  fun w =>
    match body w with
    | (Ret a, w') => (Ret a, w')
    | (Raise e, w') => handler e w'
    end.

Definition lift_res {W A} (r : res A) : M W A := fun w => (r, w).

Declare Scope py_scope.
Delimit Scope py_scope with py.
Notation "'let*' x ':=' c 'in' k" := (bind c (fun x => k))
  (at level 10, x name, c at level 100, k at level 200) : py_scope.
Notation "c '>>' k" := (bind c (fun _ => k))
  (at level 62, right associativity) : py_scope.
Local Open Scope py_scope.

Inductive level := DEBUG | INFO | WARNING | ERROR.

(** ** The numeric runtime

    Python floats, NumPy samples and [np.random] are kept abstract: the
    development holds for every interpretation of the operations below,
    IEEE arithmetic included.  No law is assumed here; the one law a proof
    needs is stated where it is used.  The two operations of the modelled
    code that can leave the range of a float, [float(n)] of an int and
    [10 ** x], return or raise [OverflowError]. *)
Class NumPy (F : Type) : Type := {
  flit : Q -> F;             (* a decimal literal such as 0.7 *)
  fofZ : Z -> F;             (* an int within the range of a float, as a float *)
  float_of_int : Z -> res F; (* float(n): OverflowError when n is too large *)
  fadd : F -> F -> F;
  fsub : F -> F -> F;
  fmul : F -> F -> F;
  fdiv : F -> F -> F;        (* division by a non-zero constant *)
  fpow10 : F -> res F;       (* 10 ** x: OverflowError when out of range *)
  feqb : F -> F -> bool;     (* x == y *)
  ftrunc : F -> Z;           (* int(x) *)
  fpi : F;                   (* np.pi *)
  np_random_rand : nat -> F  (* the successive outputs of np.random.rand() *)
}.

(** ** n-dimensional arrays *)

(** A NumPy array: its shape and its elements in row-major order. *)
Record ndarray (F : Type) : Type := NDArray { shape : list nat; data : list F }.
Arguments NDArray {F} shape data.
Arguments shape {F} n.
Arguments data {F} n.

Definition ndim {F} (a : ndarray F) : nat := length (shape a).

Definition size_of (sh : list nat) : nat := fold_right Nat.mul 1%nat sh.

(** The array holds as many elements as its shape says. *)
Definition well_shaped {F} (a : ndarray F) : Prop :=
  length (data a) = size_of (shape a).

Fixpoint chunks_fuel {A} (fuel m : nat) (l : list A) : list (list A) :=
  match fuel with
  | O => []
  | S fuel' =>
      match l with
      | [] => []
      | _ => take m l :: chunks_fuel fuel' m (drop m l)
      end
  end.

(** The rows of length [m] of a row-major list. *)
Definition chunks {A} (m : nat) (l : list A) : list (list A) :=
  match m with
  | O => []
  | _ => chunks_fuel (length l) m l
  end.
Arguments chunks : simpl never.

Section Arrays.
Context {F : Type} `{NP : NumPy F}.

(** [np.zeros(shape)] and [a.fill(0)] *)
Definition np_zeros (sh : list nat) : ndarray F :=
  NDArray sh (repeat (flit 0) (size_of sh)).

Definition fill0 (a : ndarray F) : ndarray F := np_zeros (shape a).

(** [a * x] for a scalar [x] *)
Definition scale (a : ndarray F) (x : F) : ndarray F :=
  NDArray (shape a) (map (fun s => fmul s x) (data a)).

(** [a[:, np.newaxis]]: needs one axis at least. *)
Definition newaxis1 (a : ndarray F) : res (ndarray F) :=
  match shape a with
  | [] => Raise IndexError
  | n :: rest => Ret (NDArray (n :: 1%nat :: rest) (data a))
  end.

(** [np.tile(a, (1, c))] for [a] of two axes or more: the repetitions are
    padded with ones on the left, so only the last axis is repeated. *)
Definition tile_last (c : nat) (a : ndarray F) : ndarray F :=
  match rev (shape a) with
  | [] => a
  | m :: front =>
      NDArray (rev front ++ [(m * c)%nat])
              (concat (map (fun row => concat (repeat row c)) (chunks m (data a))))
  end.

(** The sum NumPy takes along an axis, from its first element on. *)
Definition sum_row (row : list F) : F :=
  match row with
  | [] => flit 0
  | x :: xs => fold_left fadd xs x
  end.

Definition mean_row (row : list F) : F :=
  fdiv (sum_row row) (fofZ (Z.of_nat (length row))).

(** [np.mean(a, axis=1, keepdims=True)] of a two-axis array. *)
Definition mean_axis1 (n m : nat) (a : ndarray F) : ndarray F :=
  NDArray [n; 1%nat] (map mean_row (chunks m (data a))).

(** Channel [j] of a block of [c] channels: column [j] of its rows. *)
Definition channel (c j : nat) (a : ndarray F) : list F :=
  map (fun row => nth j row (flit 0)) (chunks c (data a)).

End Arrays.

(** ** [flow_state_audio_effects.py] *)
Module AudioEffects.
Section Effects.
Context {F : Type} `{NP : NumPy F}.

(** The values a parameter mapping holds in the modelled effects: the
    numbers of their defaults ([0.0], [0.2], [3], ...), and [None], which
    the stream-property notification passes as its value. *)
Inductive pyval : Type :=
| PyNone
| PyInt (z : Z)
| PyFloat (x : F).

(** [float(v)] *)
Definition py_float (v : pyval) : res F :=
  match v with
  | PyNone => Raise TypeError
  | PyInt z => float_of_int z
  | PyFloat x => Ret x
  end.

(** [a == b]; an int is compared with a float through its conversion. *)
Definition py_eqb (a b : pyval) : bool :=
  match a, b with
  | PyNone, PyNone => true
  | PyInt x, PyInt y => Z.eqb x y
  | PyFloat x, PyFloat y => feqb x y
  | PyInt x, PyFloat y => feqb (fofZ x) y
  | PyFloat x, PyInt y => feqb x (fofZ y)
  | _, _ => false
  end.

(** One voice of the chorus: an entry of [voices_data]. *)
Record voice : Type := Voice {
  buffer : ndarray F;
  lfo_phase : F;
  lfo_rate_hz : F;
  base_delay_s : F
}.

(** What a subclass adds to the attributes of [AudioEffect].  [Plain]
    stands for the subclasses that override nothing ([ParametricEQ],
    [Compressor], [Delay], [Reverb]). *)
Inductive subclass : Type :=
| Plain
| GainEffect (gain_linear : F)
| Chorus (voices_data : list voice) (max_voice_delay_s : F) (write_idx : Z).

Record effect : Type := Effect {
  name : string;
  enabled : bool;
  bypass : bool;
  parameters : gmap string pyval;
  sample_rate : Z;
  channels : Z;
  ext : subclass
}.

(** What a run leaves behind besides the object: the records handed to the
    module logger (the text of the message without its interpolated values)
    and the entries into the two overridable methods. *)
Inductive event : Type :=
| Logged (lv : level) (message : string)
| Call_on_parameter_change (name : string) (value : pyval)
| Call_reset.

(** The world of an effect method: the object itself, the number of draws
    taken from the global [np.random] generator, and the journal. *)
Record world : Type := World {
  self : effect;
  np_random_pos : nat;
  journal : list event
}.

Definition emit (ev : event) : M world unit :=
  modify (fun w => World (self w) (np_random_pos w) (journal w ++ [ev])).

Definition update (f : effect -> effect) : M world unit :=
  modify (fun w => World (f (self w)) (np_random_pos w) (journal w)).

(** [np.random.rand()] *)
Definition rand : M world F :=
  fun w => (Ret (np_random_rand (np_random_pos w)),
            World (self w) (S (np_random_pos w)) (journal w)).

(** [np.random.uniform(lo, hi)] is [lo + (hi - lo) * rand()]. *)
Definition uniform (lo hi : F) : M world F :=
  let* u := rand in ret (fadd lo (fmul (fsub hi lo) u)).

Definition set_sample_rate (sr : Z) (e : effect) : effect :=
  Effect (name e) (enabled e) (bypass e) (parameters e) sr (channels e) (ext e).

Definition set_channels (ch : Z) (e : effect) : effect :=
  Effect (name e) (enabled e) (bypass e) (parameters e) (sample_rate e) ch (ext e).

Definition set_parameters (p : gmap string pyval) (e : effect) : effect :=
  Effect (name e) (enabled e) (bypass e) p (sample_rate e) (channels e) (ext e).

Definition set_ext (x : subclass) (e : effect) : effect :=
  Effect (name e) (enabled e) (bypass e) (parameters e) (sample_rate e) (channels e) x.

(** *** [AudioEffect] *)

Definition AudioEffect_init (nm : string) : effect :=
  Effect nm true false ∅ 44100 2 Plain.

(** [AudioEffect.reset]: it only logs. *)
Definition AudioEffect_reset : M world unit :=
  emit (Logged DEBUG "Resetting effect").

(** [audio_block.shape[1] if audio_block.ndim == 2 else 1] *)
Definition input_block_channels (audio_block : ndarray F) : nat :=
  match shape audio_block with
  | [_; c] => c
  | _ => 1%nat
  end.

(** [AudioEffect.process_block].  Blocks are arrays of floats, so the
    [astype(audio_block.dtype)] that ends the two conversions changes
    nothing. *)
Definition AudioEffect_process_block (audio_block : ndarray F) : M world (ndarray F) :=
  let* e := gets self in
  if bypass e || negb (enabled e) then ret audio_block
  else
    let ic := input_block_channels audio_block in
    if Z.of_nat ic =? channels e then ret audio_block
    else if (ic =? 1)%nat && (channels e =? 2) then
      emit (Logged DEBUG "Duplicating mono input to stereo for effect processing.") >>
      let* col := lift_res (newaxis1 audio_block) in
      ret (tile_last (Z.to_nat (channels e)) col)
    else if (ic =? 2)%nat && (channels e =? 1) then
      emit (Logged DEBUG "Averaging stereo input to mono for effect processing.") >>
      ret (mean_axis1 (nth 0 (shape audio_block) 0%nat) ic audio_block)
    else
      emit (Logged WARNING "Channel mismatch. Passing through original block.") >>
      ret audio_block.

(** *** [Chorus] *)

Definition get_or (key : string) (default : pyval) (e : effect) : pyval :=
  match parameters e !! key with
  | Some v => v
  | None => default
  end.

Definition voices_of (e : effect) : list voice :=
  match ext e with
  | Chorus vs _ _ => vs
  | _ => []
  end.

Definition set_voices (vs : list voice) (e : effect) : effect :=
  match ext e with
  | Chorus _ d i => set_ext (Chorus vs d i) e
  | _ => e
  end.

Definition set_write_idx (i : Z) (e : effect) : effect :=
  match ext e with
  | Chorus vs d _ => set_ext (Chorus vs d i) e
  | _ => e
  end.

Definition max_delay_of (e : effect) : F :=
  match ext e with
  | Chorus _ d _ => d
  | _ => flit 0
  end.

(** One turn of the loop of [Chorus.reset], in the order the entries of the
    dictionary display are evaluated. *)
Definition Chorus_append_voice (buffer_len_samples : nat) (i : Z) : M world unit :=
  let* e := gets self in
  let buf := np_zeros [buffer_len_samples; Z.to_nat (channels e)] in
  let* u := rand in
  let phase := fmul (fmul u (fofZ 2)) fpi in
  let rate_hz := get_or "rate_hz" (PyFloat (flit 0.2)) e in
  let* jitter := uniform (flit (-0.1)) (flit 0.1) in
  let* rate := lift_res (py_float rate_hz) in
  let rate' := fmul rate (fadd (flit 1) jitter) in
  let* spread := uniform (flit 0) (flit 0.002) in
  let delay := fadd (flit 0.005) (fmul spread (fofZ i)) in
  update (fun e => set_voices (voices_of e ++ [Voice buf phase rate' delay]) e).

Fixpoint for_each {W A} (l : list A) (body : A -> M W unit) : M W unit :=
  match l with
  | [] => ret tt
  | x :: rest => body x >> for_each rest body
  end.

(** [range(n)]: an int is needed. *)
Definition py_range (v : pyval) : res (list Z) :=
  match v with
  | PyInt n => Ret (map Z.of_nat (seq 0 (Z.to_nat n)))
  | _ => Raise TypeError
  end.

(** [Chorus.reset] *)
Definition Chorus_reset : M world unit :=
  emit Call_reset >>
  AudioEffect_reset >>
  let* e := gets self in
  let num_v := get_or "num_voices" (PyInt 3) e in
  update (set_voices []) >>
  if (sample_rate e <=? 0) || (channels e <=? 0) then ret tt
  else
    let buffer_len_samples := ftrunc (fmul (max_delay_of e) (fofZ (sample_rate e))) in
    if buffer_len_samples <=? 0 then ret tt
    else
      let* indices := lift_res (py_range num_v) in
      for_each indices (Chorus_append_voice (Z.to_nat buffer_len_samples)) >>
      update (set_write_idx 0) >>
      emit (Logged INFO "Chorus reset").

(** *** Dispatch of the overridable methods *)

(** [self.reset()] *)
Definition reset : M world unit :=
  let* e := gets self in
  match ext e with
  | Chorus _ _ _ => Chorus_reset
  | _ => emit Call_reset >> AudioEffect_reset
  end.

(** [GainEffect._on_parameter_change] *)
Definition GainEffect_on_parameter_change (nm : string) (value : pyval) : M world unit :=
  if String.eqb nm "gain_db" then
    let* gain_val_db := lift_res (py_float value) in
    update (fun e => set_parameters (<["gain_db" := PyFloat gain_val_db]> (parameters e)) e) >>
    let* gain_linear := lift_res (fpow10 (fdiv gain_val_db (flit 20.0))) in
    update (set_ext (GainEffect gain_linear))
  else ret tt.

(** [Chorus._on_parameter_change] *)
Definition Chorus_on_parameter_change (nm : string) (value : pyval) : M world unit :=
  if String.eqb nm "num_voices" || String.eqb nm "_stream_props_changed"
  then reset else ret tt.

(** [self._on_parameter_change(name, value)] *)
Definition _on_parameter_change (nm : string) (value : pyval) : M world unit :=
  emit (Call_on_parameter_change nm value) >>
  let* e := gets self in
  match ext e with
  | Plain => ret tt
  | GainEffect _ => GainEffect_on_parameter_change nm value
  | Chorus _ _ _ => Chorus_on_parameter_change nm value
  end.

(** *** The methods every effect inherits *)

(** [AudioEffect.set_stream_properties] *)
Definition set_stream_properties (sr ch : Z) : M world unit :=
  let* e := gets self in
  let changed_sr := negb (sample_rate e =? sr) in
  let changed_ch := negb (channels e =? ch) in
  (if changed_sr then update (set_sample_rate sr) else ret tt) >>
  (if changed_ch then update (set_channels ch) else ret tt) >>
  if changed_sr || changed_ch then
    _on_parameter_change "_stream_props_changed" PyNone >> reset
  else ret tt.

(** [AudioEffect.set_parameter] *)
Definition set_parameter (nm : string) (value : pyval) : M world unit :=
  let* e := gets self in
  match parameters e !! nm with
  | Some old =>
      if negb (py_eqb old value) then
        update (fun e => set_parameters (<[nm := value]> (parameters e)) e) >>
        _on_parameter_change nm value
      else ret tt
  | None => emit (Logged WARNING "Parameter not found")
  end.

(** *** Constructors *)

(** [GainEffect.__init__] *)
Definition GainEffect_init : M world unit :=
  update (fun _ => AudioEffect_init "Gain") >>
  update (set_parameters {["gain_db" := PyFloat (flit 0)]}) >>
  update (set_ext (GainEffect (flit 1))) >>
  _on_parameter_change "gain_db" (PyFloat (flit 0)).

Definition Chorus_parameters : gmap string pyval :=
  <["rate_hz" := PyFloat (flit 0.2)]>
    (<["depth_s" := PyFloat (flit 0.003)]>
       (<["mix" := PyFloat (flit 0.5)]>
          (<["num_voices" := PyInt 3]>
             {["stereo_spread" := PyFloat (flit 0.7)]}))).

(** [Chorus.__init__] *)
Definition Chorus_init : M world unit :=
  update (fun _ => AudioEffect_init "Chorus") >>
  update (set_parameters Chorus_parameters) >>
  update (set_ext (Chorus [] (flit 0.025) 0)) >>
  reset.

(** *** [process_block] of the subclasses *)

Definition is_one (x : F) : bool := feqb x (flit 1).

(** [GainEffect.process_block].  The first test of the source also asks
    that [processed_block is audio_block]; with the bypass flag set or the
    enabled flag cleared the base method has returned [audio_block] itself,
    so that part of the test is then true. *)
Definition GainEffect_process_block (g : F) (audio_block : ndarray F) : M world (ndarray F) :=
  let* processed_block := AudioEffect_process_block audio_block in
  let* e := gets self in
  if bypass e || negb (enabled e) then ret audio_block
  else if is_one g then ret processed_block
  else ret (scale processed_block g).

(** [Chorus.process_block]: after the checks, the body in the source is the
    pass-through it is in the model.  The first test is the one of
    [GainEffect.process_block]. *)
Definition Chorus_process_block (audio_block : ndarray F) : M world (ndarray F) :=
  let* input_block := AudioEffect_process_block audio_block in
  let* e := gets self in
  if bypass e || negb (enabled e) then ret audio_block
  else
    match voices_of e with
    | [] => emit (Logged WARNING "Voices not initialized, passing through.") >>
            ret input_block
    | _ => emit (Logged DEBUG "Using conceptual iterative processing for chorus block.") >>
           ret input_block
    end.

(** [effect.process_block(audio_block)] *)
Definition process_block (audio_block : ndarray F) : M world (ndarray F) :=
  let* e := gets self in
  match ext e with
  | Plain => AudioEffect_process_block audio_block
  | GainEffect g => GainEffect_process_block g audio_block
  | Chorus _ _ _ => Chorus_process_block audio_block
  end.

(** *** Vocabulary of the statements *)

(** [out] is the block of [n] frames and two channels, each channel being
    the mono block. *)
Definition upmix_of (n : nat) (mono out : ndarray F) : Prop :=
  shape out = [n; 2%nat] /\
  channel 2 0 out = data mono /\ channel 2 1 out = data mono.

(** [out] is the block of [n] frames and one channel that holds, frame by
    frame, the mean of the two channels of the stereo block. *)
Definition downmix_of (n : nat) (stereo out : ndarray F) : Prop :=
  shape out = [n; 1%nat] /\
  data out = zip_with (fun l r => mean_row [l; r])
                      (channel 2 0 stereo) (channel 2 1 stereo).

(** The effect classes of the module.  [Base_class] stands for the
    subclasses that override nothing and are built by the constructor of
    [AudioEffect]. *)
Inductive effect_class : Type :=
| Base_class (nm : string)
| Gain_class
| Chorus_class.

(** The [__init__] of a class. *)
Definition init_of (c : effect_class) : M world unit :=
  match c with
  | Base_class nm => update (fun _ => AudioEffect_init nm)
  | Gain_class => GainEffect_init
  | Chorus_class => Chorus_init
  end.

(** [cls()], building a fresh effect.  [AudioEffect] declares
    [get_parameters] abstract and no class of the module overrides it, so
    Python refuses to instantiate a class of the module, with [TypeError]
    and before any [__init__] runs.  [completed] tells that the class
    instantiated is a subclass that adds a [get_parameters] and nothing
    else: the [__init__] of the class then runs on the new object. *)
Definition construct (completed : bool) (c : effect_class) : M world unit :=
  if completed then init_of c else throw TypeError.

(** The parameter mapping a fresh effect of a class holds. *)
Definition default_parameters (c : effect_class) : gmap string pyval :=
  match c with
  | Base_class _ => ∅
  | Gain_class => {["gain_db" := PyFloat (flit 0)]}
  | Chorus_class => Chorus_parameters
  end.

(** What an effect computes from its parameters and keeps: the linear
    gain of the gain; for the chorus the delay buffers of its voices, the
    maximal delay and the write index.  The phase, rate and delay of a voice
    are drawn from the random generator at every reset and are left out: two
    runs never share them. *)
Inductive coefficients : Type :=
| No_coefficients
| Gain_coefficients (gain_linear : F)
| Chorus_coefficients (buffers : list (ndarray F)) (max_voice_delay_s : F) (write_idx : Z).

Definition coefficients_of (e : effect) : coefficients :=
  match ext e with
  | Plain => No_coefficients
  | GainEffect g => Gain_coefficients g
  | Chorus vs d i => Chorus_coefficients (map buffer vs) d i
  end.

(** Two values of the same Python type. *)
Definition same_type (a b : pyval) : bool :=
  match a, b with
  | PyNone, PyNone => true
  | PyInt _, PyInt _ => true
  | PyFloat _, PyFloat _ => true
  | _, _ => false
  end.

(** The linear gain of a gain in decibels: [10 ** (gain_db / 20.0)]. *)
Definition db_to_linear (gain_db : F) : res F := fpow10 (fdiv gain_db (flit 20.0)).

(** A level the gain can convert: [10 ** (gain_db / 20.0)] stays in the
    range of a float. *)
Definition in_range (gain_db : F) : Prop := exists g, db_to_linear gain_db = Ret g.

(** The delay buffers [Chorus.reset] builds for [n] voices. *)
Definition buffers_for (sr ch : Z) (d : F) (n : Z) : list (ndarray F) :=
  if (sr <=? 0) || (ch <=? 0) then []
  else
    let len := ftrunc (fmul d (fofZ sr)) in
    if len <=? 0 then []
    else repeat (np_zeros [Z.to_nat len; Z.to_nat ch]) (Z.to_nat n).

(** The coefficients a class derives from a parameter mapping, at the
    stream properties of a fresh effect; none when the mapping holds a
    value the class cannot derive them from. *)
Definition derived_from (c : effect_class) (p : gmap string pyval) : option coefficients :=
  match c with
  | Base_class _ => Some No_coefficients
  | Gain_class =>
      match p !! "gain_db" with
      | Some (PyFloat x) =>
          match db_to_linear x with
          | Ret g => Some (Gain_coefficients g)
          | Raise _ => None
          end
      | _ => None
      end
  | Chorus_class =>
      match p !! "num_voices" with
      | Some (PyInt n) =>
          Some (Chorus_coefficients (buffers_for 44100 2 (flit 0.025) n) (flit 0.025) 0)
      | _ => None
      end
  end.

(** A mapping with the keys of [p0], each holding a value of the type it
    has in [p0]. *)
Definition typed_like (p0 p : gmap string pyval) : Prop :=
  forall key,
    match p0 !! key, p !! key with
    | Some d, Some v => same_type d v = true
    | None, None => True
    | _, _ => False
    end.

(** The state of an effect of class [c] between two calls: its parameters
    are typed as the defaults, its stream properties are those of a fresh
    effect, and its coefficients are the ones its parameters give. *)
Definition settled (c : effect_class) (w : world) : Prop :=
  typed_like (default_parameters c) (parameters (self w)) /\
  sample_rate (self w) = 44100 /\ channels (self w) = 2 /\
  derived_from c (parameters (self w)) = Some (coefficients_of (self w)).

(** The parameter [nm] of the mapping, if it has it, holds [X] or a value
    equal to it. *)
Definition holds_value (p : gmap string pyval) (nm : string) (X : pyval) : Prop :=
  match p !! nm with
  | None => True
  | Some v => v = X \/ py_eqb v X = true
  end.

(** The second world has the stream properties of the first, and its
    journal continues the journal of the first. *)
Definition continues (w w' : world) : Prop :=
  sample_rate (self w') = sample_rate (self w) /\
  channels (self w') = channels (self w) /\
  exists j, journal w' = journal w ++ j.

(** Every run of [c] continues the world it starts from. *)
Definition steady {A} (c : M world A) : Prop :=
  forall w, continues w (snd (c w)).

End Effects.

Arguments pyval F : clear implicits.
Arguments voice F : clear implicits.
Arguments subclass F : clear implicits.
Arguments effect F : clear implicits.
Arguments event F : clear implicits.
Arguments world F : clear implicits.
Arguments coefficients F : clear implicits.

End AudioEffects.

(** ** [flow_state_main.py]: [AudioEngine] *)
Module AudioEngine.
Section Engine.
Context {F : Type} `{NP : NumPy F}.

(** What the producer may have put on the queue: a block, or [None]. *)
Inductive queue_item : Type :=
| Item_None
| Item_block (block : ndarray F).

(** The attributes of [AudioEngine] the modelled methods read or write. *)
Record engine : Type := Engine {
  is_playing : bool;
  is_paused : bool;
  volume : F;
  is_muted : bool;
  previous_volume_before_mute : F;
  sample_rate : Z;
  channels : Z;
  block_size : Z;
  stream_output_queue : list queue_item
}.

(** [AudioEngine.__init__] *)
Definition AudioEngine_init : engine :=
  Engine false false (flit 0.7) false (flit 0.7) 44100 2 1024 [].

(** The buffer PortAudio hands to the callback: [frames] rows of
    [channels] samples. *)
Record outbuf : Type := OutBuf {
  out_frames : nat;
  out_channels : nat;
  samples : list F
}.

(** The world of one callback invocation. *)
Record cb_world : Type := CbWorld {
  this : engine;
  outdata : outbuf;
  logged : list (level * string)
}.

Definition log (lv : level) (message : string) : M cb_world unit :=
  modify (fun w => CbWorld (this w) (outdata w) (logged w ++ [(lv, message)])).

Definition set_queue (q : list queue_item) (e : engine) : engine :=
  Engine (is_playing e) (is_paused e) (volume e) (is_muted e)
         (previous_volume_before_mute e) (sample_rate e) (channels e)
         (block_size e) q.

(** [max(0.001, self.block_size / self.sample_rate * 0.5)]: only the
    division can fail. *)
Definition pop_timeout : M cb_world unit :=
  let* e := gets this in
  if sample_rate e =? 0 then throw ZeroDivisionError else ret tt.

(** [self.stream_output_queue.get(timeout=...)]: the head of what the
    queue holds when the wait ends, or [queue.Empty]. *)
Definition queue_get : M cb_world queue_item :=
  fun w =>
    match stream_output_queue (this w) with
    | [] => (Raise QueueEmpty, w)
    | x :: q => (Ret x, CbWorld (set_queue q (this w)) (outdata w) (logged w))
    end.

(** [block.shape[i]] *)
Definition shape_at (block : queue_item) (i : nat) : res nat :=
  match block with
  | Item_None => Raise (AttributeError "shape")
  | Item_block a =>
      match nth_error (shape a) i with
      | Some n => Ret n
      | None => Raise IndexError
      end
  end.

(** [outdata.fill(0)] *)
Definition fill_silence : M cb_world unit :=
  modify (fun w =>
    let o := outdata w in
    CbWorld (this w)
            (OutBuf (out_frames o) (out_channels o)
                    (repeat (flit 0) (out_frames o * out_channels o)))
            (logged w)).

(** Assignment drops the leading axes of length one a value has in excess. *)
Fixpoint strip_leading_ones (sh : list nat) : list nat :=
  match sh with
  | 1%nat :: rest => if (2 <? length sh)%nat then strip_leading_ones rest else sh
  | _ => sh
  end.

Definition head_or_zero (row : list F) : F := hd (flit 0) row.

(** The elements [outdata[:] = value] writes into a buffer of [r] rows
    and [c] columns, by NumPy's broadcasting; [None] when the shapes do not
    fit. *)
Definition broadcast_to (r c : nat) (value : ndarray F) : option (list F) :=
  match strip_leading_ones (shape value) with
  | [] => Some (repeat (head_or_zero (data value)) (r * c))
  | [b] =>
      if (b =? c)%nat then Some (concat (repeat (data value) r))
      else if (b =? 1)%nat then Some (repeat (head_or_zero (data value)) (r * c))
      else None
  | [a; b] =>
      if (a =? r)%nat && (b =? c)%nat then Some (data value)
      else
        let rows := chunks b (data value) in
        let wide :=
          if (b =? c)%nat then Some rows
          else if (b =? 1)%nat then Some (map (fun row => repeat (head_or_zero row) c) rows)
          else None in
        match wide with
        | None => None
        | Some rows' =>
            if (a =? r)%nat then Some (concat rows')
            else if (a =? 1)%nat then Some (concat (repeat (concat rows') r))
            else None
        end
  | _ => None
  end.

(** [outdata[:] = value] *)
Definition assign_outdata (value : ndarray F) : M cb_world unit :=
  fun w =>
    let o := outdata w in
    match broadcast_to (out_frames o) (out_channels o) value with
    | Some l => (Ret tt, CbWorld (this w) (OutBuf (out_frames o) (out_channels o) l) (logged w))
    | None => (Raise ValueError, w)
    end.

(** [self.volume if not self.is_muted else 0.0] *)
Definition effective_volume (e : engine) : F :=
  if is_muted e then flit 0 else volume e.

(** [block * x] *)
Definition times (block : queue_item) (x : F) : res (ndarray F) :=
  match block with
  | Item_None => Raise TypeError
  | Item_block a => Ret (scale a x)
  end.

(** The body of the [try] of [_sounddevice_callback]. *)
Definition callback_try (frames : nat) : M cb_world unit :=
  pop_timeout >>
  let* block := queue_get in
  let* n0 := lift_res (shape_at block 0) in
  let* fits :=
    if (n0 =? frames)%nat then
      let* n1 := lift_res (shape_at block 1) in
      let* o := gets outdata in
      ret (n1 =? out_channels o)%nat
    else ret false in
  if fits then
    let* e := gets this in
    let* scaled := lift_res (times block (effective_volume e)) in
    assign_outdata scaled
  else
    fill_silence >> log WARNING "SD CB: Block/frame mismatch.".

(** The two [except] clauses. *)
Definition callback_except (e : exn) : M cb_world unit :=
  match e with
  | QueueEmpty => fill_silence >> log DEBUG "SD CB: Queue empty (underrun)."
  | _ => fill_silence >> log ERROR "Error in SD CB"
  end.

(** The status flags sounddevice passes. *)
Inductive callback_flags := No_flags | Output_underflow | Other_flags.

(** [AudioEngine._sounddevice_callback] *)
Definition _sounddevice_callback (frames : nat) (status : callback_flags) : M cb_world unit :=
  (match status with
   | Output_underflow => log WARNING "Sounddevice output underflow!"
   | Other_flags => log DEBUG "Sounddevice callback status"
   | No_flags => ret tt
   end) >>
  try_except (callback_try frames) callback_except.

(** [AudioEngine.set_volume]: its body in the source is [pass]. *)
Definition set_volume (volume_float : F) : M engine unit := ret tt.

(** [AudioEngine.toggle_mute]: its body in the source is [pass]. *)
Definition toggle_mute : M engine unit := ret tt.

(** *** Vocabulary of the statements *)

(** The pop of the callback: the timeout is computed, then the queue is
    asked. *)
Definition pop : M cb_world queue_item := pop_timeout >> queue_get.

(** A buffer of zeroes of the shape of [o]. *)
Definition silence (o : outbuf) : list F :=
  repeat (flit 0) (out_frames o * out_channels o).

End Engine.

Arguments queue_item F : clear implicits.
Arguments engine F : clear implicits.
Arguments outbuf F : clear implicits.
Arguments cb_world F : clear implicits.

End AudioEngine.

(** ** [flow_state_launcher.py]: [HostAppInterface] *)
Module HostApp.

(** The values that travel in the [params] dictionary of an action. *)
#[local] Unset Elimination Schemes.
Inductive pyobj : Type :=
| ONone
| OBool (b : bool)
| OInt (z : Z)
| OFloat (q : Q)
| OStr (s : string)
| OList (l : list pyobj)
| ODict (d : list (string * pyobj)).
#[local] Set Elimination Schemes.

(** A collaborator the host holds a reference to, seen the way the host
    sees it: which attributes [hasattr] finds, and what calling a method
    does (it returns, or it raises). *)
Record component : Type := Component {
  has_attr : string -> bool;
  invoke : string -> list pyobj -> list (string * pyobj) -> res unit
}.

(** The value of an attribute, as [int()] sees it: an int (a bool is
    one), a finite float, [None], or any other object, which is given by
    what [int()] makes of it (a numeral in a string gives its number, another
    string [ValueError], a list [TypeError], a NaN [ValueError], an infinity
    [OverflowError]). *)
Inductive attr_value : Type :=
| Int_value (z : Z)
| Float_value (q : Q)
| None_value
| Other_value (int_gives : res Z).

(** [int(v)]: a float is truncated toward zero. *)
Definition py_int (v : attr_value) : res Z :=
  match v with
  | Int_value z => Ret z
  | Float_value q => Ret (Z.quot (Qnum q) (Zpos (Qden q)))
  | None_value => Raise TypeError
  | Other_value int_gives => int_gives
  end.

(** The audio engine: a component, with the values of its [sample_rate]
    and [channels] attributes when it has them. *)
Record engine_ref : Type := EngineRef {
  engine_methods : component;
  sample_rate_attr : option attr_value;
  channels_attr : option attr_value
}.

Record host : Type := Host {
  audio_engine_ref : option engine_ref;
  main_player_ui_ref : option component;
  status_bar_var : option string     (* the text of the StringVar, if there is one *)
}.

(** A call the host made on a collaborator. *)
Inductive target := The_engine | The_player_ui.

Record call : Type := Call {
  call_target : target;
  call_method : string;
  call_args : list pyobj;
  call_kwargs : list (string * pyobj)
}.

(** The world of a host method: the host, the calls it made, what it
    scheduled with [root.after(0, callback, success, err_msg)], and the
    log. *)
Record world : Type := World {
  this : host;
  calls : list call;
  scheduled : list (bool * option string);
  logged : list (level * string)
}.

Definition log (lv : level) (message : string) : M world unit :=
  modify (fun w => World (this w) (calls w) (scheduled w) (logged w ++ [(lv, message)])).

Definition schedule (success : bool) (err_msg : option string) : M world unit :=
  modify (fun w => World (this w) (calls w) (scheduled w ++ [(success, err_msg)]) (logged w)).

(** [self.status_bar_var.set(text)] when there is a status bar variable. *)
Definition set_status (text : string) : M world unit :=
  modify (fun w =>
    let h := this w in
    match status_bar_var h with
    | Some _ => World (Host (audio_engine_ref h) (main_player_ui_ref h) (Some text))
                      (calls w) (scheduled w) (logged w)
    | None => w
    end).

(** A method call [obj.method(...)]: the attribute is looked up, then the
    call is made. *)
Definition call_method_of (t : target) (obj : component) (method : string)
    (args : list pyobj) (kwargs : list (string * pyobj)) : M world unit :=
  if has_attr obj method then
    modify (fun w => World (this w) (calls w ++ [Call t method args kwargs])
                           (scheduled w) (logged w)) >>
    lift_res (invoke obj method args kwargs)
  else throw (AttributeError method).

Fixpoint dict_get (params : list (string * pyobj)) (key : string) : option pyobj :=
  match params with
  | [] => None
  | (k, v) :: rest => if String.eqb k key then Some v else dict_get rest key
  end.

(** [params[key]] *)
Definition item (params : list (string * pyobj)) (key : string) : res pyobj :=
  match dict_get params key with
  | Some v => Ret v
  | None => Raise (KeyError key)
  end.

(** [params.get(key, default)] *)
Definition get (params : list (string * pyobj)) (key : string) (default : pyobj) : pyobj :=
  match dict_get params key with
  | Some v => v
  | None => default
  end.

(** Unpacking a value as keyword arguments: it must be a mapping. *)
Definition as_kwargs (value : pyobj) : res (list (string * pyobj)) :=
  match value with
  | ODict d => Ret d
  | _ => Raise TypeError
  end.

(** [str(e)] of a caught exception. *)
Definition exn_text (e : exn) : string :=
  match e with
  | ZeroDivisionError => "division by zero"
  | IndexError => "index out of range"
  | TypeError => "type error"
  | ValueError => "value error"
  | OverflowError => "Numerical result out of range"
  | AttributeError what => what
  | KeyError key => ("'" +:+ key +:+ "'")%string   (* the repr of a key that holds no quote *)
  | QueueEmpty => ""
  | OtherException what => what
  end.

(** [HostAppInterface.get_audio_properties] *)
Definition get_audio_properties : M world (Z * Z) :=
  let* h := gets this in
  match audio_engine_ref h with
  | Some e =>
      match sample_rate_attr e, channels_attr e with
      | Some sr, Some ch =>
          let* sample_rate := lift_res (py_int sr) in
          let* channels := lift_res (py_int ch) in
          ret (sample_rate, channels)
      | _, _ =>
          log WARNING "HostApp: Audio properties requested but audio engine not ready." >>
          ret (44100, 2)
      end
  | None =>
      log WARNING "HostApp: Audio properties requested but audio engine not ready." >>
      ret (44100, 2)
  end.

(** A call on the player UI guarded by
    [if self.main_player_ui_ref and hasattr(self.main_player_ui_ref, method)];
    the arguments are read from [params] once the guard has passed.  The
    value is the [success] flag the branch leaves. *)
Definition guarded_ui_call (method : string) (keys : list string)
    (params : list (string * pyobj)) : M world bool :=
  let* h := gets this in
  match main_player_ui_ref h with
  | Some ui =>
      if has_attr ui method then
        let* args := lift_res
          (fold_right (fun key acc =>
                         match item params key, acc with
                         | Ret v, Ret vs => Ret (v :: vs)
                         | Raise e, _ => Raise e
                         | _, Raise e => Raise e
                         end) (Ret []) keys) in
        call_method_of The_player_ui ui method args [] >> ret true
      else ret false
  | None => ret false
  end.

(** A call on the engine guarded by [if hasattr(self.audio_engine_ref, method)]. *)
Definition guarded_engine_call (eng : component) (method : string)
    (args : list pyobj) (kwargs : list (string * pyobj)) : M world bool :=
  if has_attr eng method then
    call_method_of The_engine eng method args kwargs >> ret true
  else ret false.

(** An unguarded call on the engine. *)
Definition engine_call (eng : component) (method : string)
    (args : list pyobj) (kwargs : list (string * pyobj)) : M world bool :=
  call_method_of The_engine eng method args kwargs >> ret true.

(** The chain of [if action == ...] inside the [try]: the value is
    [(success, err_msg)] as the chain leaves them. *)
Definition dispatch (eng : component) (action : string)
    (params : list (string * pyobj)) : M world (bool * option string) :=
  let ok (c : M world bool) : M world (bool * option string) :=
    let* success := c in ret (success, None) in
  if String.eqb action "load_track_from_path" then
    ok (guarded_ui_call "load_track" ["filepath"] params)
  else if String.eqb action "load_and_play_path" then
    ok (guarded_ui_call "load_track_and_play" ["filepath"] params)
  else if String.eqb action "play_track_by_id" then
    ok (guarded_ui_call "play_track_by_id_from_library" ["track_id"] params)
  else if String.eqb action "play_track_at_playlist_index" then
    if has_attr eng "play_track_at_playlist_index" then
      let* index := lift_res (item params "index") in
      ok (engine_call eng "play_track_at_playlist_index" [index] [])
    else ret (false, None)
  else if String.eqb action "play" then
    if has_attr eng "play" then
      let* kwargs := lift_res (as_kwargs (get params "play_args" (ODict []))) in
      ok (engine_call eng "play" [] kwargs)
    else throw (AttributeError "play")
  else if String.eqb action "pause" then ok (engine_call eng "pause" [] [])
  else if String.eqb action "resume" then
    if has_attr eng "resume" then ok (engine_call eng "resume" [] [])
    else ok (engine_call eng "play" [] [])
  else if String.eqb action "stop" then ok (engine_call eng "stop" [] [])
  else if String.eqb action "next" then ok (engine_call eng "next_track" [] [])
  else if String.eqb action "previous" then ok (engine_call eng "previous_track" [] [])
  else if String.eqb action "set_volume" then
    ok (engine_call eng "set_volume" [get params "level" (OFloat 0.7)] [])
  else if String.eqb action "seek" then
    ok (engine_call eng "set_position" [get params "position_seconds" (OFloat 0)] [])
  else if String.eqb action "toggle_mute" then
    ok (guarded_engine_call eng "toggle_mute" [] [])
  else if String.eqb action "add_to_queue_path" then
    ok (guarded_ui_call "add_to_playback_queue" ["filepath"] params)
  else if String.eqb action "load_playlist_paths" then
    ok (guarded_engine_call eng "load_playlist"
          [get params "paths" (OList [])]
          [("play_first", get params "play_first" (OBool true));
           ("replace_queue", get params "replace_queue" (OBool true))])
  else if String.eqb action "set_shuffle_mode" then
    ok (guarded_engine_call eng "set_shuffle_mode" [get params "state" (OBool false)] [])
  else if String.eqb action "set_repeat_mode" then
    ok (guarded_engine_call eng "set_repeat_mode" [get params "mode" (OStr "off")] [])
  else if String.eqb action "force_sync_playback" then
    ok (guarded_ui_call "force_sync_local_player_to_state"
          ["library_track_id"; "position_seconds"; "is_playing_target"] params)
  else
    let err_msg := ("Unknown playback action: " +:+ action)%string in
    log WARNING err_msg >> ret (false, Some err_msg).

(** The [try] with the status bar update that ends it, and the two
    [except] clauses. *)
Definition dispatch_guarded (eng : component) (action : string)
    (params : list (string * pyobj)) : M world (bool * option string) :=
  try_except
    (let* r := dispatch eng action params in
     (match r with
      | (true, _) => set_status ("Playback: " +:+ action +:+ " processed.")%string
      | (false, Some err_msg) => set_status ("Error: " +:+ err_msg)%string
      | (false, None) => ret tt
      end) >>
     ret r)
    (fun e =>
       match e with
       | AttributeError _ =>
           ret (false, Some ("Component missing method for action '" +:+ action
                             +:+ "': " +:+ exn_text e)%string)
       | _ =>
           ret (false, Some ("Error executing playback action '" +:+ action
                             +:+ "': " +:+ exn_text e)%string)
       end).

(** [params or {}] *)
Definition or_empty (params : option (list (string * pyobj))) : list (string * pyobj) :=
  match params with
  | Some d => d
  | None => []
  end.

(** [HostAppInterface.request_playback_action]; [callback] tells whether
    the caller passed one. *)
Definition request_playback_action (action : string)
    (params : option (list (string * pyobj))) (callback : bool) : M world unit :=
  let* h := gets this in
  match audio_engine_ref h with
  | None =>
      let msg := "Playback action requested, but audio engine not available." in
      log WARNING msg >>
      set_status "Error: Audio engine not ready." >>
      if callback then schedule false (Some msg) else ret tt
  | Some e =>
      let params := or_empty params in
      log INFO "Host: Playback action" >>
      let* r := dispatch_guarded (engine_methods e) action params in
      if callback then schedule (fst r) (snd r) else ret tt
  end.

(** The action names the chain of [request_playback_action] compares with. *)
Definition known_actions : list string :=
  ["load_track_from_path"; "load_and_play_path"; "play_track_by_id";
   "play_track_at_playlist_index"; "play"; "pause"; "resume"; "stop"; "next";
   "previous"; "set_volume"; "seek"; "toggle_mute"; "add_to_queue_path";
   "load_playlist_paths"; "set_shuffle_mode"; "set_repeat_mode";
   "force_sync_playback"].

(** The action names the specification lists for the facade. *)
Definition listed_actions : list string :=
  ["load"; "load_and_play"; "play"; "pause"; "resume"; "stop"; "next";
   "previous"; "seek"; "set_volume"; "toggle_mute"; "set_shuffle_mode";
   "set_repeat_mode"; "force_sync_playback"].

(** The engine operation each action of the chain that goes to the engine
    stands for. *)
Definition engine_operation (action : string) : option string :=
  if String.eqb action "play" then Some "play"
  else if String.eqb action "pause" then Some "pause"
  else if String.eqb action "resume" then Some "resume"
  else if String.eqb action "stop" then Some "stop"
  else if String.eqb action "next" then Some "next_track"
  else if String.eqb action "previous" then Some "previous_track"
  else if String.eqb action "seek" then Some "set_position"
  else if String.eqb action "set_volume" then Some "set_volume"
  else if String.eqb action "toggle_mute" then Some "toggle_mute"
  else if String.eqb action "set_shuffle_mode" then Some "set_shuffle_mode"
  else if String.eqb action "set_repeat_mode" then Some "set_repeat_mode"
  else None.

(** The class [AudioEngine] of [flow_state_main.py] as a component: the
    methods it defines, each of which has [pass] (or a [return]) for a body
    and so returns; [play] takes the two keywords of its signature. *)
Definition AudioEngine_methods : list string :=
  ["_sounddevice_callback"; "_start_sound_stream"; "_stop_sound_stream";
   "_playback_thread_func"; "load_track"; "play"; "pause"; "resume"; "stop";
   "set_position"; "get_position"; "set_volume"; "toggle_mute"; "cleanup";
   "set_shuffle_mode"; "_apply_shuffle"; "set_repeat_mode";
   "get_next_track_info"; "next_track"; "previous_track";
   "remove_track_from_playlist_at_index"; "play_track_at_playlist_index";
   "force_sync_playback_to_state"].

Definition mem_string (s : string) (l : list string) : bool :=
  existsb (String.eqb s) l.

Definition AudioEngine_component : component :=
  Component
    (fun nm => mem_string nm AudioEngine_methods)
    (fun method args kwargs =>
       if String.eqb method "play" then
         if forallb (fun kv => mem_string (fst kv) ["start_offset_sec"; "track_path_to_load"]) kwargs
         then Ret tt else Raise TypeError
       else Ret tt).

(** A freshly built [AudioEngine] registered with the host. *)
Definition AudioEngine_ref : engine_ref :=
  EngineRef AudioEngine_component (Some (Int_value 44100)) (Some (Int_value 2)).

(** The class [FlowStateApp] of [flow_state_main.py]: its body is [pass],
    so it has none of the methods the host looks for. *)
Definition FlowStateApp_component : component :=
  Component (fun _ => false) (fun _ _ _ => Raise (AttributeError "FlowStateApp")).

(** A computation that schedules nothing and leaves the references of the
    host in place. *)
Definition quiet {A} (c : M world A) : Prop :=
  forall w,
    scheduled (snd (c w)) = scheduled w /\
    audio_engine_ref (this (snd (c w))) = audio_engine_ref (this w) /\
    main_player_ui_ref (this (snd (c w))) = main_player_ui_ref (this w).

(** A branch of the chain that leaves no error message when it returns. *)
Definition leaves_no_message (c : M world (bool * option string)) : Prop :=
  forall w,
    match fst (c w) with
    | Ret (_, m) => m = None
    | Raise _ => True
    end.

(** The message that reports an action the chain does not know. *)
Definition unknown_action (action : string) : string :=
  ("Unknown playback action: " +:+ action)%string.

End HostApp.

(** ** A reference interpretation of the numeric runtime

    The rationals, every result in lowest terms.  [10 ** x] is exact on the
    whole exponents, takes the whole part of the others and overflows from
    the exponent 309 on; [float(n)] overflows from [2 ** 1024] on; [np.pi]
    is [355/113]; the generator returns [1/2] at every draw.  It serves to
    run the model on concrete inputs. *)
Definition Q_trunc (q : Q) : Z := Z.quot (Qnum q) (Zpos (Qden q)).

#[export] Instance Q_NumPy : NumPy Q := {|
  flit := Qred;
  fofZ := inject_Z;
  float_of_int := fun z =>
    if Z.abs z <? 2 ^ 1024 then Ret (inject_Z z) else Raise OverflowError;
  fadd := fun a b => Qred (a + b);
  fsub := fun a b => Qred (a - b);
  fmul := fun a b => Qred (a * b);
  fdiv := fun a b => Qred (a / b);
  fpow10 := fun x =>
    if Qle_bool 309 x then Raise OverflowError else Ret (Qred (Qpower 10 (Qfloor x)));
  feqb := Qeq_bool;
  ftrunc := Q_trunc;
  fpi := (355 # 113)%Q;
  np_random_rand := fun _ => (1 # 2)%Q
|}.


(** ** Further vocabulary for the effect units *)
Module AudioEffectsFrame.
Import AudioEffects.
Section Frame.
Context {F : Type} `{NP : NumPy F}.

(** The second effect has the name, the two flags and the stream
    properties of the first. *)
Definition same_setup (e e' : effect F) : Prop :=
  name e' = name e /\ enabled e' = enabled e /\ bypass e' = bypass e /\
  sample_rate e' = sample_rate e /\ channels e' = channels e.

(** The second effect has the setup and the parameter mapping of the
    first. *)
Definition same_settings (e e' : effect F) : Prop :=
  same_setup e e' /\ parameters e' = parameters e.

(** The second effect has the setup of the first, and its parameter
    mapping has the same keys and, away from [nm], the same values. *)
Definition same_but (nm : string) (e e' : effect F) : Prop :=
  same_setup e e' /\
  (forall key, key <> nm -> parameters e' !! key = parameters e !! key) /\
  (is_Some (parameters e' !! nm) <-> is_Some (parameters e !! nm)).

(** Every run of [c] relates the effect it starts from to the effect it
    leaves by [R], whether it returns or raises. *)
Definition keeps {A} (R : effect F -> effect F -> Prop) (c : M (world F) A) : Prop :=
  forall w, R (self w) (self (snd (c w))).

(** A block of frames as the effects document it: one axis (mono), or two
    axes with a channel count other than one. *)
Definition plain_block (audio_block : ndarray F) : Prop :=
  (exists n, shape audio_block = [n]) \/
  (exists n c, shape audio_block = [n; c] /\ c <> 1%nat).

(** The three records a completed [Chorus.reset] leaves in the journal. *)
Definition reset_trace : list (event F) :=
  [Call_reset; Logged DEBUG "Resetting effect"; Logged INFO "Chorus reset"].

End Frame.
End AudioEffectsFrame.

(** ** [flow_state_main.py]: [AudioEngine._start_sound_stream] *)
Module SoundStream.
Section Stream.
Context {F : Type}.

(** An [sd.OutputStream] as the engine sees it: the properties it was
    opened with, and whether it is active. *)
Record stream : Type := Stream {
  samplerate : Z;
  stream_channels : Z;
  blocksize : Z;
  active : bool
}.

(** The sound device, as the engine meets it: opening a stream
    ([sd.OutputStream(...)]) and starting one ([stream.start()]) each
    return or raise. *)
Record device : Type := Device {
  sd_OutputStream : Z -> Z -> Z -> res stream;
  start : stream -> res stream
}.

(** The world of [_start_sound_stream]: the engine, its [stream]
    attribute, the device calls made, and the log. *)
Inductive device_call : Type :=
| Open (sr ch bs : Z)
| Start (s : stream).

Record world : Type := World {
  this : AudioEngine.engine F;
  stream_attr : option stream;
  device_calls : list device_call;
  logged : list (level * string)
}.

Definition log (lv : level) (message : string) : M world unit :=
  modify (fun w => World (this w) (stream_attr w) (device_calls w)
                         (logged w ++ [(lv, message)])).

Definition set_stream (s : option stream) : M world unit :=
  modify (fun w => World (this w) s (device_calls w) (logged w)).

Definition device_call_of {A} (c : device_call) (r : res A) : M world A :=
  modify (fun w => World (this w) (stream_attr w) (device_calls w ++ [c]) (logged w)) >>
  lift_res r.

(** [AudioEngine._stop_sound_stream]: its body in the source is [pass]. *)
Definition _stop_sound_stream (close_existing : bool) : M world unit := ret tt.

(** [self.stream and self.stream.active] *)
Definition stream_is_active (s : option stream) : bool :=
  match s with
  | Some st => active st
  | None => false
  end.

(** [AudioEngine._start_sound_stream] *)
Definition _start_sound_stream (dev : device) : M world bool :=
  let* s := gets stream_attr in
  if stream_is_active s then ret true
  else
    let* e := gets this in
    if (AudioEngine.sample_rate e <=? 0) || (AudioEngine.channels e <=? 0) then ret false
    else
      try_except
        ((match s with
          | Some _ => _stop_sound_stream true
          | None => ret tt
          end) >>
         log INFO "Starting sounddevice stream" >>
         let* e := gets this in
         let sr := AudioEngine.sample_rate e in
         let ch := AudioEngine.channels e in
         let bs := AudioEngine.block_size e in
         let* st := device_call_of (Open sr ch bs) (sd_OutputStream dev sr ch bs) in
         set_stream (Some st) >>
         let* st' := device_call_of (Start st) (start dev st) in
         set_stream (Some st') >>
         ret true)
        (fun _ => ret false).

(** Whether the device lets a stream of the engine's properties be opened
    and started. *)
Definition device_accepts (dev : device) (e : AudioEngine.engine F) : Prop :=
  exists st st',
    sd_OutputStream dev (AudioEngine.sample_rate e) (AudioEngine.channels e)
                    (AudioEngine.block_size e) = Ret st /\
    start dev st = Ret st'.

End Stream.

Arguments world F : clear implicits.

End SoundStream.

(** ** Further vocabulary for the host facade *)
Module HostAppFrame.
Import HostApp.

(** Every run of [c] appends at most [n] calls on collaborators to the
    calls made so far. *)
Definition calls_at_most (n : nat) {A} (c : M world A) : Prop :=
  forall w, exists l, calls (snd (c w)) = calls w ++ l /\ (length l <= n)%nat.

(** The method of the player UI each action of the chain that goes to the
    player UI stands for, with the keys of [params] it passes on. *)
Definition ui_operation (action : string) : option (string * list string) :=
  if String.eqb action "load_track_from_path" then Some ("load_track", ["filepath"])
  else if String.eqb action "load_and_play_path" then
    Some ("load_track_and_play", ["filepath"])
  else if String.eqb action "play_track_by_id" then
    Some ("play_track_by_id_from_library", ["track_id"])
  else if String.eqb action "add_to_queue_path" then
    Some ("add_to_playback_queue", ["filepath"])
  else if String.eqb action "force_sync_playback" then
    Some ("force_sync_local_player_to_state",
          ["library_track_id"; "position_seconds"; "is_playing_target"])
  else None.

(** [self.main_player_ui_ref and hasattr(self.main_player_ui_ref, method)] *)
Definition ui_has (h : host) (method : string) : bool :=
  match main_player_ui_ref h with
  | Some ui => has_attr ui method
  | None => false
  end.

(** How the two [except] clauses of [request_playback_action] begin their
    message. *)
Definition missing_method_prefix (action : string) : string :=
  ("Component missing method for action '" +:+ action +:+ "': ")%string.

Definition error_prefix (action : string) : string :=
  ("Error executing playback action '" +:+ action +:+ "': ")%string.

Definition failure_prefix (action : string) (e : exn) : string :=
  match e with
  | AttributeError _ => missing_method_prefix action
  | _ => error_prefix action
  end.

(** What the callback is told when no engine is registered. *)
Definition no_engine_message : string :=
  "Playback action requested, but audio engine not available.".

End HostAppFrame.

(** ** [flow_state_launcher.py]: [HostAppInterface.request_library_action] *)
Module HostLibrary.
Import HostApp.

(** The music library database as the host sees it: which methods
    [getattr] finds on it, and what calling one returns or raises. *)
Record database : Type := Database {
  db_has : string -> bool;
  db_invoke : string -> list pyobj -> list (string * pyobj) -> res pyobj
}.

Record db_call : Type := DbCall {
  db_method : string;
  db_args : list pyobj;
  db_kwargs : list (string * pyobj)
}.

(** The closure [_worker] handed to the thread pool: the action and the
    parameters it has captured (its callback is the caller's). *)
Record task : Type := Task {
  task_action : string;
  task_params : list (string * pyobj)
}.

(** The world of a library request: the database reference of the host,
    the calls made on the database, the results scheduled for the callback
    with [root.after(0, callback, result)], the workers submitted to
    [APP_STARTUP_THREAD_POOL], and the log. *)
Record world : Type := World {
  music_library_db_ref : option database;
  db_calls : list db_call;
  scheduled : list pyobj;
  submitted : list task;
  logged : list (level * string)
}.

Definition log (lv : level) (message : string) : M world unit :=
  modify (fun w => World (music_library_db_ref w) (db_calls w) (scheduled w)
                         (submitted w) (logged w ++ [(lv, message)])).

Definition schedule (result : pyobj) : M world unit :=
  modify (fun w => World (music_library_db_ref w) (db_calls w) (scheduled w ++ [result])
                         (submitted w) (logged w)).

Definition submit (t : task) : M world unit :=
  modify (fun w => World (music_library_db_ref w) (db_calls w) (scheduled w)
                         (submitted w ++ [t]) (logged w)).

(** The positional arguments of a call, evaluated from left to right: the
    first that raises ends the evaluation. *)
Fixpoint evaluate (args : list (res pyobj)) : res (list pyobj) :=
  match args with
  | [] => Ret []
  | Ret v :: rest =>
      match evaluate rest with
      | Ret vs => Ret (v :: vs)
      | Raise e => Raise e
      end
  | Raise e :: _ => Raise e
  end.

(** [self.music_library_db_ref.method(args, kwargs)]: the method is looked
    up on the reference as it is when the worker runs, then the arguments
    are evaluated, then the call is made. *)
Definition db_call_of (method : string) (args : list (res pyobj))
    (kwargs : list (string * pyobj)) : M world pyobj :=
  let* ref := gets music_library_db_ref in
  match ref with
  | None => throw (AttributeError method)
  | Some db =>
      if db_has db method then
        let* vs := lift_res (evaluate args) in
        modify (fun w => World (music_library_db_ref w)
                               (db_calls w ++ [DbCall method vs kwargs])
                               (scheduled w) (submitted w) (logged w)) >>
        lift_res (db_invoke db method vs kwargs)
      else throw (AttributeError method)
  end.

(** The chain of [if action == ...] inside the [try] of [_worker]: the
    value is what [result] is assigned. *)
Definition worker_try (action : string) (params : list (string * pyobj)) : M world pyobj :=
  let opt key default := Ret (get params key default) in
  let req key := item params key in
  if String.eqb action "search_tracks" then
    db_call_of "search_tracks" [opt "query" (OStr EmptyString)]
               [("limit", get params "limit" (OInt 100))]
  else if String.eqb action "get_track_by_id" then
    db_call_of "get_track" [opt "track_id" ONone] []
  else if String.eqb action "get_all_playlists" then
    db_call_of "get_all_playlists" [] []
  else if String.eqb action "get_playlist_by_id" then
    db_call_of "get_playlist_by_id" [opt "playlist_id" ONone] []
  else if String.eqb action "get_playlist_tracks" then
    db_call_of "get_playlist_tracks" [opt "playlist_id" ONone] []
  else if String.eqb action "get_smart_playlist_tracks" then
    db_call_of "get_smart_playlist_tracks" [opt "rules_json" ONone] []
  else if String.eqb action "create_playlist" then
    db_call_of "create_playlist"
               [req "name"; opt "description" (OStr EmptyString);
                opt "is_smart" (OBool false); opt "rules_json" ONone] []
  else if String.eqb action "update_playlist" then
    db_call_of "update_playlist"
               [req "playlist_id"; req "name"; opt "description" (OStr EmptyString);
                req "is_smart"; opt "rules_json" ONone] []
  else if String.eqb action "add_tracks_to_playlist" then
    db_call_of "add_tracks_to_playlist" [req "playlist_id"; req "track_ids"] [] >>
    ret (OBool true)
  else if String.eqb action "rename_playlist" then
    db_call_of "rename_playlist" [req "playlist_id"; req "new_name"] []
  else if String.eqb action "delete_playlist" then
    db_call_of "delete_playlist" [req "playlist_id"] []
  else if String.eqb action "get_all_distinct_values_for_field" then
    db_call_of "get_all_distinct_values_for_field" [opt "field_name" ONone] []
  else
    log WARNING "Unknown library action" >> ret ONone.

(** [_worker], the closure of [request_library_action]; [callback] tells
    whether the caller passed one. *)
Definition _worker (action : string) (params : list (string * pyobj))
    (callback : bool) : M world pyobj :=
  let* result :=
    try_except (worker_try action params)
               (fun e => log ERROR "Error executing library action" >> ret ONone) in
  (if callback then schedule result else ret tt) >>
  ret result.

(** [HostAppInterface.request_library_action] *)
Definition request_library_action (action : string)
    (params : option (list (string * pyobj))) (callback : bool) : M world pyobj :=
  let* ref := gets music_library_db_ref in
  match ref with
  | None =>
      log WARNING "Library action requested, but DB not available." >>
      (if callback then schedule ONone else ret tt) >>
      ret ONone
  | Some _ =>
      let params := or_empty params in
      log INFO "Host: Library action" >>
      if callback then submit (Task action params) >> ret ONone
      else _worker action params false
  end.

(** What the thread pool does with a worker it was handed: it calls it. *)
Definition run_task (t : task) : M world pyobj :=
  _worker (task_action t) (task_params t) true.

(** The action names the chain of [_worker] compares with. *)
Definition library_actions : list string :=
  ["search_tracks"; "get_track_by_id"; "get_all_playlists"; "get_playlist_by_id";
   "get_playlist_tracks"; "get_smart_playlist_tracks"; "create_playlist";
   "update_playlist"; "add_tracks_to_playlist"; "rename_playlist"; "delete_playlist";
   "get_all_distinct_values_for_field"].

(** What a run of the chain comes to on a given database reference: its
    outcome, the calls it makes and the records it logs. *)
Definition comes_to (c : M world pyobj) (ref : option database)
    (r : res pyobj) (made : list db_call) (said : list (level * string)) : Prop :=
  forall calls sch sub lg,
    c (World ref calls sch sub lg) = (r, World ref (calls ++ made) sch sub (lg ++ said)).

End HostLibrary.

(** ** [flow_state_plugin_system.py]: the configuration of a plugin *)
Module PluginSystem.
Import HostApp.

(** The attributes of a plugin that [save_config] and [load_config] read
    or write.  [parameters] is [Some] when the instance has an attribute of
    that name and it is a dict (the class [PluginBase] has none; the effect
    plugins add one). *)
Record plugin : Type := Plugin {
  plugin_name : string;
  enabled : bool;
  config : gmap string pyobj;
  parameters : option (gmap string pyobj)
}.

Record world : Type := World {
  self : plugin;
  logged : list (level * string)
}.

Definition log (lv : level) (message : string) : M world unit :=
  modify (fun w => World (self w) (logged w ++ [(lv, message)])).

Definition update (f : plugin -> plugin) : M world unit :=
  modify (fun w => World (f (self w)) (logged w)).

Definition set_config (c : gmap string pyobj) (p : plugin) : plugin :=
  Plugin (plugin_name p) (enabled p) c (parameters p).

Definition set_parameters (ps : option (gmap string pyobj)) (p : plugin) : plugin :=
  Plugin (plugin_name p) (enabled p) (config p) ps.

(** [PluginBase.save_config]: a copy of [parameters] when there is such a
    dict, of [config] otherwise. *)
Definition save_config (p : plugin) : gmap string pyobj :=
  match parameters p with
  | Some ps => ps
  | None => config p
  end.

(** [if key in parameters: parameters[key] = value] *)
Definition assign_known (key : string) (value : pyobj) (p : plugin) : plugin :=
  match parameters p with
  | Some ps =>
      match ps !! key with
      | Some _ => set_parameters (Some (<[key := value]> ps)) p
      | None => p
      end
  | None => p
  end.

(** [d.update(items)] *)
Definition dict_update (items : list (string * pyobj)) (d : gmap string pyobj) :
    gmap string pyobj :=
  fold_left (fun acc kv => <[fst kv := snd kv]> acc) items d.

Section Load.

(** The method [set_parameter] of the instance, when it has one: the class
    [PluginBase] has none, and what a subclass makes of it is left open. *)
Variable set_parameter : option (string -> pyobj -> M world unit).

(** [PluginBase.load_config] *)
Definition load_config (saved_config_dict : pyobj) : M world unit :=
  match saved_config_dict with
  | ODict items =>
      let* p := gets self in
      (match parameters p with
       | Some _ =>
           AudioEffects.for_each items
             (fun kv =>
                match set_parameter with
                | Some method => method (fst kv) (snd kv)
                | None => update (assign_known (fst kv) (snd kv))
                end)
       | None => update (fun p => set_config (dict_update items (config p)) p)
       end) >>
      log INFO "Plugin loaded configuration"
  | _ => log WARNING "Invalid config format"
  end.

End Load.

(** The parameters after the loop of [load_config] on a plugin without
    [set_parameter]. *)
Definition overwrite_known (items : list (string * pyobj)) (ps : gmap string pyobj) :
    gmap string pyobj :=
  fold_left (fun acc kv =>
               match acc !! fst kv with
               | Some _ => <[fst kv := snd kv]> acc
               | None => acc
               end) items ps.

(** A saved configuration as the dict [load_config] is given. *)
Definition as_dict (m : gmap string pyobj) : pyobj := ODict (map_to_list m).

End PluginSystem.
(** ** Concrete inputs

    Inputs over the reference interpretation, on which the statements
    below are run. *)
Module Inputs.
Import AudioEffects.

(** Three mono frames, as a one-axis array. *)
Definition mono3 : ndarray Q := NDArray [3%nat] [1; 2; 3]%Q.

(** The same three mono frames as an array of three rows and one column. *)
Definition mono3_column : ndarray Q := NDArray [3%nat; 1%nat] [1; 2; 3]%Q.

(** Three stereo frames. *)
Definition stereo3 : ndarray Q := NDArray [3%nat; 2%nat] [1; 3; 2; 6; 5; 5]%Q.

(** Three frames of six channels. *)
Definition surround3 : ndarray Q := NDArray [3%nat; 6%nat] (repeat 1%Q 18).

Definition world_of (e : effect Q) : world Q := World e 0 [].

(** A two-channel effect of the base class, enabled and not bypassed. *)
Definition stereo_effect : effect Q := AudioEffect_init "Compressor".

(** The same effect configured for one channel. *)
Definition mono_effect : effect Q := set_channels 1 stereo_effect.

(** A gain and a chorus as instantiation builds them, through a subclass
    that supplies [get_parameters]. *)
Definition built_gain : world Q := snd (construct true Gain_class (world_of stereo_effect)).

Definition built_chorus : world Q := snd (construct true Chorus_class (world_of stereo_effect)).

(** A freshly built gain and a freshly built chorus. *)
Definition fresh_gain : world Q := snd (GainEffect_init (world_of stereo_effect)).

Definition fresh_chorus : world Q := snd (Chorus_init (world_of stereo_effect)).

Definition with_bypass (b : bool) (w : world Q) : world Q :=
  let e := self w in
  World (Effect (name e) (enabled e) b (parameters e) (sample_rate e) (channels e) (ext e))
        (np_random_pos w) (journal w).

(** The fresh gain with its bypass flag set. *)
Definition bypassed_gain : world Q := with_bypass true fresh_gain.

(** Two stereo frames waiting on the queue of a fresh engine, and an
    output buffer of that shape holding old samples. *)
Definition block2 : ndarray Q := NDArray [2%nat; 2%nat] [1; 2; 3; 4]%Q.

Definition stale_buffer : AudioEngine.outbuf Q := AudioEngine.OutBuf 2 2 [9; 9; 9; 9]%Q.

Definition engine_with (q : list (AudioEngine.queue_item Q)) : AudioEngine.engine Q :=
  AudioEngine.set_queue q AudioEngine.AudioEngine_init.

Definition playing : AudioEngine.cb_world Q :=
  AudioEngine.CbWorld (engine_with [AudioEngine.Item_block block2]) stale_buffer [].

(** The same with nothing on the queue, and with a mono block on it. *)
Definition starved : AudioEngine.cb_world Q :=
  AudioEngine.CbWorld (engine_with []) stale_buffer [].

Definition misfed : AudioEngine.cb_world Q :=
  AudioEngine.CbWorld (engine_with [AudioEngine.Item_block mono3]) stale_buffer [].

(** The same with [None] on the queue. *)
Definition poisoned : AudioEngine.cb_world Q :=
  AudioEngine.CbWorld (engine_with [AudioEngine.Item_None]) stale_buffer [].

(** The host with the engine and the player UI of [flow_state_main.py]
    registered, and a status bar. *)
Definition wired_host : HostApp.host :=
  HostApp.Host (Some HostApp.AudioEngine_ref) (Some HostApp.FlowStateApp_component) (Some "").

Definition wired : HostApp.world := HostApp.World wired_host [] [] [].

(** The same host once a mono track at 48 kHz is loaded. *)
Definition retuned : HostApp.world :=
  HostApp.World
    (HostApp.Host (Some (HostApp.EngineRef HostApp.AudioEngine_component
                     (Some (HostApp.Int_value 48000)) (Some (HostApp.Int_value 1))))
                  (Some HostApp.FlowStateApp_component) (Some ""))
    [] [] [].

(** The host with an engine whose [sample_rate] is still [None]. *)
Definition unready : HostApp.world :=
  HostApp.World
    (HostApp.Host (Some (HostApp.EngineRef HostApp.AudioEngine_component
                     (Some HostApp.None_value) (Some (HostApp.Int_value 2))))
                  (Some HostApp.FlowStateApp_component) (Some ""))
    [] [] [].

(** The same with a sample rate held as the float 44100.5. *)
Definition fractional : HostApp.world :=
  HostApp.World
    (HostApp.Host (Some (HostApp.EngineRef HostApp.AudioEngine_component
                     (Some (HostApp.Float_value (88201 # 2))) (Some (HostApp.Int_value 2))))
                  (Some HostApp.FlowStateApp_component) (Some ""))
    [] [] [].

(** The host before any engine is registered. *)
Definition bare : HostApp.world :=
  HostApp.World (HostApp.Host None None None) [] [] [].

End Inputs.


(** ** Further concrete inputs *)
Module MoreInputs.
Import AudioEffects Inputs.

(** A block without any axis: a single sample. *)
Definition scalar0 : ndarray Q := NDArray [] [1%Q].

Definition with_sample_rate (sr : Z) (w : world Q) : world Q :=
  World (set_sample_rate sr (self w)) (np_random_pos w) (journal w).

Definition with_parameter (nm : string) (v : pyval Q) (w : world Q) : world Q :=
  World (set_parameters (<[nm := v]> (parameters (self w))) (self w))
        (np_random_pos w) (journal w).

(** The fresh chorus with its sample rate at zero. *)
Definition unplugged_chorus : world Q := with_sample_rate 0 fresh_chorus.

(** The fresh chorus with a voice count that is not an int. *)
Definition miscounted_chorus : world Q :=
  with_parameter "num_voices" (PyFloat (5 # 2)%Q) fresh_chorus.

(** A queue of three items on a fresh engine: a block of the shape of the
    output buffer, [None], and a mono block. *)
Definition mixed_queue : AudioEngine.cb_world Q :=
  AudioEngine.CbWorld
    (engine_with [AudioEngine.Item_block block2; AudioEngine.Item_None;
                  AudioEngine.Item_block mono3])
    stale_buffer [].

(** A device that opens and starts every stream, one whose streams do not
    start, and one that opens none. *)
Definition willing_device : SoundStream.device :=
  SoundStream.Device
    (fun sr ch bs => Ret (SoundStream.Stream sr ch bs false))
    (fun st => Ret (SoundStream.Stream (SoundStream.samplerate st)
                      (SoundStream.stream_channels st) (SoundStream.blocksize st) true)).

Definition stalling_device : SoundStream.device :=
  SoundStream.Device
    (fun sr ch bs => Ret (SoundStream.Stream sr ch bs false))
    (fun st => Raise (OtherException "PortAudioError")).

Definition absent_device : SoundStream.device :=
  SoundStream.Device
    (fun sr ch bs => Raise (OtherException "PortAudioError"))
    (fun st => Raise (OtherException "PortAudioError")).

(** A fresh engine without a stream, and the same engine once its stream
    runs. *)
Definition idle : SoundStream.world Q :=
  SoundStream.World AudioEngine.AudioEngine_init None [] [].

Definition streaming : SoundStream.world Q :=
  SoundStream.World AudioEngine.AudioEngine_init
    (Some (SoundStream.Stream 44100 2 1024 true)) [] [].

(** An engine every operation of which raises [AttributeError] from
    inside, and a player UI that has every method. *)
Definition broken_engine : HostApp.engine_ref :=
  HostApp.EngineRef
    (HostApp.Component (fun _ => true)
                       (fun _ _ _ => Raise (AttributeError "'NoneType' object has no attribute 'stop'")))
    (Some (HostApp.Int_value 44100)) (Some (HostApp.Int_value 2)).

Definition player_ui : HostApp.component :=
  HostApp.Component (fun _ => true) (fun _ _ _ => Ret tt).

(** The host with the broken engine, and the host with the engine of
    [flow_state_main.py] and the full player UI. *)
Definition wired_to_broken : HostApp.world :=
  HostApp.World
    (HostApp.Host (Some broken_engine) (Some HostApp.FlowStateApp_component) (Some "Ready"))
    [] [] [].

Definition wired_with_player : HostApp.world :=
  HostApp.World
    (HostApp.Host (Some HostApp.AudioEngine_ref) (Some player_ui) (Some "Ready"))
    [] [] [].

(** A database that has every method: it answers [False] to
    [add_tracks_to_playlist] and an empty list to everything else. *)
Definition catalogue : HostLibrary.database :=
  HostLibrary.Database
    (fun _ => true)
    (fun method _ _ =>
       if String.eqb method "add_tracks_to_playlist" then Ret (HostApp.OBool false)
       else Ret (HostApp.OList [])).

(** The host with that database registered, and the host without any. *)
Definition with_library : HostLibrary.world :=
  HostLibrary.World (Some catalogue) [] [] [] [].

Definition without_library : HostLibrary.world :=
  HostLibrary.World None [] [] [] [].

(** The settings of the simple filter plugin. *)
Definition filter_settings : gmap string HostApp.pyobj :=
  <["filter_type" := HostApp.OStr "lowpass"]>
    (<["cutoff_hz" := HostApp.OFloat 1000]> {["order" := HostApp.OInt 2]}).

(** The simple filter of the plugin system, which keeps its settings in
    [config], and the one of the effects module, which keeps them in
    [parameters]. *)
Definition filter_from_system : PluginSystem.world :=
  PluginSystem.World
    (PluginSystem.Plugin "Simple Filter (Plugin)" true filter_settings None) [].

Definition filter_effect : PluginSystem.world :=
  PluginSystem.World
    (PluginSystem.Plugin "Simple Filter (Effect)" true ∅ (Some filter_settings)) [].

(** A saved configuration with a new cutoff and a key the filter does not
    know. *)
Definition saved_items : list (string * HostApp.pyobj) :=
  [("cutoff_hz", HostApp.OFloat 250); ("resonance", HostApp.OFloat 2)].

End MoreInputs.
(** * Properties *)

(** ** Rows of a row-major list *)

Lemma chunks_fuel_enough {A} (m : nat) (fuel fuel' : nat) (l : list A) :
  (0 < m)%nat -> (length l <= fuel)%nat -> (length l <= fuel')%nat ->
  chunks_fuel fuel m l = chunks_fuel fuel' m l.
Proof.
  intros Hm. revert fuel' l.
  induction fuel as [|fuel IH]; intros fuel' l Hl Hl'.
  - destruct l; simpl in *; [|lia]. destruct fuel'; reflexivity.
  - destruct l as [|x l]; [destruct fuel'; reflexivity|].
    destruct fuel' as [|fuel']; [simpl in *; lia|].
    simpl. f_equal. apply IH.
    + rewrite length_drop. simpl in *. lia.
    + rewrite length_drop. simpl in *. lia.
Qed.

Lemma chunks_singletons {A} (l : list A) :
  chunks 1 l = map (fun x => [x]) l.
Proof.
  unfold chunks. induction l as [|x l IH]; [reflexivity|].
  simpl. rewrite drop_0. f_equal. exact IH.
Qed.

Lemma chunks_fuel_doubles {A} (l : list A) (fuel : nat) :
  (length l <= fuel)%nat ->
  chunks_fuel fuel 2 (concat (map (fun x => [x; x]) l)) = map (fun x => [x; x]) l.
Proof.
  revert fuel. induction l as [|x l IH]; intros fuel Hl.
  - destruct fuel; reflexivity.
  - destruct fuel as [|fuel]; [simpl in Hl; lia|].
    simpl. f_equal. rewrite drop_0. apply IH. simpl in Hl. lia.
Qed.

Lemma chunks_pairs_of_doubles {A} (l : list A) :
  chunks 2 (concat (map (fun x => [x; x]) l)) = map (fun x => [x; x]) l.
Proof.
  unfold chunks. apply chunks_fuel_doubles.
  induction l as [|x l IH]; simpl; lia.
Qed.

Lemma chunks_fuel_of_even {A} (n : nat) (l : list A) (fuel : nat) :
  length l = (n * 2)%nat -> (length l <= fuel)%nat ->
  Forall (fun row => length row = 2%nat) (chunks_fuel fuel 2 l).
Proof.
  revert l fuel. induction n as [|n IH]; intros l fuel Hl Hfuel.
  - destruct l; [|discriminate]. destruct fuel; constructor.
  - destruct l as [|x [|y l]]; simpl in Hl; try lia.
    destruct fuel as [|fuel]; [simpl in Hfuel; lia|].
    simpl. constructor; [reflexivity|]. rewrite drop_0.
    apply IH; simpl in Hfuel; lia.
Qed.

Lemma chunks_of_even {A} (n : nat) (l : list A) :
  length l = (n * 2)%nat -> Forall (fun row => length row = 2%nat) (chunks 2 l).
Proof.
  intros Hl. unfold chunks. apply (chunks_fuel_of_even n); [exact Hl|lia].
Qed.

(** ** The effect units *)
Module AudioEffectsFacts.
Import AudioEffects.

Section Facts.
Context {F : Type} `{NP : NumPy F}.

Lemma mean_of_pairs (rows : list (list F)) :
  Forall (fun row => length row = 2%nat) rows ->
  map mean_row rows =
  zip_with (fun l r => mean_row [l; r])
           (map (fun row => nth 0 row (flit 0)) rows)
           (map (fun row => nth 1 row (flit 0)) rows).
Proof.
  induction 1 as [|row rows Hrow _ IH]; [reflexivity|].
  destruct row as [|a [|b [|c row]]]; try discriminate.
  simpl. f_equal. exact IH.
Qed.

Lemma upmix_of_tile (n : nat) (mono : ndarray F) :
  shape mono = [n] ->
  upmix_of n mono (tile_last 2 (NDArray [n; 1%nat] (data mono))).
Proof.
  intros Hs. unfold upmix_of, tile_last, channel. simpl.
  rewrite chunks_singletons, map_map. simpl.
  rewrite chunks_pairs_of_doubles, !map_map. simpl.
  rewrite map_id. auto.
Qed.

Lemma downmix_of_mean (n : nat) (stereo : ndarray F) :
  shape stereo = [n; 2%nat] -> well_shaped stereo ->
  downmix_of n stereo (mean_axis1 n 2 stereo).
Proof.
  intros Hs Hw. unfold downmix_of, mean_axis1, channel. simpl.
  split; [reflexivity|]. apply mean_of_pairs, (chunks_of_even n).
  unfold well_shaped in Hw. rewrite Hs in Hw. simpl in Hw. lia.
Qed.

(** C4, as the code has it: with the bypass flag set or the enabled flag
    cleared, [process_block] of every effect class hands back the very block
    it was given and does nothing else; no channel adaptation takes place, so
    the block keeps the channel count it came with. *)
Theorem process_block_bypassed_is_input (w : world F) (audio_block : ndarray F) :
  bypass (self w) = true \/ enabled (self w) = false ->
  process_block audio_block w = (Ret audio_block, w).
Proof.
  intros Hoff.
  assert (Hb : bypass (self w) || negb (enabled (self w)) = true).
  { destruct Hoff as [-> | ->]; [reflexivity|apply orb_true_r]. }
  unfold process_block, GainEffect_process_block, Chorus_process_block,
    AudioEffect_process_block, bind, gets, ret.
  destruct (ext (self w)); simpl; rewrite Hb; simpl; try rewrite Hb; reflexivity.
Qed.

(** C3, as the code has it: for an effect that is enabled and not bypassed
    and a block whose channel count differs from the configured one, the
    channel adaptation every effect inherits ([AudioEffect.process_block])
    leaves the effect untouched and
    - turns a one-axis mono block of [n] frames given to a two-channel effect
      into a block of [n] frames whose two channels are the mono input;
    - turns a stereo block given to a one-channel effect into the frame by
      frame mean of the two channels;
    - returns the block itself, without raising, on every other mismatch. *)
Theorem process_block_channel_adaptation (w : world F) (audio_block : ndarray F) :
  bypass (self w) = false -> enabled (self w) = true ->
  well_shaped audio_block ->
  Z.of_nat (input_block_channels audio_block) <> channels (self w) ->
  self (snd (AudioEffect_process_block audio_block w)) = self w /\
  (forall n, shape audio_block = [n] -> channels (self w) = 2 ->
     exists out, fst (AudioEffect_process_block audio_block w) = Ret out /\
                 upmix_of n audio_block out) /\
  (forall n, shape audio_block = [n; 2%nat] -> channels (self w) = 1 ->
     exists out, fst (AudioEffect_process_block audio_block w) = Ret out /\
                 downmix_of n audio_block out) /\
  (~ (input_block_channels audio_block = 1%nat /\ channels (self w) = 2) ->
   ~ (input_block_channels audio_block = 2%nat /\ channels (self w) = 1) ->
   fst (AudioEffect_process_block audio_block w) = Ret audio_block).
Proof.
  intros Hbyp Hen Hwf Hne.
  unfold AudioEffect_process_block, bind, gets, ret, emit, modify, lift_res.
  simpl. rewrite Hbyp, Hen. simpl.
  destruct (Z.eqb_spec (Z.of_nat (input_block_channels audio_block)) (channels (self w)))
    as [Heq|_]; [contradiction|].
  repeat split.
  - destruct ((input_block_channels audio_block =? 1)%nat && (channels (self w) =? 2));
      [destruct (newaxis1 audio_block); reflexivity|].
    destruct ((input_block_channels audio_block =? 2)%nat && (channels (self w) =? 1));
      reflexivity.
  - intros n Hs Hc. unfold input_block_channels, newaxis1. rewrite Hs, Hc. simpl.
    eexists. split; [reflexivity|]. apply upmix_of_tile, Hs.
  - intros n Hs Hc. unfold input_block_channels. rewrite Hs, Hc. simpl.
    eexists. split; [reflexivity|]. apply downmix_of_mean; assumption.
  - intros H12 H21.
    destruct (Nat.eqb_spec (input_block_channels audio_block) 1) as [E1|N1];
      destruct (Z.eqb_spec (channels (self w)) 2) as [E2|N2]; simpl;
      try (exfalso; apply H12; split; assumption);
      destruct (Nat.eqb_spec (input_block_channels audio_block) 2) as [E3|N3];
      destruct (Z.eqb_spec (channels (self w)) 1) as [E4|N4]; simpl;
      try (exfalso; apply H21; split; assumption); reflexivity.
Qed.

(** What the subclasses add to the adaptation when they are enabled and
    not bypassed: nothing for the classes that override nothing and for the
    chorus, the gain factor for a gain whose factor is not 1.0. *)
Lemma process_block_of_subclasses (w : world F) (audio_block : ndarray F) :
  bypass (self w) = false -> enabled (self w) = true ->
  fst (process_block audio_block w) =
  match ext (self w), fst (AudioEffect_process_block audio_block w) with
  | GainEffect g, Ret out => Ret (if is_one g then out else scale out g)
  | _, r => r
  end.
Proof.
  intros Hbyp Hen.
  assert (Hself : self (snd (AudioEffect_process_block audio_block w)) = self w).
  { unfold AudioEffect_process_block, bind, gets, ret, emit, modify, lift_res.
    simpl. rewrite Hbyp, Hen. simpl.
    repeat match goal with
           | |- context [if ?b then _ else _] => destruct b
           | |- context [match newaxis1 ?a with _ => _ end] => destruct (newaxis1 a)
           end; reflexivity. }
  unfold process_block, GainEffect_process_block, Chorus_process_block, bind, gets.
  simpl. destruct (ext (self w)) as [|g|vs d i] eqn:Hext; [reflexivity| |].
  - destruct (AudioEffect_process_block audio_block w) as [[out|e] w1]; simpl in *;
      [|reflexivity].
    rewrite Hself, Hbyp, Hen. simpl. destruct (is_one g); reflexivity.
  - destruct (AudioEffect_process_block audio_block w) as [[out|e] w1]; simpl in *;
      [|reflexivity].
    rewrite Hself, Hbyp, Hen. simpl. destruct (voices_of (self w)); reflexivity.
Qed.

(** *** What the overridable methods leave in place *)

Lemma continues_refl (w : world F) : continues w w.
Proof. repeat split. exists []. symmetry. apply app_nil_r. Qed.

Lemma continues_trans (w1 w2 w3 : world F) :
  continues w1 w2 -> continues w2 w3 -> continues w1 w3.
Proof.
  intros (Hs & Hc & j & Hj) (Hs' & Hc' & j' & Hj').
  repeat split; [congruence..|].
  exists (j ++ j'). rewrite Hj', Hj. symmetry. apply app_assoc.
Qed.

Lemma steady_ret {A} (a : A) : steady (F:=F) (ret a).
Proof. intros w. apply continues_refl. Qed.

Lemma steady_lift_res {A} (r : res A) : steady (F:=F) (lift_res r).
Proof. intros w. apply continues_refl. Qed.

Lemma steady_gets {A} (f : world F -> A) : steady (gets f).
Proof. intros w. apply continues_refl. Qed.

Lemma steady_bind {A B} (c : M (world F) A) (k : A -> M (world F) B) :
  steady c -> (forall a, steady (k a)) -> steady (bind c k).
Proof.
  intros Hc Hk w. unfold bind. specialize (Hc w).
  destruct (c w) as [[a|e] w1]; simpl in *; [|exact Hc].
  eapply continues_trans; [exact Hc|apply Hk].
Qed.

Lemma steady_emit (ev : event F) : steady (emit ev).
Proof. intros w. repeat split. exists [ev]. reflexivity. Qed.

Lemma steady_rand : steady rand.
Proof. intros w. repeat split. exists []. symmetry. apply app_nil_r. Qed.

Lemma steady_update (f : effect F -> effect F) :
  (forall e, sample_rate (f e) = sample_rate e /\ channels (f e) = channels e) ->
  steady (update f).
Proof.
  intros Hf w. destruct (Hf (self w)) as [Hs Hc].
  repeat split; [exact Hs|exact Hc|]. exists []. symmetry. apply app_nil_r.
Qed.

Lemma steady_for_each {A} (l : list A) (body : A -> M (world F) unit) :
  (forall x, steady (body x)) -> steady (for_each l body).
Proof.
  intros Hbody. induction l as [|x l IH]; simpl.
  - apply steady_ret.
  - apply steady_bind; [apply Hbody|intros _; exact IH].
Qed.

Lemma set_voices_keeps (vs : list (voice F)) (e : effect F) :
  sample_rate (set_voices vs e) = sample_rate e /\
  channels (set_voices vs e) = channels e.
Proof. unfold set_voices. destruct (ext e); split; reflexivity. Qed.

Lemma set_write_idx_keeps (i : Z) (e : effect F) :
  sample_rate (set_write_idx i e) = sample_rate e /\
  channels (set_write_idx i e) = channels e.
Proof. unfold set_write_idx. destruct (ext e); split; reflexivity. Qed.

Ltac steady_step :=
  first
    [ apply steady_ret | apply steady_lift_res | apply steady_gets
    | apply steady_emit | apply steady_rand
    | apply steady_update; intros; first
        [ apply set_voices_keeps | apply set_write_idx_keeps | split; reflexivity ]
    | apply steady_bind; [|intros] ].

Lemma steady_Chorus_append_voice (len : nat) (i : Z) :
  steady (Chorus_append_voice len i).
Proof. unfold Chorus_append_voice, uniform. repeat steady_step. Qed.

Lemma steady_Chorus_reset_tail (e : effect F) : steady
  (if (sample_rate e <=? 0) || (channels e <=? 0) then ret tt
   else
     if ftrunc (fmul (max_delay_of e) (fofZ (sample_rate e))) <=? 0 then ret tt
     else
       let* indices := lift_res (py_range (get_or "num_voices" (PyInt 3) e)) in
       for_each indices
         (Chorus_append_voice
            (Z.to_nat (ftrunc (fmul (max_delay_of e) (fofZ (sample_rate e)))))) >>
       update (set_write_idx 0) >> emit (Logged INFO "Chorus reset")).
Proof.
  destruct (_ || _); [apply steady_ret|].
  destruct (_ <=? 0); [apply steady_ret|].
  apply steady_bind; [apply steady_lift_res|intros indices].
  apply steady_bind; [|intros; repeat steady_step].
  apply steady_for_each. intros x. apply steady_Chorus_append_voice.
Qed.

(** [reset] enters the method, and from there on only continues. *)
Lemma reset_enters (w : world F) :
  continues w (snd (reset w)) /\
  exists j, journal (snd (reset w)) = journal w ++ Call_reset :: j.
Proof.
  assert (Htail : forall w1 : world F,
            journal w1 = journal w ++ [Call_reset] ->
            sample_rate (self w1) = sample_rate (self w) ->
            channels (self w1) = channels (self w) ->
            forall c : M (world F) unit, steady c ->
            continues w (snd (c w1)) /\
            exists j, journal (snd (c w1)) = journal w ++ Call_reset :: j).
  { intros w1 Hj Hs Hc c Hsteady.
    destruct (Hsteady w1) as (Hs' & Hc' & j & Hj').
    split.
    - repeat split; [congruence..|]. exists ([Call_reset] ++ j).
      rewrite Hj', Hj. symmetry. apply app_assoc.
    - exists j. rewrite Hj', Hj, <- app_assoc. reflexivity. }
  unfold reset, bind, gets. simpl.
  destruct (ext (self w)) eqn:Hext.
  - apply (Htail (World (self w) (np_random_pos w) (journal w ++ [Call_reset])) eq_refl eq_refl eq_refl
             AudioEffect_reset).
    unfold AudioEffect_reset. steady_step.
  - apply (Htail (World (self w) (np_random_pos w) (journal w ++ [Call_reset])) eq_refl eq_refl eq_refl
             AudioEffect_reset).
    unfold AudioEffect_reset. steady_step.
  - apply (Htail (World (self w) (np_random_pos w) (journal w ++ [Call_reset])) eq_refl eq_refl eq_refl
             (AudioEffect_reset >>
              let* e := gets self in
              update (set_voices []) >>
              if (sample_rate e <=? 0) || (channels e <=? 0) then ret tt
              else
                if ftrunc (fmul (max_delay_of e) (fofZ (sample_rate e))) <=? 0 then ret tt
                else
                  let* indices := lift_res (py_range (get_or "num_voices" (PyInt 3) e)) in
                  for_each indices
                    (Chorus_append_voice
                       (Z.to_nat (ftrunc (fmul (max_delay_of e) (fofZ (sample_rate e)))))) >>
                  update (set_write_idx 0) >> emit (Logged INFO "Chorus reset"))).
    unfold AudioEffect_reset.
    apply steady_bind; [steady_step|intros _].
    apply steady_bind; [steady_step|intros e].
    apply steady_bind; [steady_step|intros _].
    apply steady_Chorus_reset_tail.
Qed.

Lemma steady_reset : steady reset.
Proof. intros w. apply reset_enters. Qed.

Lemma steady_on_parameter_change (nm : string) (value : pyval F) :
  steady (_on_parameter_change nm value).
Proof.
  unfold _on_parameter_change.
  apply steady_bind; [steady_step|intros _].
  apply steady_bind; [steady_step|intros e].
  destruct (ext e).
  - steady_step.
  - unfold GainEffect_on_parameter_change.
    destruct (String.eqb nm "gain_db"); repeat steady_step.
  - unfold Chorus_on_parameter_change.
    destruct (_ || _); [apply steady_reset|steady_step].
Qed.

(** *** Stream properties *)

Lemma notify_then_reset (w : world F) :
  let r := (_on_parameter_change "_stream_props_changed" PyNone >> reset) w in
  continues w (snd r) /\
  (exists j, journal (snd r) =
             journal w ++ Call_on_parameter_change "_stream_props_changed" PyNone :: j /\
             In Call_reset j) /\
  ((forall vs d i, ext (self w) <> Chorus vs d i) -> fst r = Ret tt).
Proof.
  set (ev := Call_on_parameter_change "_stream_props_changed" (@PyNone F)).
  set (w1 := World (self w) (np_random_pos w) (journal w ++ [ev])).
  assert (Hw1 : continues w w1) by (repeat split; exists [ev]; reflexivity).
  assert (Hfinish : forall w2 : world F,
            continues w1 w2 ->
            (exists j, journal w2 = journal w1 ++ j /\ In Call_reset j) ->
            continues w w2 /\
            exists j, journal w2 = journal w ++ ev :: j /\ In Call_reset j).
  { intros w2 H12 (j & Hj & Hin). split; [eapply continues_trans; eassumption|].
    exists j. split; [|exact Hin]. rewrite Hj. unfold w1. simpl.
    rewrite <- app_assoc. reflexivity. }
  assert (Hreset : forall w2 : world F,
            continues w1 w2 ->
            continues w (snd (reset w2)) /\
            exists j, journal (snd (reset w2)) = journal w ++ ev :: j /\ In Call_reset j).
  { intros w2 H12. destruct (reset_enters w2) as [Hc [j Hj]].
    apply Hfinish; [eapply continues_trans; eassumption|].
    destruct H12 as (_ & _ & j0 & Hj0).
    exists (j0 ++ Call_reset :: j). split.
    - rewrite Hj, Hj0, <- app_assoc. reflexivity.
    - apply in_or_app. right. left. reflexivity. }
  unfold _on_parameter_change, bind, emit, modify, gets. simpl. fold ev. fold w1.
  destruct (ext (self w)) eqn:Hext; simpl.
  - destruct (Hreset w1 (continues_refl w1)) as [Hc Hj].
    unfold reset, bind, gets in *. simpl in *. rewrite Hext in *. simpl in *.
    repeat split; [apply Hc..|exact Hj].
  - destruct (Hreset w1 (continues_refl w1)) as [Hc Hj].
    unfold reset, bind, gets in *. simpl in *. rewrite Hext in *. simpl in *.
    repeat split; [apply Hc..|exact Hj].
  - destruct (reset_enters w1) as [Hc1 [j1 Hj1]].
    unfold Chorus_on_parameter_change. simpl.
    destruct (reset w1) as [[[]|e] w2] eqn:Hr; simpl in *.
    + destruct (Hreset w2 Hc1) as [Hc Hj].
      repeat split; [apply Hc..|exact Hj|].
      intros Hno. exfalso. eapply Hno. reflexivity.
    + destruct (Hfinish w2 Hc1) as [Hc Hj].
      { exists (Call_reset :: j1). split; [exact Hj1|left; reflexivity]. }
      repeat split; [apply Hc..|exact Hj|].
      intros Hno. exfalso. eapply Hno. reflexivity.
Qed.

(** C7: [set_stream_properties(sample_rate, channels)] leaves the two
    arguments stored in the effect, whatever its class.  When either differs
    from what was stored, the effect's reaction to a stream-property change
    ([_on_parameter_change("_stream_props_changed", None)]) is entered and
    then [reset()], both before the call ends; when neither differs, the call
    does nothing at all.  For the classes whose reaction cannot fail (all
    but the chorus) the call returns normally. *)
Theorem set_stream_properties_reconfigures (w : world F) (sr ch : Z) :
  sample_rate (self (snd (set_stream_properties sr ch w))) = sr /\
  channels (self (snd (set_stream_properties sr ch w))) = ch /\
  (sample_rate (self w) <> sr \/ channels (self w) <> ch ->
   exists j,
     journal (snd (set_stream_properties sr ch w)) =
     journal w ++ Call_on_parameter_change "_stream_props_changed" PyNone :: j /\
     In Call_reset j) /\
  (sample_rate (self w) = sr -> channels (self w) = ch ->
   set_stream_properties sr ch w = (Ret tt, w)) /\
  ((forall vs d i, ext (self w) <> Chorus vs d i) ->
   fst (set_stream_properties sr ch w) = Ret tt).
Proof.
  unfold set_stream_properties, bind, gets, update, modify, ret. simpl.
  destruct (Z.eqb_spec (sample_rate (self w)) sr) as [Hs|Hs];
    destruct (Z.eqb_spec (channels (self w)) ch) as [Hc|Hc]; simpl.
  - repeat split; try assumption; tauto.
  - match goal with |- context [_on_parameter_change _ _ ?w1] =>
      pose proof (notify_then_reset w1) as H end.
    unfold bind in H. simpl in H. destruct H as ((Hs1 & Hc1 & _) & Hj & Hret).
    simpl in Hs1, Hc1. repeat split; try congruence; try tauto.
  - match goal with |- context [_on_parameter_change _ _ ?w1] =>
      pose proof (notify_then_reset w1) as H end.
    unfold bind in H. simpl in H. destruct H as ((Hs1 & Hc1 & _) & Hj & Hret).
    simpl in Hs1, Hc1. repeat split; try congruence; try tauto.
  - match goal with |- context [_on_parameter_change _ _ ?w1] =>
      pose proof (notify_then_reset w1) as H end.
    unfold bind in H. simpl in H. destruct H as ((Hs1 & Hc1 & _) & Hj & Hret).
    simpl in Hs1, Hc1. repeat split; try congruence; try tauto.
Qed.

(** *** Parameters *)

Lemma set_parameter_unknown (w : world F) (nm : string) (v : pyval F) :
  parameters (self w) !! nm = None ->
  set_parameter nm v w =
  (Ret tt, World (self w) (np_random_pos w)
                 (journal w ++ [Logged WARNING "Parameter not found"])).
Proof.
  intros Hnm. unfold set_parameter, bind, gets. simpl. rewrite Hnm. reflexivity.
Qed.

Lemma set_parameter_unchanged (w : world F) (nm : string) (v old : pyval F) :
  parameters (self w) !! nm = Some old -> py_eqb old v = true ->
  set_parameter nm v w = (Ret tt, w).
Proof.
  intros Hnm Heq. unfold set_parameter, bind, gets. simpl.
  rewrite Hnm, Heq. reflexivity.
Qed.

Lemma set_parameter_changed (w : world F) (nm : string) (v old : pyval F) :
  parameters (self w) !! nm = Some old -> py_eqb old v = false ->
  set_parameter nm v w =
  _on_parameter_change nm v
    (World (set_parameters (<[nm := v]> (parameters (self w))) (self w))
           (np_random_pos w) (journal w)).
Proof.
  intros Hnm Heq. unfold set_parameter, bind, gets. simpl.
  rewrite Hnm, Heq. reflexivity.
Qed.

Lemma GainEffect_reacts (w : world F) (g g' x : F) :
  ext (self w) = GainEffect g -> db_to_linear x = Ret g' ->
  _on_parameter_change "gain_db" (PyFloat x) w =
  (Ret tt,
   World (set_ext (GainEffect g')
            (set_parameters (<["gain_db" := PyFloat x]> (parameters (self w))) (self w)))
         (np_random_pos w)
         (journal w ++ [Call_on_parameter_change "gain_db" (PyFloat x)])).
Proof.
  intros Hext Hg. unfold db_to_linear in Hg.
  unfold _on_parameter_change, bind, gets, emit, modify. simpl.
  rewrite Hext. unfold GainEffect_on_parameter_change, bind, lift_res, update, modify. simpl.
  rewrite Hg. reflexivity.
Qed.

Lemma Chorus_ignores (w : world F) (nm : string) (v : pyval F) vs d i :
  ext (self w) = Chorus vs d i ->
  nm <> "num_voices" -> nm <> "_stream_props_changed" ->
  _on_parameter_change nm v w =
  (Ret tt, World (self w) (np_random_pos w)
                 (journal w ++ [Call_on_parameter_change nm v])).
Proof.
  intros Hext Hn Hs. unfold _on_parameter_change, bind, gets, emit, modify. simpl.
  rewrite Hext. unfold Chorus_on_parameter_change.
  destruct (String.eqb_spec nm "num_voices") as [|_]; [contradiction|].
  destruct (String.eqb_spec nm "_stream_props_changed") as [|_]; [contradiction|].
  reflexivity.
Qed.

Lemma Chorus_append_voice_spec (w : world F) vs d i x (len : nat) (k : Z) :
  ext (self w) = Chorus vs d i ->
  parameters (self w) !! "rate_hz" = Some (PyFloat x) ->
  exists v,
    buffer v = np_zeros [len; Z.to_nat (channels (self w))] /\
    Chorus_append_voice len k w =
    (Ret tt, World (set_ext (Chorus (vs ++ [v]) d i) (self w))
                   (3 + np_random_pos w) (journal w)).
Proof.
  intros Hext Hrate.
  unfold Chorus_append_voice, uniform, bind, gets, rand, ret, lift_res, update, modify.
  simpl. unfold get_or. rewrite Hrate. simpl.
  unfold set_voices, voices_of. rewrite Hext. simpl.
  eexists. split; [|reflexivity]. reflexivity.
Qed.

Lemma Chorus_voices_loop (l : list Z) :
  forall (w : world F) vs d i x (len : nat),
    ext (self w) = Chorus vs d i ->
    parameters (self w) !! "rate_hz" = Some (PyFloat x) ->
    exists new,
      map buffer new = repeat (np_zeros [len; Z.to_nat (channels (self w))]) (length l) /\
      for_each l (Chorus_append_voice len) w =
      (Ret tt, World (set_ext (Chorus (vs ++ new) d i) (self w))
                     (3 * length l + np_random_pos w) (journal w)).
Proof.
  induction l as [|k l IH]; intros w vs d i x len Hext Hrate.
  - exists []. split; [reflexivity|]. simpl. rewrite app_nil_r.
    unfold ret. destruct w as [e pos j]. simpl in *. destruct e. simpl in *.
    rewrite Hext. reflexivity.
  - destruct (Chorus_append_voice_spec w vs d i x len k Hext Hrate) as (v & Hv & Hstep).
    destruct (IH (World (set_ext (Chorus (vs ++ [v]) d i) (self w))
                        (3 + np_random_pos w) (journal w))
                 (vs ++ [v]) d i x len eq_refl Hrate) as (new & Hnew & Hloop).
    exists (v :: new). split.
    + simpl. f_equal; [exact Hv|exact Hnew].
    + simpl for_each. unfold bind. rewrite Hstep, Hloop. simpl.
      rewrite <- app_assoc. simpl. f_equal. f_equal. lia.
Qed.

Lemma Chorus_reset_spec (w : world F) vs d i (n : Z) (x : F) :
  ext (self w) = Chorus vs d i ->
  parameters (self w) !! "num_voices" = Some (PyInt n) ->
  parameters (self w) !! "rate_hz" = Some (PyFloat x) ->
  exists vs' i' pos' j',
    reset w = (Ret tt, World (set_ext (Chorus vs' d i') (self w)) pos' j') /\
    map buffer vs' = buffers_for (sample_rate (self w)) (channels (self w)) d n /\
    (i' = i \/ i' = 0).
Proof.
  intros Hext Hnum Hrate.
  unfold reset, Chorus_reset, AudioEffect_reset, bind, gets, emit, update, modify, ret, lift_res.
  simpl. rewrite Hext. simpl. unfold get_or, buffers_for, max_delay_of.
  rewrite Hnum, Hext. simpl.
  destruct ((sample_rate (self w) <=? 0) || (channels (self w) <=? 0)).
  { exists [], i. do 2 eexists. unfold set_voices. rewrite Hext. simpl. auto. }
  destruct (ftrunc (fmul d (fofZ (sample_rate (self w)))) <=? 0).
  { exists [], i. do 2 eexists. unfold set_voices. rewrite Hext. simpl. auto. }
  match goal with |- context [for_each ?l ?body ?w1] =>
    destruct (Chorus_voices_loop l w1 [] d i x
                (Z.to_nat (ftrunc (fmul d (fofZ (sample_rate (self w))))))) as (new & Hnew & Hloop)
  end.
  { unfold set_voices. simpl. rewrite Hext. reflexivity. }
  { unfold set_voices. simpl. rewrite Hext. exact Hrate. }
  rewrite Hloop. simpl.
  exists new, 0. do 2 eexists. split; [|split; [|right; reflexivity]].
  - unfold set_write_idx, set_voices. simpl. rewrite Hext. simpl. reflexivity.
  - rewrite Hnew. unfold set_voices. simpl. rewrite Hext. simpl.
    rewrite length_map, length_seq. reflexivity.
Qed.

Lemma Chorus_reacts_num_voices (w : world F) (v : pyval F) vs d i :
  ext (self w) = Chorus vs d i ->
  _on_parameter_change "num_voices" v w =
  reset (World (self w) (np_random_pos w)
               (journal w ++ [Call_on_parameter_change "num_voices" v])).
Proof.
  intros Hext. unfold _on_parameter_change, bind, gets, emit, modify. simpl.
  rewrite Hext. reflexivity.
Qed.

Lemma typed_like_insert (p0 p : gmap string (pyval F)) (nm : string) (d v : pyval F) :
  typed_like p0 p -> p0 !! nm = Some d -> same_type d v = true ->
  typed_like p0 (<[nm := v]> p).
Proof.
  intros Hp Hd Hv key. destruct (decide (nm = key)) as [<-|Hne].
  - rewrite Hd, lookup_insert_eq. exact Hv.
  - rewrite lookup_insert_ne by exact Hne. apply Hp.
Qed.

Lemma settled_logged (c : effect_class) (w : world F) (j : list (event F)) :
  settled c w -> settled c (World (self w) (np_random_pos w) j).
Proof. intros H. exact H. Qed.

(** One call of [set_parameter] on a settled effect, with a value of the
    parameter's type: it returns, the effect is settled again, the other
    parameters are untouched, and the named one, if there is one, now
    holds the value or a value equal to it. *)
Lemma settled_step (c : effect_class) (w : world F) (nm : string) (v : pyval F) :
  settled c w ->
  (forall d, default_parameters c !! nm = Some d -> same_type d v = true) ->
  (c = Gain_class -> forall x, v = PyFloat x -> in_range x) ->
  exists w',
    set_parameter nm v w = (Ret tt, w') /\ settled c w' /\
    (forall key, key <> nm -> parameters (self w') !! key = parameters (self w) !! key) /\
    match parameters (self w) !! nm with
    | None => parameters (self w') !! nm = None
    | Some _ => exists v', parameters (self w') !! nm = Some v' /\
                           (v' = v \/ py_eqb v' v = true)
    end.
Proof.
  intros Hsettled Hv Hrange. pose proof Hsettled as (Htyped & Hsr & Hch & Hcoef).
  destruct (parameters (self w) !! nm) as [old|] eqn:Hold.
  2:{ eexists. split; [apply set_parameter_unknown, Hold|].
      split; [apply settled_logged, Hsettled|]. split; [reflexivity|exact Hold]. }
  destruct (py_eqb old v) eqn:Heq.
  { exists w. split; [eapply set_parameter_unchanged; eassumption|].
    split; [exact Hsettled|]. split; [reflexivity|]. rewrite Hold. eauto. }
  rewrite (set_parameter_changed w nm v old Hold Heq).
  pose proof (Htyped nm) as Hnm. rewrite Hold in Hnm.
  destruct (default_parameters c !! nm) as [d|] eqn:Hd; [|contradiction].
  specialize (Hv d eq_refl).
  destruct c as [cname| |]; simpl in Hd.
  - rewrite lookup_empty in Hd. discriminate.
  - apply lookup_singleton_Some in Hd as [<- <-].
    destruct v as [| |x]; try discriminate.
    destruct old as [| |a]; try discriminate.
    simpl in Hcoef. rewrite Hold in Hcoef.
    destruct (db_to_linear a) as [ga|] eqn:Hga; try discriminate.
    unfold coefficients_of in Hcoef.
    destruct (ext (self w)) as [|g|] eqn:Hext; try discriminate.
    destruct (Hrange eq_refl x eq_refl) as [g' Hg'].
    erewrite (GainEffect_reacts _ g g' x) by (try exact Hg'; simpl; exact Hext).
    eexists. split; [reflexivity|]. simpl. split; [|split].
    + split; [|split; [exact Hsr|split; [exact Hch|]]]; simpl.
      * apply typed_like_insert with (d := PyFloat (flit 0)); [|reflexivity..].
        apply typed_like_insert with (d := PyFloat (flit 0)); [|reflexivity..].
        exact Htyped.
      * rewrite lookup_insert_eq, Hg'. reflexivity.
    + intros key Hkey. rewrite !lookup_insert_ne by congruence. reflexivity.
    + rewrite lookup_insert_eq. eauto.
  - pose proof (Htyped "num_voices") as Hnum. simpl in Hnum.
    change (Chorus_parameters !! "num_voices") with (Some (@PyInt F 3)) in Hnum.
    destruct (parameters (self w) !! "num_voices") as [[|n0|]|] eqn:Hn0; try easy.
    pose proof (Htyped "rate_hz") as Hrate. simpl in Hrate.
    change (Chorus_parameters !! "rate_hz") with (Some (@PyFloat F (flit 0.2))) in Hrate.
    destruct (parameters (self w) !! "rate_hz") as [[| |x0]|] eqn:Hx0; try easy.
    simpl in Hcoef. rewrite Hn0 in Hcoef. unfold coefficients_of in Hcoef.
    destruct (ext (self w)) as [| |vs dd i] eqn:Hext; try discriminate.
    injection Hcoef as Hvs Hdd Hi0. symmetry in Hvs. subst dd i.
    destruct (String.eqb_spec nm "num_voices") as [->|Hnv].
    + change (Chorus_parameters !! "num_voices") with (Some (@PyInt F 3)) in Hd.
      injection Hd as <-.
      destruct v as [|n'|]; try discriminate.
      erewrite Chorus_reacts_num_voices by (simpl; exact Hext).
      match goal with |- context [reset ?w1] =>
        destruct (Chorus_reset_spec w1 vs (flit 0.025) 0 n' x0) as (vs' & i' & pos' & j' & Hr & Hbuf & Hi)
      end.
      { exact Hext. }
      { simpl. apply lookup_insert_eq. }
      { simpl. rewrite lookup_insert_ne by discriminate. exact Hx0. }
      rewrite Hr. eexists. split; [reflexivity|]. simpl in *. split; [|split].
      * split; [|split; [exact Hsr|split; [exact Hch|]]]; simpl.
        -- apply typed_like_insert with (d := PyInt 3); [exact Htyped|reflexivity..].
        -- rewrite lookup_insert_eq. unfold coefficients_of. simpl.
           rewrite Hbuf, Hsr, Hch. destruct Hi as [->| ->]; reflexivity.
      * intros key Hkey. rewrite lookup_insert_ne by congruence. reflexivity.
      * rewrite lookup_insert_eq. eauto.
    + assert (Hsp : nm <> "_stream_props_changed").
      { intros ->. discriminate Hd. }
      erewrite Chorus_ignores by (try exact Hnv; try exact Hsp; simpl; exact Hext).
      eexists. split; [reflexivity|]. simpl. split; [|split].
      * split; [|split; [exact Hsr|split; [exact Hch|]]]; simpl.
        -- apply typed_like_insert with (d := d); assumption.
        -- rewrite lookup_insert_ne by exact Hnv. rewrite Hn0.
           unfold coefficients_of. simpl. rewrite Hext, Hvs. reflexivity.
      * intros key Hkey. rewrite lookup_insert_ne by congruence. reflexivity.
      * rewrite lookup_insert_eq. eauto.
Qed.

Lemma typed_like_refl (p : gmap string (pyval F)) : typed_like p p.
Proof. intros key. destruct (p !! key) as [[]|]; reflexivity. Qed.

Lemma construct_settled (c : effect_class) (w0 : world F) :
  (c = Gain_class -> in_range (flit 0)) ->
  fst (construct true c w0) = Ret tt /\ settled c (snd (construct true c w0)).
Proof.
  intros Hzero. destruct c as [nm| |]; simpl.
  - split; [reflexivity|]. split; [apply typed_like_refl|]. repeat split.
  - destruct (Hzero eq_refl) as [g Hg].
    unfold GainEffect_init, bind, update, modify. simpl.
    rewrite (GainEffect_reacts _ (flit 1) g (flit 0)) by (try exact Hg; reflexivity).
    simpl. split; [reflexivity|]. split; [|split; [reflexivity|split; [reflexivity|]]].
    + simpl. apply typed_like_insert with (d := PyFloat (flit 0)); [|reflexivity..].
      apply typed_like_refl.
    + simpl. rewrite lookup_insert_eq, Hg. reflexivity.
  - unfold Chorus_init, bind, update, modify. simpl.
    match goal with |- context [reset ?w1] =>
      destruct (Chorus_reset_spec w1 [] (flit 0.025) 0 3 (flit 0.2) eq_refl eq_refl eq_refl)
        as (vs' & i' & pos' & j' & Hr & Hbuf & Hi)
    end.
    rewrite Hr. simpl in *. split; [reflexivity|].
    split; [apply typed_like_refl|]. split; [reflexivity|]. split; [reflexivity|].
    unfold coefficients_of. simpl.
    change (Chorus_parameters !! "num_voices") with (Some (@PyInt F 3)).
    rewrite Hbuf. destruct Hi as [->| ->]; reflexivity.
Qed.

Lemma for_each_app {W A} (l1 l2 : list A) (body : A -> M W unit) (w : W) :
  for_each (l1 ++ l2) body w = (for_each l1 body >> for_each l2 body) w.
Proof.
  revert w. induction l1 as [|x l1 IH]; intros w; [reflexivity|].
  simpl. unfold bind. destruct (body x w) as [[[]|e] w1]; [|reflexivity].
  rewrite IH. reflexivity.
Qed.

(** Any number of calls on a settled effect, with values of the
    parameter's type. *)
Lemma settled_run (c : effect_class) (nm : string) (l : list (pyval F)) :
  forall w : world F,
    settled c w ->
    (forall d v, default_parameters c !! nm = Some d -> In v l -> same_type d v = true) ->
    (c = Gain_class -> forall x, In (PyFloat x) l -> in_range x) ->
    exists w',
      for_each l (set_parameter nm) w = (Ret tt, w') /\ settled c w' /\
      (forall key, key <> nm -> parameters (self w') !! key = parameters (self w) !! key).
Proof.
  induction l as [|v l IH]; intros w Hw Hl Hrange.
  - exists w. split; [reflexivity|]. split; [exact Hw|reflexivity].
  - destruct (settled_step c w nm v Hw) as (w1 & Hstep & Hw1 & Hkeys & _).
    { intros d Hd. apply (Hl d v Hd). left. reflexivity. }
    { intros Hc x ->. apply (Hrange Hc). left. reflexivity. }
    destruct (IH w1 Hw1) as (w2 & Hrun & Hw2 & Hkeys2).
    { intros d v' Hd Hin. apply (Hl d v' Hd). right. exact Hin. }
    { intros Hc x Hin. apply (Hrange Hc). right. exact Hin. }
    exists w2. split; [|split; [exact Hw2|]].
    + simpl. unfold bind. rewrite Hstep. exact Hrun.
    + intros key Hkey. rewrite Hkeys2, Hkeys by exact Hkey. reflexivity.
Qed.

Lemma settled_step_holds (c : effect_class) (w : world F) (nm : string) (X : pyval F) :
  settled c w ->
  (forall d, default_parameters c !! nm = Some d -> same_type d X = true) ->
  (c = Gain_class -> forall x, X = PyFloat x -> in_range x) ->
  exists w',
    set_parameter nm X w = (Ret tt, w') /\ settled c w' /\
    (forall key, key <> nm -> parameters (self w') !! key = parameters (self w) !! key) /\
    holds_value (parameters (self w')) nm X.
Proof.
  intros Hw HX Hrange.
  destruct (settled_step c w nm X Hw HX Hrange) as (w' & Hstep & Hw' & Hkeys & Hnm).
  exists w'. split; [exact Hstep|]. split; [exact Hw'|]. split; [exact Hkeys|].
  unfold holds_value.
  destruct (parameters (self w) !! nm).
  - destruct Hnm as (v' & -> & Hv'). exact Hv'.
  - rewrite Hnm. exact I.
Qed.

(** The coefficients two mappings give are the same when the mappings
    differ at one parameter only and hold equal values there. *)
Lemma derived_from_agree (c : effect_class) (p2 p3 : gmap string (pyval F))
    (nm : string) (X : pyval F) :
  (forall a b : F, feqb a b = true -> db_to_linear a = db_to_linear b) ->
  typed_like (default_parameters c) p2 -> typed_like (default_parameters c) p3 ->
  (forall key, key <> nm -> p2 !! key = p3 !! key) ->
  (forall d, default_parameters c !! nm = Some d -> same_type d X = true) ->
  holds_value p2 nm X -> holds_value p3 nm X ->
  derived_from c p2 = derived_from c p3.
Proof.
  intros Hlaw Ht2 Ht3 Hkeys HX H2 H3.
  destruct c as [cname| |]; simpl in *; [reflexivity| |].
  - destruct (decide ("gain_db" = nm)) as [<-|Hne]; [|rewrite (Hkeys "gain_db" Hne); reflexivity].
    specialize (Ht2 "gain_db"). specialize (Ht3 "gain_db").
    specialize (HX (PyFloat (flit 0)) eq_refl).
    unfold holds_value in *.
    change (({["gain_db" := PyFloat (flit 0)]} : gmap string (pyval F)) !! "gain_db")
      with (Some (@PyFloat F (flit 0))) in *.
    destruct X as [| |x]; try discriminate.
    destruct (p2 !! "gain_db") as [[| |a]|]; try easy.
    destruct (p3 !! "gain_db") as [[| |b]|]; try easy.
    assert (Ha : db_to_linear a = db_to_linear x).
    { destruct H2 as [H2|H2]; [injection H2 as ->; reflexivity|apply Hlaw, H2]. }
    assert (Hb : db_to_linear b = db_to_linear x).
    { destruct H3 as [H3|H3]; [injection H3 as ->; reflexivity|apply Hlaw, H3]. }
    rewrite Ha, Hb. reflexivity.
  - destruct (decide ("num_voices" = nm)) as [<-|Hne]; [|rewrite (Hkeys "num_voices" Hne); reflexivity].
    specialize (Ht2 "num_voices"). specialize (Ht3 "num_voices").
    specialize (HX (PyInt 3) eq_refl).
    unfold holds_value in *.
    change (Chorus_parameters !! "num_voices") with (Some (@PyInt F 3)) in *.
    destruct X as [|x|]; try discriminate.
    destruct (p2 !! "num_voices") as [[|a|]|]; try easy.
    destruct (p3 !! "num_voices") as [[|b|]|]; try easy.
    assert (a = x) as ->.
    { destruct H2 as [H2|H2]; [injection H2 as ->; reflexivity|apply Z.eqb_eq, H2]. }
    assert (b = x) as ->.
    { destruct H3 as [H3|H3]; [injection H3 as ->; reflexivity|apply Z.eqb_eq, H3]. }
    reflexivity.
Qed.


(** With a name the chorus knows other than the number of voices, and a
    new value, [set_parameter] of a chorus writes the value and returns:
    the voices are left as they were, and [reset] is not entered. *)
Lemma Chorus_set_parameter_leaves_voices (w : world F) (nm : string)
    (v old : pyval F) vs d i :
  ext (self w) = Chorus vs d i ->
  parameters (self w) !! nm = Some old -> py_eqb old v = false ->
  nm <> "num_voices" -> nm <> "_stream_props_changed" ->
  set_parameter nm v w =
  (Ret tt,
   World (set_parameters (<[nm := v]> (parameters (self w))) (self w))
         (np_random_pos w)
         (journal w ++ [Call_on_parameter_change nm v])).
Proof.
  intros Hext Hold Hneq Hnv Hsp.
  rewrite (set_parameter_changed w nm v old Hold Hneq).
  erewrite Chorus_ignores by (try exact Hnv; try exact Hsp; simpl; exact Hext).
  reflexivity.
Qed.

End Facts.

Import Inputs.

(** A bypassed two-channel gain given a mono block. *)
Lemma process_block_bypassed_is_input_witness :
  process_block mono3 bypassed_gain = (Ret mono3, bypassed_gain).
Proof.
  apply process_block_bypassed_is_input. left. reflexivity.
Defined.

(** C4 as stated fails: the bypassed two-channel gain returns the mono
    block it was given, whose channel count is one, not two. *)
Lemma bypassed_block_keeps_its_channels :
  bypass (self bypassed_gain) = true /\
  ~ exists out, fst (process_block mono3 bypassed_gain) = Ret out /\
                Z.of_nat (input_block_channels out) = channels (self bypassed_gain).
Proof.
  split; [reflexivity|]. intros [out [Hout Hch]].
  vm_compute in Hout. injection Hout as <-. vm_compute in Hch. discriminate.
Qed.

(** A mono block into the two-channel effect, a stereo block into the
    one-channel effect, six channels into the two-channel effect. *)
Lemma process_block_channel_adaptation_witness :
  (exists out, fst (AudioEffect_process_block mono3 (world_of stereo_effect)) = Ret out /\
               upmix_of 3 mono3 out) /\
  (exists out, fst (AudioEffect_process_block stereo3 (world_of mono_effect)) = Ret out /\
               downmix_of 3 stereo3 out) /\
  fst (AudioEffect_process_block surround3 (world_of stereo_effect)) = Ret surround3.
Proof.
  split; [|split].
  - apply (process_block_channel_adaptation (world_of stereo_effect) mono3);
      try reflexivity; vm_compute; discriminate.
  - apply (process_block_channel_adaptation (world_of mono_effect) stereo3);
      try reflexivity; vm_compute; discriminate.
  - apply (process_block_channel_adaptation (world_of stereo_effect) surround3);
      try reflexivity; vm_compute; intuition discriminate.
Defined.

(** The mono block given as three rows of one column comes out of the
    two-channel effect with three axes, not as a block of three frames and
    two channels. *)
Example mono_column_gets_a_third_axis :
  fst (AudioEffect_process_block mono3_column (world_of stereo_effect)) =
  Ret (NDArray [3%nat; 1%nat; 2%nat] [1; 1; 2; 2; 3; 3]%Q).
Proof. reflexivity. Qed.

(** C3 as stated fails: a bypassed two-channel effect given a mono block
    returns the mono block, not a block of two channels. *)
Lemma bypassed_mono_is_not_duplicated :
  Z.of_nat (input_block_channels mono3) <> channels (self bypassed_gain) /\
  ~ exists out, fst (AudioEffect_process_block mono3 bypassed_gain) = Ret out /\
                upmix_of 3 mono3 out.
Proof.
  split; [vm_compute; discriminate|]. intros [out [Hout [Hshape _]]].
  vm_compute in Hout. injection Hout as <-. discriminate.
Qed.

(** Equal rationals have the same linear gain. *)
Lemma Q_db_to_linear_proper (a b : Q) :
  feqb a b = true -> db_to_linear a = db_to_linear b.
Proof.
  intros Hab. apply Qeq_bool_eq in Hab.
  unfold db_to_linear. f_equal. unfold fdiv, Q_NumPy.
  apply Qred_complete. rewrite Hab. reflexivity.
Qed.



(** The fresh gain moved to 48 kHz mono, and moved to where it is. *)
Lemma set_stream_properties_reconfigures_witness :
  (exists j,
     journal (snd (set_stream_properties 48000 1 fresh_gain)) =
     journal fresh_gain ++ Call_on_parameter_change "_stream_props_changed" PyNone :: j /\
     In Call_reset j) /\
  set_stream_properties 44100 2 fresh_gain = (Ret tt, fresh_gain) /\
  fst (set_stream_properties 48000 1 fresh_gain) = Ret tt.
Proof.
  split; [|split].
  - apply (set_stream_properties_reconfigures fresh_gain 48000 1).
    left. vm_compute. discriminate.
  - apply (set_stream_properties_reconfigures fresh_gain 44100 2); reflexivity.
  - apply (set_stream_properties_reconfigures fresh_gain 48000 1).
    intros vs d i. vm_compute. discriminate.
Defined.

(** C5, where the code departs from it: on a fresh chorus,
    [set_parameter("rate_hz", 5.0)] returns with the mapping holding 5.0 and
    without entering [reset]; the rate of every voice, which [reset] derives
    from [rate_hz], is still the one derived from the default 0.2, while a
    [reset] at that point derives 5.0. *)
Lemma chorus_rate_hz_leaves_voice_rates_stale :
  fst (set_parameter "rate_hz" (PyFloat 5%Q) fresh_chorus) = Ret tt /\
  parameters (self (snd (set_parameter "rate_hz" (PyFloat 5%Q) fresh_chorus))) !! "rate_hz"
    = Some (PyFloat 5%Q) /\
  journal (snd (set_parameter "rate_hz" (PyFloat 5%Q) fresh_chorus)) =
    journal fresh_chorus ++ [Call_on_parameter_change "rate_hz" (PyFloat 5%Q)] /\
  map lfo_rate_hz (voices_of (self (snd (set_parameter "rate_hz" (PyFloat 5%Q) fresh_chorus))))
    = [(1 # 5)%Q; (1 # 5)%Q; (1 # 5)%Q] /\
  map lfo_rate_hz
      (voices_of (self (snd (reset (snd (set_parameter "rate_hz" (PyFloat 5%Q) fresh_chorus))))))
    = [5%Q; 5%Q; 5%Q].
Proof. vm_compute. repeat split. Qed.

End AudioEffectsFacts.

(** ** The realtime output callback *)
Module AudioEngineFacts.
Import AudioEngine.

Section Facts.
Context {F : Type} `{NP : NumPy F}.

Lemma strip_leading_ones_pair (a b : nat) : strip_leading_ones [a; b] = [a; b].
Proof. destruct a as [|[|a]]; reflexivity. Qed.

Lemma broadcast_to_same_shape (r c : nat) (value : ndarray F) :
  shape value = [r; c] -> broadcast_to r c value = Some (data value).
Proof.
  intros Hs. unfold broadcast_to. rewrite Hs, strip_leading_ones_pair.
  rewrite !Nat.eqb_refl. reflexivity.
Qed.

(** C1: the callback never lets an exception out, and keeps the shape of
    the output buffer.  When the pop times out on an empty queue, when the
    popped item has not the frame count asked for or not the channel count
    of the output buffer, and when anything raises inside the callback, the
    whole output buffer is written with zeroes. *)
Theorem callback_falls_silent (w : cb_world F) (frames : nat) (status : callback_flags) :
  fst (_sounddevice_callback frames status w) = Ret tt /\
  out_frames (outdata (snd (_sounddevice_callback frames status w))) = out_frames (outdata w) /\
  out_channels (outdata (snd (_sounddevice_callback frames status w))) = out_channels (outdata w) /\
  (fst (pop w) = Raise QueueEmpty ->
   samples (outdata (snd (_sounddevice_callback frames status w))) = silence (outdata w)) /\
  (forall item,
     fst (pop w) = Ret item ->
     shape_at item 0 <> Ret frames \/ shape_at item 1 <> Ret (out_channels (outdata w)) ->
     samples (outdata (snd (_sounddevice_callback frames status w))) = silence (outdata w)) /\
  (forall e,
     fst (callback_try frames w) = Raise e ->
     samples (outdata (snd (_sounddevice_callback frames status w))) = silence (outdata w)).
Proof.
  destruct w as [t o l]. destruct t as [pl pa vol mu pv sr ch bs q]. destruct o as [r c old].
  unfold _sounddevice_callback, try_except, callback_try, callback_except, pop,
    pop_timeout, queue_get, fill_silence, assign_outdata, log, silence,
    effective_volume, set_queue, bind, gets, modify, ret, throw, lift_res.
  destruct status; simpl;
    (destruct (sr =? 0); simpl;
     [repeat split; intros; try discriminate; reflexivity|]);
    (destruct q as [|[|block] q]; simpl;
     [repeat split; intros; try discriminate; reflexivity
     |repeat split; intros; try discriminate; reflexivity|]);
    (destruct (shape block) as [|n0 [|n1 rest]] eqn:Hshape; simpl;
     [repeat split; intros; try discriminate; reflexivity
     |destruct (n0 =? frames)%nat; simpl;
      repeat split; intros; try discriminate; reflexivity|]);
    (destruct (Nat.eqb_spec n0 frames) as [Hn0|Hn0]; simpl;
     [|repeat split; intros; try discriminate; reflexivity]);
    (destruct (Nat.eqb_spec n1 c) as [Hn1|Hn1]; simpl;
     [|repeat split; intros; try discriminate; reflexivity]);
    (destruct (broadcast_to _ _ _); simpl;
     repeat split; intros; try discriminate; try reflexivity);
    match goal with
    | H : Ret (Item_block _) = Ret ?item |- _ => injection H as <-
    end;
    match goal with
    | H : _ \/ _ |- _ =>
        simpl in H; rewrite Hshape in H; simpl in H; subst;
        destruct H as [H|H]; exfalso; apply H; reflexivity
    end.
Qed.

(** C2: when the pop returns a block of the shape of the output buffer,
    which is also the frame count the callback is asked for, the callback
    returns, takes the block off the queue and writes into the output buffer
    each sample of the block times the effective volume: the volume of the
    engine when it is not muted, zero when it is. *)
Theorem callback_writes_scaled_block (w : cb_world F) (frames : nat)
    (status : callback_flags) (block : ndarray F) :
  fst (pop w) = Ret (Item_block block) ->
  shape block = [out_frames (outdata w); out_channels (outdata w)] ->
  frames = out_frames (outdata w) ->
  fst (_sounddevice_callback frames status w) = Ret tt /\
  samples (outdata (snd (_sounddevice_callback frames status w))) =
    map (fun s => fmul s (if is_muted (this w) then flit 0 else volume (this w)))
        (data block) /\
  out_frames (outdata (snd (_sounddevice_callback frames status w))) = out_frames (outdata w) /\
  out_channels (outdata (snd (_sounddevice_callback frames status w))) = out_channels (outdata w) /\
  stream_output_queue (this (snd (_sounddevice_callback frames status w))) =
    tl (stream_output_queue (this w)).
Proof.
  destruct w as [t o l]. destruct t as [pl pa vol mu pv sr ch bs q]. destruct o as [r c old].
  unfold _sounddevice_callback, try_except, callback_try, callback_except, pop,
    pop_timeout, queue_get, fill_silence, assign_outdata, log, effective_volume,
    bind, gets, modify, ret, throw, lift_res.
  simpl. intros Hpop Hshape ->.
  pose proof (broadcast_to_same_shape r c (scale block (if mu then flit 0 else vol)) Hshape)
    as Hb.
  destruct status; simpl;
    (destruct (sr =? 0); simpl in Hpop |- *; [discriminate|]);
    (destruct q as [|item q]; simpl in Hpop |- *; [discriminate|]);
    injection Hpop as ->;
    simpl; rewrite Hshape; simpl; rewrite !Nat.eqb_refl; simpl;
    rewrite Hb; simpl; repeat split.
Qed.

(** The three calls [set_volume(v)], [toggle_mute()], [toggle_mute()]
    leave the engine as it was, whatever [v]: the bodies are empty. *)
Lemma volume_and_mute_calls_do_nothing (v : F) (e : engine F) :
  (set_volume v >> toggle_mute >> toggle_mute) e = (Ret tt, e).
Proof. reflexivity. Qed.

End Facts.

Import Inputs.

(** An empty queue, a block of another shape, and [None] on the queue. *)
Lemma callback_falls_silent_witness :
  samples (outdata (snd (_sounddevice_callback 2 No_flags starved))) = [0; 0; 0; 0]%Q /\
  samples (outdata (snd (_sounddevice_callback 2 No_flags misfed))) = [0; 0; 0; 0]%Q /\
  samples (outdata (snd (_sounddevice_callback 2 No_flags poisoned))) = [0; 0; 0; 0]%Q.
Proof.
  split; [|split].
  - destruct (callback_falls_silent starved 2 No_flags) as (_ & _ & _ & Hempty & _).
    apply Hempty. reflexivity.
  - destruct (callback_falls_silent misfed 2 No_flags) as (_ & _ & _ & _ & Hshape & _).
    apply (Hshape (Item_block mono3)); [reflexivity|].
    left. vm_compute. discriminate.
  - destruct (callback_falls_silent poisoned 2 No_flags) as (_ & _ & _ & _ & _ & Hraise).
    apply (Hraise (AttributeError "shape")). reflexivity.
Defined.

(** A stereo block of two frames at the volume 0.7 of a fresh engine. *)
Lemma callback_writes_scaled_block_witness :
  samples (outdata (snd (_sounddevice_callback 2 No_flags playing))) =
  [(7 # 10); (7 # 5); (21 # 10); (14 # 5)]%Q.
Proof.
  exact (proj1 (proj2 (callback_writes_scaled_block playing 2 No_flags block2
                         eq_refl eq_refl eq_refl))).
Defined.

(** C9, where the code departs from it: after [set_volume(0.0)],
    [toggle_mute()], [toggle_mute()] on a fresh engine the effective volume
    is the 0.7 the engine was built with, not 0.0, and a block popped by the
    callback goes out at 0.7. *)
Lemma volume_zero_then_two_mutes_keeps_volume :
  effective_volume (snd ((set_volume 0%Q >> toggle_mute >> toggle_mute) (this playing)))
    = (7 # 10)%Q /\
  effective_volume (snd ((set_volume 0%Q >> toggle_mute >> toggle_mute) (this playing)))
    <> 0%Q /\
  samples (outdata (snd (_sounddevice_callback 2 No_flags
            (CbWorld (snd ((set_volume 0%Q >> toggle_mute >> toggle_mute) (this playing)))
                     (outdata playing) [])))) =
  [(7 # 10); (7 # 5); (21 # 10); (14 # 5)]%Q.
Proof. vm_compute. repeat split. discriminate. Qed.

End AudioEngineFacts.

(** ** The host facade *)
Module HostAppFacts.
Import HostApp.

(** C10, as the code has it.  [get_audio_properties] leaves the host as
    it is.  With no engine registered, or an engine lacking [sample_rate] or
    [channels], it returns (44100, 2).  With an engine that has both it
    applies [int()] to each, [sample_rate] first: it returns the pair of ints
    when both conversions return (an int as it is, a float truncated toward
    zero), and otherwise raises what the first failing conversion raises,
    which is [TypeError] when the attribute holds [None]. *)
Theorem get_audio_properties_outcome (w : world) :
  this (snd (get_audio_properties w)) = this w /\
  (audio_engine_ref (this w) = None \/
   (exists e, audio_engine_ref (this w) = Some e /\
              (sample_rate_attr e = None \/ channels_attr e = None)) ->
   fst (get_audio_properties w) = Ret (44100, 2)) /\
  (forall e a b,
     audio_engine_ref (this w) = Some e ->
     sample_rate_attr e = Some a -> channels_attr e = Some b ->
     fst (get_audio_properties w) =
       match py_int a, py_int b with
       | Ret sr, Ret ch => Ret (sr, ch)
       | Raise ex, _ => Raise ex
       | Ret _, Raise ex => Raise ex
       end) /\
  (forall e sr ch,
     audio_engine_ref (this w) = Some e ->
     sample_rate_attr e = Some (Int_value sr) -> channels_attr e = Some (Int_value ch) ->
     fst (get_audio_properties w) = Ret (sr, ch)).
Proof.
  assert (Hboth : forall e a b,
            audio_engine_ref (this w) = Some e ->
            sample_rate_attr e = Some a -> channels_attr e = Some b ->
            get_audio_properties w =
            (match py_int a, py_int b with
             | Ret sr, Ret ch => Ret (sr, ch)
             | Raise ex, _ => Raise ex
             | Ret _, Raise ex => Raise ex
             end, w)).
  { intros e a b He Ha Hb. unfold get_audio_properties, bind, gets, lift_res, ret.
    simpl. rewrite He, Ha, Hb.
    destruct (py_int a) as [sr|ex]; [|reflexivity].
    destruct (py_int b) as [ch|ex]; reflexivity. }
  split; [|split; [|split]].
  - unfold get_audio_properties, bind, gets, log, modify, lift_res, ret. simpl.
    destruct (audio_engine_ref (this w)) as [e|]; [|reflexivity].
    destruct (sample_rate_attr e) as [a|]; [|destruct (channels_attr e); reflexivity].
    destruct (channels_attr e) as [b|]; [|reflexivity].
    destruct (py_int a) as [sr|ex]; [|reflexivity].
    destruct (py_int b) as [ch|ex]; reflexivity.
  - unfold get_audio_properties, bind, gets, log, modify, ret. simpl.
    intros [Hnone|(e & He & [Hn|Hn])].
    + rewrite Hnone. reflexivity.
    + rewrite He, Hn. destruct (channels_attr e); reflexivity.
    + rewrite He, Hn. destruct (sample_rate_attr e); reflexivity.
  - intros e a b He Ha Hb. rewrite (Hboth e a b He Ha Hb). reflexivity.
  - intros e sr ch He Ha Hb. rewrite (Hboth e _ _ He Ha Hb). reflexivity.
Qed.

Import Inputs.

(** An engine at 48 kHz mono registered, an engine whose sample rate is
    the float 44100.5, and no engine at all. *)
Lemma get_audio_properties_outcome_witness :
  fst (get_audio_properties retuned) = Ret (48000, 1) /\
  fst (get_audio_properties fractional) = Ret (44100, 2) /\
  fst (get_audio_properties bare) = Ret (44100, 2).
Proof.
  split; [|split].
  - destruct (get_audio_properties_outcome retuned) as (_ & _ & _ & Hints).
    eapply Hints; reflexivity.
  - destruct (get_audio_properties_outcome fractional) as (_ & _ & Hboth & _).
    erewrite Hboth by reflexivity. reflexivity.
  - destruct (get_audio_properties_outcome bare) as (_ & Hdefault & _).
    apply Hdefault. left. reflexivity.
Defined.

(** C10 as stated fails: with an engine registered whose [sample_rate]
    attribute is there and holds [None], [get_audio_properties] raises
    [TypeError] instead of returning a pair. *)
Lemma get_audio_properties_raises_on_none :
  (exists e, audio_engine_ref (this unready) = Some e /\
             is_Some (sample_rate_attr e) /\ is_Some (channels_attr e)) /\
  fst (get_audio_properties unready) = Raise TypeError.
Proof.
  split; [|reflexivity].
  eexists. split; [reflexivity|]. split; eexists; reflexivity.
Qed.

(** *** [request_playback_action] *)

Lemma quiet_ret {A} (a : A) : quiet (ret a).
Proof. intros w. repeat split. Qed.

Lemma quiet_throw {A} (e : exn) : quiet (@throw world A e).
Proof. intros w. repeat split. Qed.

Lemma quiet_lift_res {A} (r : res A) : quiet (lift_res r).
Proof. intros w. repeat split. Qed.

Lemma quiet_gets {A} (f : world -> A) : quiet (gets f).
Proof. intros w. repeat split. Qed.

Lemma quiet_log (lv : level) (message : string) : quiet (log lv message).
Proof. intros w. repeat split. Qed.

Lemma quiet_set_status (text : string) : quiet (set_status text).
Proof.
  intros w. unfold set_status, modify. simpl.
  destruct (status_bar_var (this w)); repeat split.
Qed.

Lemma quiet_bind {A B} (c : M world A) (k : A -> M world B) :
  quiet c -> (forall a, quiet (k a)) -> quiet (bind c k).
Proof.
  intros Hc Hk w. unfold bind. destruct (Hc w) as (Hs & He & Hu).
  destruct (c w) as [[a|e] w1]; simpl in *; [|repeat split; assumption].
  destruct (Hk a w1) as (Hs' & He' & Hu'). repeat split; congruence.
Qed.

Lemma quiet_try_except {A} (body : M world A) (handler : exn -> M world A) :
  quiet body -> (forall e, quiet (handler e)) -> quiet (try_except body handler).
Proof.
  intros Hb Hh w. unfold try_except. destruct (Hb w) as (Hs & He & Hu).
  destruct (body w) as [[a|e] w1]; simpl in *; [repeat split; assumption|].
  destruct (Hh e w1) as (Hs' & He' & Hu'). repeat split; congruence.
Qed.

Lemma quiet_call_method_of (t : target) (obj : component) (method : string)
    (args : list pyobj) (kwargs : list (string * pyobj)) :
  quiet (call_method_of t obj method args kwargs).
Proof.
  unfold call_method_of. destruct (has_attr obj method); [|apply quiet_throw].
  apply quiet_bind; [|intros; apply quiet_lift_res]. intros w. repeat split.
Qed.

Lemma quiet_engine_call (eng : component) (method : string)
    (args : list pyobj) (kwargs : list (string * pyobj)) :
  quiet (engine_call eng method args kwargs).
Proof.
  unfold engine_call. apply quiet_bind; [apply quiet_call_method_of|].
  intros. apply quiet_ret.
Qed.

Lemma quiet_guarded_engine_call (eng : component) (method : string)
    (args : list pyobj) (kwargs : list (string * pyobj)) :
  quiet (guarded_engine_call eng method args kwargs).
Proof.
  unfold guarded_engine_call. destruct (has_attr eng method); [|apply quiet_ret].
  apply quiet_bind; [apply quiet_call_method_of|]. intros. apply quiet_ret.
Qed.

Lemma quiet_guarded_ui_call (method : string) (keys : list string)
    (params : list (string * pyobj)) :
  quiet (guarded_ui_call method keys params).
Proof.
  unfold guarded_ui_call. apply quiet_bind; [apply quiet_gets|]. intros h.
  destruct (main_player_ui_ref h) as [ui|]; [|apply quiet_ret].
  destruct (has_attr ui method); [|apply quiet_ret].
  apply quiet_bind; [apply quiet_lift_res|]. intros args.
  apply quiet_bind; [apply quiet_call_method_of|]. intros. apply quiet_ret.
Qed.

Ltac quiet_step :=
  first
    [ apply quiet_ret | apply quiet_throw | apply quiet_lift_res | apply quiet_gets
    | apply quiet_log | apply quiet_set_status | apply quiet_engine_call
    | apply quiet_guarded_engine_call | apply quiet_guarded_ui_call
    | apply quiet_bind; [|intros] ].

Lemma quiet_dispatch (eng : component) (action : string)
    (params : list (string * pyobj)) :
  quiet (dispatch eng action params).
Proof.
  unfold dispatch.
  repeat match goal with
         | |- quiet (if ?b then _ else _) => destruct b
         end;
    repeat quiet_step.
Qed.

Lemma quiet_dispatch_guarded (eng : component) (action : string)
    (params : list (string * pyobj)) :
  quiet (dispatch_guarded eng action params).
Proof.
  unfold dispatch_guarded. apply quiet_try_except.
  - apply quiet_bind; [apply quiet_dispatch|]. intros [[|] [m|]]; repeat quiet_step.
  - intros []; apply quiet_ret.
Qed.

(** The two [except] clauses catch whatever the chain raises. *)
Lemma dispatch_guarded_returns (eng : component) (action : string)
    (params : list (string * pyobj)) (w : world) :
  exists r, fst (dispatch_guarded eng action params w) = Ret r.
Proof.
  unfold dispatch_guarded, try_except.
  match goal with |- context [match ?b w with _ => _ end] => destruct (b w) as [[r|e] w1] end.
  - eauto.
  - destruct e; simpl; eauto.
Qed.

Lemma leaves_no_message_ok (c : M world bool) :
  leaves_no_message (let* success := c in ret (success, None)).
Proof.
  intros w. unfold bind, ret. destruct (c w) as [[s|e] w1]; simpl; auto.
Qed.

Lemma leaves_no_message_bind {A} (c : M world A) (k : A -> M world (bool * option string)) :
  (forall a, leaves_no_message (k a)) -> leaves_no_message (bind c k).
Proof.
  intros Hk w. unfold bind. destruct (c w) as [[a|e] w1]; simpl; [apply Hk|exact I].
Qed.

Lemma leaves_no_message_throw (e : exn) : leaves_no_message (throw e).
Proof. intros w. exact I. Qed.

Lemma leaves_no_message_ret (success : bool) : leaves_no_message (ret (success, None)).
Proof. intros w. reflexivity. Qed.

(** Every action the chain knows leaves [err_msg] at [None]. *)
Lemma known_action_leaves_no_message (eng : component) (action : string)
    (params : list (string * pyobj)) :
  In action known_actions -> leaves_no_message (dispatch eng action params).
Proof.
  intros Hin. unfold known_actions in Hin. simpl in Hin.
  repeat (destruct Hin as [<-|Hin]; [
    unfold dispatch; simpl;
    repeat match goal with
           | |- leaves_no_message (if ?b then _ else _) => destruct b
           | |- _ => first [ apply leaves_no_message_ok | apply leaves_no_message_throw
                           | apply leaves_no_message_ret
                           | apply leaves_no_message_bind; intros ]
           end |]).
  contradiction.
Qed.

(** An action the chain does not know: nothing is called, and the
    message names the action. *)
Lemma dispatch_guarded_unknown (eng : component) (action : string)
    (params : list (string * pyobj)) (w : world) :
  ~ In action known_actions ->
  fst (dispatch_guarded eng action params w) = Ret (false, Some (unknown_action action)) /\
  calls (snd (dispatch_guarded eng action params w)) = calls w.
Proof.
  intros Hnot. unfold dispatch_guarded, try_except, dispatch.
  repeat match goal with
         | |- context [String.eqb action ?s] =>
             let E := fresh "E" in
             assert (E : String.eqb action s = false)
               by (apply String.eqb_neq; intros ->; apply Hnot; simpl; tauto);
             rewrite E; clear E
         end.
  unfold bind, log, set_status, modify, ret. simpl.
  destruct (status_bar_var (this w)); simpl; split; reflexivity.
Qed.

(** An action that stands for an engine operation the engine has and
    that returns. *)
Lemma dispatch_guarded_engine_operation (eng : component) (action op : string)
    (params : list (string * pyobj)) (w : world) :
  engine_operation action = Some op ->
  has_attr eng op = true ->
  (forall args kwargs, invoke eng op args kwargs = Ret tt) ->
  (exists d, as_kwargs (get params "play_args" (ODict [])) = Ret d) ->
  fst (dispatch_guarded eng action params w) = Ret (true, None) /\
  exists args kwargs,
    calls (snd (dispatch_guarded eng action params w)) =
    calls w ++ [Call The_engine op args kwargs].
Proof.
  intros Hop Hhas Hinvoke [d Hd]. unfold engine_operation in Hop.
  repeat match type of Hop with
         | context [String.eqb action ?s] =>
             destruct (String.eqb_spec action s) as [->|?]
         end;
    simpl in Hop; try discriminate Hop; injection Hop as <-;
    unfold dispatch_guarded, try_except, dispatch, engine_call, guarded_engine_call,
      call_method_of, bind, log, set_status, modify, ret, throw, lift_res, gets;
    simpl; rewrite ?Hhas, ?Hd; simpl; rewrite ?Hhas, ?Hinvoke; simpl;
    destruct (status_bar_var (this w)); simpl; eauto.
Qed.

(** [force_sync_playback] with a player UI that has the method, the three
    parameters given, and a call that returns. *)
Lemma dispatch_guarded_force_sync (eng ui : component)
    (params : list (string * pyobj)) (w : world) (a b c : pyobj) :
  main_player_ui_ref (this w) = Some ui ->
  has_attr ui "force_sync_local_player_to_state" = true ->
  dict_get params "library_track_id" = Some a ->
  dict_get params "position_seconds" = Some b ->
  dict_get params "is_playing_target" = Some c ->
  invoke ui "force_sync_local_player_to_state" [a; b; c] [] = Ret tt ->
  fst (dispatch_guarded eng "force_sync_playback" params w) = Ret (true, None) /\
  calls (snd (dispatch_guarded eng "force_sync_playback" params w)) =
  calls w ++ [Call The_player_ui "force_sync_local_player_to_state" [a; b; c] []].
Proof.
  intros Hui Hhas Ha Hb Hc Hinvoke.
  unfold dispatch_guarded, try_except, dispatch, guarded_ui_call, call_method_of, item,
    bind, log, set_status, modify, ret, throw, lift_res, gets.
  simpl. rewrite Hui, Hhas. simpl. rewrite Ha, Hb, Hc. simpl.
  rewrite ?Hhas, ?Hinvoke. simpl.
  destruct (status_bar_var (this w)); simpl; auto.
Qed.

Lemma dispatch_guarded_known (eng : component) (action : string)
    (params : list (string * pyobj)) (w : world) (success : bool) (err_msg : option string) :
  In action known_actions ->
  fst (dispatch_guarded eng action params w) = Ret (success, err_msg) ->
  err_msg <> Some (unknown_action action).
Proof.
  intros Hin. pose proof (known_action_leaves_no_message eng action params Hin w) as Hm.
  unfold dispatch_guarded, try_except, bind, set_status, modify, ret.
  destruct (dispatch eng action params w) as [[[s0 m0]|ex] w1]; simpl in Hm |- *.
  - subst m0. destruct s0; simpl; intros [= <- <-]; discriminate.
  - unfold unknown_action. destruct ex; simpl; intros [= <- <-]; discriminate.
Qed.

(** C8, as the code has it.  With an audio engine registered,
    [request_playback_action] never raises and reports one outcome to the
    caller's callback.  The names it knows are those of [known_actions]:
    any other name, [load] and [load_and_play] among them, is reported as a
    failure whose message names the action, and nothing is called; a known
    name is never reported as unknown.  Each of play, pause, resume, stop,
    next, previous, seek, set_volume, toggle_mute, set_shuffle_mode and
    set_repeat_mode goes to its engine operation and is reported a success
    when the engine has the operation and the operation returns (for play,
    when [play_args], if given, is a mapping).  [force_sync_playback] goes to
    [force_sync_local_player_to_state] of the player UI and is reported a
    success when the UI has it, the three parameters are given and the call
    returns. *)
Theorem request_playback_action_dispatches (w : world) (e : engine_ref)
    (action : string) (params : option (list (string * pyobj))) :
  audio_engine_ref (this w) = Some e ->
  (forall callback, fst (request_playback_action action params callback w) = Ret tt) /\
  (exists success err_msg,
     scheduled (snd (request_playback_action action params true w)) =
     scheduled w ++ [(success, err_msg)]) /\
  (~ In action known_actions ->
   scheduled (snd (request_playback_action action params true w)) =
     scheduled w ++ [(false, Some (unknown_action action))] /\
   calls (snd (request_playback_action action params true w)) = calls w) /\
  (In action known_actions ->
   forall success err_msg,
     scheduled (snd (request_playback_action action params true w)) =
       scheduled w ++ [(success, err_msg)] ->
     err_msg <> Some (unknown_action action)) /\
  (forall op,
     engine_operation action = Some op ->
     has_attr (engine_methods e) op = true ->
     (forall args kwargs, invoke (engine_methods e) op args kwargs = Ret tt) ->
     (exists d, as_kwargs (get (or_empty params) "play_args" (ODict [])) = Ret d) ->
     scheduled (snd (request_playback_action action params true w)) =
       scheduled w ++ [(true, None)] /\
     exists args kwargs,
       calls (snd (request_playback_action action params true w)) =
       calls w ++ [Call The_engine op args kwargs]) /\
  (forall ui a b c,
     action = "force_sync_playback" ->
     main_player_ui_ref (this w) = Some ui ->
     has_attr ui "force_sync_local_player_to_state" = true ->
     dict_get (or_empty params) "library_track_id" = Some a ->
     dict_get (or_empty params) "position_seconds" = Some b ->
     dict_get (or_empty params) "is_playing_target" = Some c ->
     invoke ui "force_sync_local_player_to_state" [a; b; c] [] = Ret tt ->
     scheduled (snd (request_playback_action action params true w)) =
       scheduled w ++ [(true, None)] /\
     calls (snd (request_playback_action action params true w)) =
       calls w ++ [Call The_player_ui "force_sync_local_player_to_state" [a; b; c] []]).
Proof.
  intros He.
  assert (Hnever : forall callback,
            fst (request_playback_action action params callback w) = Ret tt).
  { intros callback. unfold request_playback_action, bind, gets. simpl. rewrite He.
    match goal with |- context [dispatch_guarded ?eng ?a ?p ?w0] =>
      destruct (dispatch_guarded_returns eng a p w0) as [r Hr];
      destruct (dispatch_guarded eng a p w0) as [r0 w1]
    end.
    simpl in Hr. subst r0. destruct callback; reflexivity. }
  split; [exact Hnever|]. clear Hnever.
  unfold request_playback_action, bind, gets. simpl. rewrite He.
  set (w0 := World (this w) (calls w) (scheduled w)
                   (logged w ++ [(INFO, "Host: Playback action")])).
  destruct (quiet_dispatch_guarded (engine_methods e) action (or_empty params) w0)
    as (Hsched & _ & _).
  destruct (dispatch_guarded_returns (engine_methods e) action (or_empty params) w0)
    as [[s m] Hr].
  pose proof (dispatch_guarded_unknown (engine_methods e) action (or_empty params) w0) as Hunknown.
  pose proof (dispatch_guarded_known (engine_methods e) action (or_empty params) w0) as Hknown.
  pose proof (fun op => dispatch_guarded_engine_operation
                          (engine_methods e) action op (or_empty params) w0) as Hop.
  pose proof (fun ui => dispatch_guarded_force_sync
                          (engine_methods e) ui (or_empty params) w0) as Hsync.
  destruct (dispatch_guarded (engine_methods e) action (or_empty params) w0)
    as [r0 w1] eqn:Hdg.
  simpl in *. subst r0. unfold schedule, modify. simpl. rewrite Hsched.
  split; [eauto|]. split; [|split; [|split]].
  - intros Hnot. destruct (Hunknown Hnot) as [[= -> ->] Hcalls]. auto.
  - intros Hin success err_msg Heq. apply app_inj_tail in Heq as [_ [= <- <-]].
    apply (Hknown s m Hin eq_refl).
  - intros op Hengine Hhas Hinvoke Hkw.
    destruct (Hop op Hengine Hhas Hinvoke Hkw) as [[= -> ->] Hcalls]. auto.
  - intros ui a b c -> Hui Hhas Ha Hb Hc Hinvoke.
    rewrite Hdg in Hsync.
    destruct (Hsync ui a b c Hui Hhas Ha Hb Hc Hinvoke) as [[= -> ->] Hcalls]. auto.
Qed.

(** On the wired host: [pause] goes to the engine, and [rewind] is not an
    action. *)
Lemma request_playback_action_dispatches_witness :
  (scheduled (snd (request_playback_action "pause" None true wired)) = [(true, None)] /\
   exists args kwargs,
     calls (snd (request_playback_action "pause" None true wired)) =
     [Call The_engine "pause" args kwargs]) /\
  scheduled (snd (request_playback_action "rewind" None true wired)) =
    [(false, Some "Unknown playback action: rewind")].
Proof.
  split.
  - destruct (request_playback_action_dispatches wired AudioEngine_ref "pause" None eq_refl)
      as (_ & _ & _ & _ & Hop & _).
    apply (Hop "pause"); try reflexivity. exists []. reflexivity.
  - destruct (request_playback_action_dispatches wired AudioEngine_ref "rewind" None eq_refl)
      as (_ & _ & Hunknown & _).
    apply Hunknown. vm_compute. intuition discriminate.
Defined.

(** C8 as stated fails on the wired host: [load], which the claim lists,
    is reported as an unknown action and nothing is called; and
    [play_track_at_playlist_index], which the claim does not list, is
    dispatched to the engine and reported a success. *)
Lemma listed_actions_are_not_the_known_ones :
  (In "load" listed_actions /\
   scheduled (snd (request_playback_action "load" (Some [("filepath", OStr "a.wav")]) true wired))
     = [(false, Some "Unknown playback action: load")] /\
   calls (snd (request_playback_action "load" (Some [("filepath", OStr "a.wav")]) true wired))
     = []) /\
  (~ In "play_track_at_playlist_index" listed_actions /\
   scheduled (snd (request_playback_action "play_track_at_playlist_index"
                     (Some [("index", OInt 0)]) true wired))
     = [(true, None)] /\
   calls (snd (request_playback_action "play_track_at_playlist_index"
                 (Some [("index", OInt 0)]) true wired))
     = [Call The_engine "play_track_at_playlist_index" [OInt 0] []]).
Proof.
  split; (split; [|split; reflexivity]).
  - simpl. tauto.
  - simpl. intuition discriminate.
Qed.

End HostAppFacts.

(** * Further properties *)

(** ** The effect units: what the methods leave alone, and how they compose *)
Module AudioEffectsMore.
Import AudioEffects AudioEffectsFrame.

Section Facts.
Context {F : Type} `{NP : NumPy F}.

(** *** Relations every step keeps *)

Section Keeps.
Variable R : effect F -> effect F -> Prop.
Hypothesis R_refl : forall e, R e e.
Hypothesis R_trans : forall a b c, R a b -> R b c -> R a c.

Lemma keeps_ret {A} (a : A) : keeps R (ret a).
Proof. intros w. apply R_refl. Qed.

Lemma keeps_lift_res {A} (r : res A) : keeps R (lift_res r).
Proof. intros w. apply R_refl. Qed.

Lemma keeps_gets {A} (f : world F -> A) : keeps R (gets f).
Proof. intros w. apply R_refl. Qed.

Lemma keeps_emit (ev : event F) : keeps R (emit ev).
Proof. intros w. apply R_refl. Qed.

Lemma keeps_rand : keeps R rand.
Proof. intros w. apply R_refl. Qed.

Lemma keeps_update (f : effect F -> effect F) :
  (forall e, R e (f e)) -> keeps R (update f).
Proof. intros Hf w. apply Hf. Qed.

Lemma keeps_bind {A B} (c : M (world F) A) (k : A -> M (world F) B) :
  keeps R c -> (forall a, keeps R (k a)) -> keeps R (bind c k).
Proof.
  intros Hc Hk w. unfold bind. specialize (Hc w).
  destruct (c w) as [[a|e] w1]; simpl in *; [|exact Hc].
  eapply R_trans; [exact Hc|apply Hk].
Qed.

Lemma keeps_for_each {A} (l : list A) (body : A -> M (world F) unit) :
  (forall x, keeps R (body x)) -> keeps R (for_each l body).
Proof.
  intros Hbody. induction l as [|x l IH]; simpl.
  - apply keeps_ret.
  - apply keeps_bind; [apply Hbody|intros _; exact IH].
Qed.

End Keeps.

Lemma same_setup_refl (e : effect F) : same_setup e e.
Proof. repeat split. Qed.

Lemma same_setup_trans (a b c : effect F) :
  same_setup a b -> same_setup b c -> same_setup a c.
Proof.
  intros (H1 & H2 & H3 & H4 & H5) (H1' & H2' & H3' & H4' & H5').
  repeat split; congruence.
Qed.

Lemma same_settings_refl (e : effect F) : same_settings e e.
Proof. split; [apply same_setup_refl|reflexivity]. Qed.

Lemma same_settings_trans (a b c : effect F) :
  same_settings a b -> same_settings b c -> same_settings a c.
Proof.
  intros [H1 H2] [H1' H2']. split; [eapply same_setup_trans; eassumption|congruence].
Qed.

Lemma same_settings_set_voices (vs : list (voice F)) (e : effect F) :
  same_settings e (set_voices vs e).
Proof. unfold set_voices. destruct (ext e); repeat split. Qed.

Lemma same_settings_set_write_idx (i : Z) (e : effect F) :
  same_settings e (set_write_idx i e).
Proof. unfold set_write_idx. destruct (ext e); repeat split. Qed.

Ltac settings_step :=
  first
    [ apply keeps_ret; apply same_settings_refl
    | apply keeps_lift_res; apply same_settings_refl
    | apply keeps_gets; apply same_settings_refl
    | apply keeps_emit; apply same_settings_refl
    | apply keeps_rand; apply same_settings_refl
    | apply keeps_update; intros;
      first [ apply same_settings_set_voices | apply same_settings_set_write_idx ]
    | apply keeps_bind; [apply same_settings_trans| |intros] ].

Lemma keeps_settings_append_voice (len : nat) (i : Z) :
  keeps same_settings (Chorus_append_voice len i).
Proof. unfold Chorus_append_voice, uniform. repeat settings_step. Qed.

Lemma keeps_settings_reset : keeps (F:=F) same_settings reset.
Proof.
  unfold reset. apply keeps_bind; [apply same_settings_trans|settings_step|intros e].
  destruct (ext e); [unfold AudioEffect_reset; repeat settings_step..|].
  unfold Chorus_reset, AudioEffect_reset.
  do 4 (apply keeps_bind; [apply same_settings_trans|settings_step|intros]).
  destruct (_ || _); [settings_step|].
  destruct (_ <=? 0); [settings_step|].
  apply keeps_bind; [apply same_settings_trans|settings_step|intros indices].
  apply keeps_bind; [apply same_settings_trans| |intros; repeat settings_step].
  apply keeps_for_each; [apply same_settings_refl|apply same_settings_trans|].
  intros x. apply keeps_settings_append_voice.
Qed.

(** X7: [reset()] of every effect class, whether it returns or raises (the
    chorus can), leaves the parameter mapping, the name, the bypass and
    enabled flags and the stream properties exactly as they were: it only
    rebuilds transient state. *)
Theorem reset_keeps_settings (w : world F) :
  same_settings (self w) (self (snd (reset w))).
Proof. apply keeps_settings_reset. Qed.

Lemma same_but_of_settings (nm : string) (a b : effect F) :
  same_settings a b -> same_but nm a b.
Proof.
  intros [Hs Hp]. split; [exact Hs|]. rewrite Hp. split; [reflexivity|reflexivity].
Qed.

Lemma same_but_trans (nm : string) (a b c : effect F) :
  same_but nm a b -> same_but nm b c -> same_but nm a c.
Proof.
  intros (Hs & Hk & Hn) (Hs' & Hk' & Hn').
  split; [eapply same_setup_trans; eassumption|]. split.
  - intros key Hkey. rewrite Hk', Hk by exact Hkey. reflexivity.
  - rewrite Hn', Hn. reflexivity.
Qed.

Lemma same_but_insert (nm : string) (v : pyval F) (e : effect F) :
  is_Some (parameters e !! nm) ->
  same_but nm e (set_parameters (<[nm := v]> (parameters e)) e).
Proof.
  intros Hsome. split; [repeat split|]. simpl. split.
  - intros key Hkey. apply lookup_insert_ne. congruence.
  - rewrite lookup_insert_eq. split; [intros _; exact Hsome|eauto].
Qed.

Lemma hook_same_but (w : world F) (nm : string) (v : pyval F) :
  is_Some (parameters (self w) !! nm) ->
  same_but nm (self w) (self (snd (_on_parameter_change nm v w))).
Proof.
  intros Hsome. unfold _on_parameter_change, bind, gets, emit, modify. simpl.
  destruct (ext (self w)) eqn:Hext.
  - apply same_but_of_settings, same_settings_refl.
  - unfold GainEffect_on_parameter_change.
    destruct (String.eqb_spec nm "gain_db") as [->|Hne];
      [|apply same_but_of_settings, same_settings_refl].
    unfold bind, lift_res, update, modify.
    destruct (py_float v) as [x|e]; simpl;
      [|apply same_but_of_settings, same_settings_refl].
    destruct (fpow10 (fdiv x (flit 20.0))) as [g'|e]; simpl.
    + eapply same_but_trans; [apply (same_but_insert "gain_db" (PyFloat x)), Hsome|].
      apply same_but_of_settings. repeat split.
    + apply (same_but_insert "gain_db" (PyFloat x)), Hsome.
  - unfold Chorus_on_parameter_change.
    destruct (_ || _); [|apply same_but_of_settings, same_settings_refl].
    apply same_but_of_settings.
    match goal with |- context [reset ?w1] => apply (keeps_settings_reset w1) end.
Qed.

(** X6: [set_parameter(name, value)] of every effect class, for every
    value and whether it returns or raises, never adds or removes a key of
    the parameter mapping, leaves every parameter other than [name] at its
    value, and leaves the name, the two flags and the stream properties of
    the effect alone. *)
Theorem set_parameter_frame (w : world F) (nm : string) (v : pyval F) :
  same_but nm (self w) (self (snd (set_parameter nm v w))).
Proof.
  destruct (parameters (self w) !! nm) as [old|] eqn:Hold.
  - destruct (py_eqb old v) eqn:Heq.
    + unfold set_parameter, bind, gets. simpl. rewrite Hold, Heq.
      apply same_but_of_settings, same_settings_refl.
    + unfold set_parameter, bind, gets, update, modify. simpl. rewrite Hold, Heq. simpl.
      eapply same_but_trans; [apply (same_but_insert nm v); rewrite Hold; eauto|].
      match goal with |- context [_on_parameter_change nm v ?w1] =>
        apply (hook_same_but w1 nm v) end.
      simpl. rewrite lookup_insert_eq. eauto.
  - unfold set_parameter, bind, gets. simpl. rewrite Hold.
    apply same_but_of_settings, same_settings_refl.
Qed.

(** *** [process_block] *)

Lemma AudioEffect_process_block_world (w : world F) (audio_block : ndarray F) :
  exists j, snd (AudioEffect_process_block audio_block w) =
            World (self w) (np_random_pos w) (journal w ++ j).
Proof.
  unfold AudioEffect_process_block, bind, gets, ret, emit, modify, lift_res. simpl.
  destruct w as [e pos jr]. simpl.
  repeat match goal with
         | |- context [if ?b then _ else _] => destruct b
         | |- context [match newaxis1 ?a with _ => _ end] => destruct (newaxis1 a)
         end; simpl; first [ exists []; rewrite app_nil_r; reflexivity | eexists; reflexivity ].
Qed.

(** X1: [process_block] of every effect class only reads the effect: for
    every block, whether it returns or raises, the effect object is left as
    it was, nothing is drawn from the random generator, and the only trace
    is what was logged. *)
Theorem process_block_reads_only (w : world F) (audio_block : ndarray F) :
  exists j, snd (process_block audio_block w) =
            World (self w) (np_random_pos w) (journal w ++ j).
Proof.
  destruct (AudioEffect_process_block_world w audio_block) as [j Hj].
  unfold process_block, GainEffect_process_block, Chorus_process_block, bind, gets.
  simpl. destruct (ext (self w)); [eauto| |];
    destruct (AudioEffect_process_block audio_block w) as [[out|e] w1];
    simpl in *; subst w1; simpl; eauto.
  - destruct (_ || _); [|destruct (is_one _)]; eauto.
  - destruct (_ || _); [eauto|].
    destruct (voices_of (self w)); unfold emit, modify, ret; simpl;
      rewrite <- app_assoc; eauto.
Qed.

Lemma AudioEffect_process_block_raises (w : world F) (audio_block : ndarray F) (e : exn) :
  fst (AudioEffect_process_block audio_block w) = Raise e <->
  (e = IndexError /\ shape audio_block = [] /\
   bypass (self w) = false /\ enabled (self w) = true /\ channels (self w) = 2).
Proof.
  unfold AudioEffect_process_block, bind, gets, ret, emit, modify, lift_res, newaxis1,
    input_block_channels.
  cbn -[Z.eqb Nat.eqb Z.of_nat].
  destruct (bypass (self w)); cbn -[Z.eqb Nat.eqb Z.of_nat];
    [split; [discriminate|intros (_&_&?&_); discriminate]|].
  destruct (enabled (self w)); cbn -[Z.eqb Nat.eqb Z.of_nat];
    [|split; [discriminate|intros (_&_&_&?&_); discriminate]].
  destruct (shape audio_block) as [|n [|c [|x rest]]] eqn:Hs;
    repeat match goal with
           | |- context [Z.eqb ?a ?b] => destruct (Z.eqb_spec a b)
           | |- context [Nat.eqb ?a ?b] => destruct (Nat.eqb_spec a b)
           end; cbn -[Z.eqb Nat.eqb Z.of_nat];
    try (split; [discriminate|intros (_&?&_); discriminate]);
    try (split; [discriminate|intros (_&_&_&_&?); simpl in *; lia]);
    try (split; [intros [= <-]; auto|intros (-> & _); reflexivity]).
Qed.

(** X2: [process_block] of every effect class raises in one case only: an
    array without any axis given to an enabled, not bypassed effect
    configured for two channels, where the duplication indexes an axis that
    is not there ([IndexError]).  On every other input it returns. *)
Theorem process_block_raises_only_without_axis (w : world F)
    (audio_block : ndarray F) (e : exn) :
  fst (process_block audio_block w) = Raise e <->
  (e = IndexError /\ shape audio_block = [] /\
   bypass (self w) = false /\ enabled (self w) = true /\ channels (self w) = 2).
Proof.
  rewrite <- AudioEffect_process_block_raises.
  destruct (AudioEffect_process_block_world w audio_block) as [j Hj].
  unfold process_block, GainEffect_process_block, Chorus_process_block, bind, gets.
  simpl. destruct (ext (self w)); [reflexivity| |];
    destruct (AudioEffect_process_block audio_block w) as [[out|e'] w1];
    simpl in *; subst w1; simpl; try reflexivity.
  - destruct (_ || _); [|destruct (is_one _)]; simpl; split; discriminate.
  - destruct (_ || _); [simpl; split; discriminate|].
    destruct (voices_of (self w)); simpl; split; discriminate.
Qed.

(** *** The four branches of the adaptation *)

Section Branches.
Variables (w : world F) (audio_block : ndarray F).
Hypothesis Hbyp : bypass (self w) = false.
Hypothesis Hen : enabled (self w) = true.

Lemma adaptation_match :
  Z.of_nat (input_block_channels audio_block) = channels (self w) ->
  AudioEffect_process_block audio_block w = (Ret audio_block, w).
Proof.
  intros Hch. unfold AudioEffect_process_block, bind, gets, ret.
  cbn -[Z.eqb Nat.eqb Z.of_nat]. rewrite Hbyp, Hen. cbn -[Z.eqb Nat.eqb Z.of_nat].
  rewrite (proj2 (Z.eqb_eq _ _) Hch). reflexivity.
Qed.

Lemma adaptation_up (n : nat) (rest : list nat) :
  shape audio_block = n :: rest ->
  input_block_channels audio_block = 1%nat -> channels (self w) = 2 ->
  fst (AudioEffect_process_block audio_block w) =
  Ret (tile_last 2 (NDArray (n :: 1%nat :: rest) (data audio_block))).
Proof.
  intros Hs Hic Hch. unfold AudioEffect_process_block, bind, gets, ret, emit, modify,
    lift_res, newaxis1.
  cbn -[Z.eqb Nat.eqb Z.of_nat tile_last]. rewrite Hbyp, Hen, Hic, Hch, Hs. reflexivity.
Qed.

Lemma adaptation_down (n : nat) :
  shape audio_block = [n; 2%nat] -> channels (self w) = 1 ->
  fst (AudioEffect_process_block audio_block w) = Ret (mean_axis1 n 2 audio_block).
Proof.
  intros Hs Hch. unfold AudioEffect_process_block, bind, gets, ret, emit, modify,
    lift_res, input_block_channels.
  cbn -[Z.eqb Nat.eqb Z.of_nat mean_axis1]. rewrite Hbyp, Hen, Hch, Hs. reflexivity.
Qed.

Lemma adaptation_other :
  Z.of_nat (input_block_channels audio_block) <> channels (self w) ->
  ~ (input_block_channels audio_block = 1%nat /\ channels (self w) = 2) ->
  ~ (input_block_channels audio_block = 2%nat /\ channels (self w) = 1) ->
  fst (AudioEffect_process_block audio_block w) = Ret audio_block.
Proof.
  intros Hne H12 H21. unfold AudioEffect_process_block, bind, gets, ret, emit, modify.
  cbn -[Z.eqb Nat.eqb Z.of_nat]. rewrite Hbyp, Hen. cbn -[Z.eqb Nat.eqb Z.of_nat].
  rewrite (proj2 (Z.eqb_neq _ _) Hne).
  destruct (Nat.eqb_spec (input_block_channels audio_block) 1) as [E1|N1];
    destruct (Z.eqb_spec (channels (self w)) 2) as [E2|N2];
    cbn -[Z.eqb Nat.eqb Z.of_nat]; try (exfalso; apply H12; split; assumption);
    destruct (Nat.eqb_spec (input_block_channels audio_block) 2) as [E3|N3];
    destruct (Z.eqb_spec (channels (self w)) 1) as [E4|N4];
    cbn -[Z.eqb Nat.eqb Z.of_nat]; try (exfalso; apply H21; split; assumption);
    reflexivity.
Qed.

End Branches.

Lemma AudioEffect_process_block_of_self (w w' : world F) (audio_block : ndarray F) :
  self w = self w' ->
  fst (AudioEffect_process_block audio_block w) =
  fst (AudioEffect_process_block audio_block w').
Proof.
  intros Hself. unfold AudioEffect_process_block, bind, gets, ret, emit, modify, lift_res.
  cbn -[Z.eqb Nat.eqb Z.of_nat]. rewrite Hself.
  repeat match goal with
         | |- context [if ?b then _ else _] => destruct b
         | |- context [match newaxis1 ?a with _ => _ end] => destruct (newaxis1 a)
         end; reflexivity.
Qed.

(** X3: the channel adaptation is idempotent on the blocks the effects
    document (one axis, or two axes with a channel count other than one):
    for an enabled, not bypassed effect, feeding the block that
    [AudioEffect.process_block] returned to it again gives that block back
    unchanged. *)
Theorem adaptation_is_idempotent (w : world F) (audio_block out : ndarray F) :
  bypass (self w) = false -> enabled (self w) = true ->
  plain_block audio_block ->
  fst (AudioEffect_process_block audio_block w) = Ret out ->
  fst ((let* once := AudioEffect_process_block audio_block in
        AudioEffect_process_block once) w) = Ret out.
Proof.
  intros Hbyp Hen Hplain Hout.
  destruct (AudioEffect_process_block_world w audio_block) as [j Hj].
  unfold bind. destruct (AudioEffect_process_block audio_block w) as [r w1] eqn:Hrun.
  simpl in Hout, Hj. subst r w1. simpl.
  rewrite <- (AudioEffect_process_block_of_self w
                (World (self w) (np_random_pos w) (journal w ++ j)) out eq_refl).
  assert (Hfirst : fst (AudioEffect_process_block audio_block w) = Ret out)
    by (rewrite Hrun; reflexivity).
  clear Hrun.
  destruct (Z.eq_dec (Z.of_nat (input_block_channels audio_block)) (channels (self w)))
    as [Hsame|Hdiff].
  { rewrite (adaptation_match w audio_block Hbyp Hen Hsame) in Hfirst.
    injection Hfirst as <-. rewrite (adaptation_match w audio_block Hbyp Hen Hsame).
    reflexivity. }
  destruct Hplain as [[n Hs]|(n & c & Hs & Hc)].
  - assert (Hic : input_block_channels audio_block = 1%nat)
      by (unfold input_block_channels; rewrite Hs; reflexivity).
    destruct (Z.eq_dec (channels (self w)) 2) as [H2|H2].
    + rewrite (adaptation_up w audio_block Hbyp Hen n [] Hs Hic H2) in Hfirst.
      injection Hfirst as <-.
      rewrite adaptation_match; [reflexivity|assumption..|].
      unfold input_block_channels, tile_last. simpl. symmetry. exact H2.
    + assert (Hother : fst (AudioEffect_process_block audio_block w) = Ret audio_block).
      { apply adaptation_other; try assumption; rewrite Hic; intros [? ?];
          [contradiction|discriminate]. }
      rewrite Hother in Hfirst. injection Hfirst as <-. exact Hother.
  - assert (Hic : input_block_channels audio_block = c)
      by (unfold input_block_channels; rewrite Hs; reflexivity).
    destruct (Nat.eq_dec c 2%nat) as [->|Hc2];
      [destruct (Z.eq_dec (channels (self w)) 1) as [H1|H1]|].
    + rewrite (adaptation_down w audio_block Hbyp Hen n Hs H1) in Hfirst.
      injection Hfirst as <-.
      rewrite adaptation_match; [reflexivity|assumption..|].
      unfold input_block_channels, mean_axis1. simpl. symmetry. exact H1.
    + assert (Hother : fst (AudioEffect_process_block audio_block w) = Ret audio_block).
      { apply adaptation_other; try assumption; rewrite Hic; intros [? ?];
          [discriminate|contradiction]. }
      rewrite Hother in Hfirst. injection Hfirst as <-. exact Hother.
    + assert (Hother : fst (AudioEffect_process_block audio_block w) = Ret audio_block).
      { apply adaptation_other; try assumption; rewrite Hic; intros [? ?]; contradiction. }
      rewrite Hother in Hfirst. injection Hfirst as <-. exact Hother.
Qed.

(** *** The gain *)

Lemma GainEffect_hook (w : world F) (g g' x : F) (v : pyval F) :
  ext (self w) = GainEffect g -> py_float v = Ret x -> db_to_linear x = Ret g' ->
  _on_parameter_change "gain_db" v w =
  (Ret tt,
   World (set_ext (GainEffect g')
            (set_parameters (<["gain_db" := PyFloat x]> (parameters (self w))) (self w)))
         (np_random_pos w)
         (journal w ++ [Call_on_parameter_change "gain_db" v])).
Proof.
  intros Hext Hv Hg. unfold db_to_linear in Hg.
  unfold _on_parameter_change, bind, gets, emit, modify. simpl.
  rewrite Hext. unfold GainEffect_on_parameter_change, bind, lift_res, update, modify. simpl.
  rewrite Hv. simpl. rewrite Hg. reflexivity.
Qed.

Lemma GainEffect_hook_overflow (w : world F) (g x : F) (v : pyval F) (ex : exn) :
  ext (self w) = GainEffect g -> py_float v = Ret x -> db_to_linear x = Raise ex ->
  _on_parameter_change "gain_db" v w =
  (Raise ex,
   World (set_parameters (<["gain_db" := PyFloat x]> (parameters (self w))) (self w))
         (np_random_pos w)
         (journal w ++ [Call_on_parameter_change "gain_db" v])).
Proof.
  intros Hext Hv Hg. unfold db_to_linear in Hg.
  unfold _on_parameter_change, bind, gets, emit, modify. simpl.
  rewrite Hext. unfold GainEffect_on_parameter_change, bind, lift_res, update, modify. simpl.
  rewrite Hv. simpl. rewrite Hg. reflexivity.
Qed.

Lemma GainEffect_process_block_matching (w : world F) (g : F) (audio_block : ndarray F) :
  ext (self w) = GainEffect g ->
  bypass (self w) = false -> enabled (self w) = true ->
  Z.of_nat (input_block_channels audio_block) = channels (self w) ->
  process_block audio_block w =
  (Ret (if is_one g then audio_block else scale audio_block g), w).
Proof.
  intros Hext Hbyp Hen Hch.
  unfold process_block, bind, gets. simpl. rewrite Hext.
  unfold GainEffect_process_block, bind, gets.
  rewrite (adaptation_match w audio_block Hbyp Hen Hch). simpl.
  rewrite Hbyp, Hen. simpl. destruct (is_one g); reflexivity.
Qed.

(** X4: setting the level of a gain and processing a block compose as
    follows.  Take [set_parameter("gain_db", v)] with a number [v] that
    [float()] accepts and that differs from the stored level, on an enabled,
    not bypassed gain, and a block of the gain's channel count.  When
    [10 ** (float(v) / 20)] is in range, the block comes back multiplied by
    it (the block itself when that factor is one) and the mapping holds
    [float(v)].  When it overflows, [set_parameter] raises [OverflowError]
    with the mapping already holding [float(v)], and the block still comes
    back multiplied by the linear gain of the level before. *)
Theorem gain_scales_by_the_level_set (w : world F) (g x : F) (old v : pyval F)
    (audio_block : ndarray F) :
  ext (self w) = GainEffect g ->
  parameters (self w) !! "gain_db" = Some old -> py_eqb old v = false ->
  py_float v = Ret x ->
  bypass (self w) = false -> enabled (self w) = true ->
  Z.of_nat (input_block_channels audio_block) = channels (self w) ->
  (forall g',
     db_to_linear x = Ret g' ->
     fst ((set_parameter "gain_db" v >> process_block audio_block) w) =
       Ret (if is_one g' then audio_block else scale audio_block g') /\
     parameters (self (snd ((set_parameter "gain_db" v >> process_block audio_block) w)))
       !! "gain_db" = Some (PyFloat x)) /\
  (forall ex,
     db_to_linear x = Raise ex ->
     fst (set_parameter "gain_db" v w) = Raise ex /\
     parameters (self (snd (set_parameter "gain_db" v w))) !! "gain_db" =
       Some (PyFloat x) /\
     fst (process_block audio_block (snd (set_parameter "gain_db" v w))) =
       Ret (if is_one g then audio_block else scale audio_block g)).
Proof.
  intros Hext Hold Hne Hv Hbyp Hen Hch.
  rewrite (AudioEffectsFacts.set_parameter_changed w "gain_db" v old Hold Hne).
  split.
  - intros g' Hg'. unfold bind.
    rewrite (AudioEffectsFacts.set_parameter_changed w "gain_db" v old Hold Hne).
    rewrite (GainEffect_hook _ g g' x v) by (try exact Hv; try exact Hg'; simpl; exact Hext).
    cbv beta iota.
    rewrite (GainEffect_process_block_matching _ g') by (simpl; try assumption; reflexivity).
    split; [reflexivity|]. simpl. rewrite lookup_insert_eq. reflexivity.
  - intros ex Hex.
    rewrite (GainEffect_hook_overflow _ g x v ex) by (try exact Hv; try exact Hex; simpl; exact Hext).
    simpl. split; [reflexivity|]. split; [rewrite lookup_insert_eq; reflexivity|].
    rewrite (GainEffect_process_block_matching _ g) by (simpl; assumption).
    reflexivity.
Qed.

(** X5: [set_parameter("gain_db", None)] on a gain whose level is a number
    raises [TypeError], but only after the mapping has been written: the
    mapping then holds [None] under [gain_db], while the linear gain is
    still the one of the old level. *)
Theorem gain_writes_none_before_rejecting_it (w : world F) (g : F) (old : pyval F) :
  ext (self w) = GainEffect g ->
  parameters (self w) !! "gain_db" = Some old -> old <> PyNone ->
  fst (set_parameter "gain_db" PyNone w) = Raise TypeError /\
  parameters (self (snd (set_parameter "gain_db" PyNone w))) =
    <["gain_db" := PyNone]> (parameters (self w)) /\
  ext (self (snd (set_parameter "gain_db" PyNone w))) = GainEffect g.
Proof.
  intros Hext Hold Hnone.
  assert (Hne : py_eqb old PyNone = false) by (destruct old; [contradiction|reflexivity..]).
  rewrite (AudioEffectsFacts.set_parameter_changed w "gain_db" PyNone old Hold Hne).
  unfold _on_parameter_change, bind, gets, emit, modify. simpl. rewrite Hext.
  unfold GainEffect_on_parameter_change, bind, lift_res. simpl.
  repeat split. exact Hext.
Qed.

(** *** Stream properties *)

Lemma set_stream_properties_sets (w : world F) (sr ch : Z) :
  sample_rate (self (snd (set_stream_properties sr ch w))) = sr /\
  channels (self (snd (set_stream_properties sr ch w))) = ch.
Proof.
  unfold set_stream_properties, bind, gets, update, modify, ret. simpl.
  destruct (Z.eqb_spec (sample_rate (self w)) sr) as [Hs|Hs];
    destruct (Z.eqb_spec (channels (self w)) ch) as [Hc|Hc]; simpl;
    [split; assumption|..];
    match goal with |- context [_on_parameter_change _ _ ?w1] =>
      pose proof (AudioEffectsFacts.notify_then_reset w1) as H end;
    unfold bind in H; simpl in H; destruct H as ((Hs1 & Hc1 & _) & _);
    simpl in Hs1, Hc1; split; congruence.
Qed.

Lemma set_stream_properties_same (w : world F) :
  set_stream_properties (sample_rate (self w)) (channels (self w)) w = (Ret tt, w).
Proof.
  unfold set_stream_properties, bind, gets, update, modify, ret. simpl.
  rewrite !Z.eqb_refl. reflexivity.
Qed.

(** X8: [set_stream_properties] is idempotent: calling it a second time
    with the same sample rate and channel count changes nothing more and
    logs nothing more, whatever the effect class and whatever the first call
    did (a first call that raised is the whole outcome). *)
Theorem set_stream_properties_idempotent (w : world F) (sr ch : Z) :
  (set_stream_properties sr ch >> set_stream_properties sr ch) w =
  set_stream_properties sr ch w.
Proof.
  unfold bind. destruct (set_stream_properties_sets w sr ch) as [Hs Hc].
  destruct (set_stream_properties sr ch w) as [[[]|e] w1]; [|reflexivity].
  simpl in Hs, Hc. subst sr ch. apply set_stream_properties_same.
Qed.

(** *** The chorus *)

Lemma Chorus_reset_builds (w : world F) vs d i (n : Z) (x : F) :
  ext (self w) = Chorus vs d i ->
  parameters (self w) !! "num_voices" = Some (PyInt n) ->
  parameters (self w) !! "rate_hz" = Some (PyFloat x) ->
  0 < sample_rate (self w) -> 0 < channels (self w) ->
  0 < ftrunc (fmul d (fofZ (sample_rate (self w)))) ->
  exists vs',
    reset w = (Ret tt, World (set_ext (Chorus vs' d 0) (self w))
                             (3 * Z.to_nat n + np_random_pos w)
                             (journal w ++ reset_trace)) /\
    map buffer vs' =
      repeat (np_zeros [Z.to_nat (ftrunc (fmul d (fofZ (sample_rate (self w)))));
                        Z.to_nat (channels (self w))]) (Z.to_nat n).
Proof.
  intros Hext Hnum Hrate Hsr Hch Hlen.
  unfold reset, Chorus_reset, AudioEffect_reset, bind, gets, emit, update, modify, ret, lift_res.
  simpl. rewrite Hext. simpl. unfold get_or, max_delay_of.
  rewrite Hnum, Hext. simpl.
  rewrite (proj2 (Z.leb_gt _ _) Hsr), (proj2 (Z.leb_gt _ _) Hch),
          (proj2 (Z.leb_gt _ _) Hlen). simpl.
  match goal with |- context [for_each ?l ?body ?w1] =>
    destruct (AudioEffectsFacts.Chorus_voices_loop l w1 [] d i x
                (Z.to_nat (ftrunc (fmul d (fofZ (sample_rate (self w)))))))
      as (new & Hnew & Hloop)
  end.
  { unfold set_voices. simpl. rewrite Hext. reflexivity. }
  { unfold set_voices. simpl. rewrite Hext. exact Hrate. }
  rewrite Hloop. simpl. exists new. split.
  - unfold set_write_idx, set_voices, reset_trace. simpl. rewrite Hext. simpl.
    rewrite length_map, length_seq, Nat.add_0_r, <- !app_assoc. reflexivity.
  - rewrite Hnew. unfold set_voices. simpl. rewrite Hext. simpl.
    rewrite length_map, length_seq. reflexivity.
Qed.

(** X9: on a chorus with an int voice count [n], a float rate, positive
    stream properties and a buffer length [int(max_voice_delay_s *
    sample_rate)] above zero, [reset] returns normally having replaced the
    voices, whatever they were, by [max(n, 0)] new ones, each with a zeroed
    buffer of that length and of the effect's channel count; the write index
    is zero, three random numbers were drawn per voice, and nothing else of
    the effect has changed. *)
Theorem chorus_reset_rebuilds_the_voices (w : world F) vs d i (n : Z) (x : F) :
  ext (self w) = Chorus vs d i ->
  parameters (self w) !! "num_voices" = Some (PyInt n) ->
  parameters (self w) !! "rate_hz" = Some (PyFloat x) ->
  0 < sample_rate (self w) -> 0 < channels (self w) ->
  0 < ftrunc (fmul d (fofZ (sample_rate (self w)))) ->
  fst (reset w) = Ret tt /\
  np_random_pos (snd (reset w)) = (3 * Z.to_nat n + np_random_pos w)%nat /\
  exists vs',
    self (snd (reset w)) = set_ext (Chorus vs' d 0) (self w) /\
    length vs' = Z.to_nat n /\
    forall v, In v vs' ->
      buffer v = np_zeros [Z.to_nat (ftrunc (fmul d (fofZ (sample_rate (self w)))));
                           Z.to_nat (channels (self w))].
Proof.
  intros Hext Hnum Hrate Hsr Hch Hlen.
  destruct (Chorus_reset_builds w vs d i n x Hext Hnum Hrate Hsr Hch Hlen)
    as (vs' & Hrun & Hbuf).
  rewrite Hrun. simpl. split; [reflexivity|]. split; [reflexivity|].
  exists vs'. split; [reflexivity|]. split.
  - rewrite <- (length_map buffer), Hbuf. apply repeat_length.
  - intros v Hin. apply (in_map buffer) in Hin. rewrite Hbuf in Hin.
    apply repeat_spec in Hin. exact Hin.
Qed.

(** X10: a chorus whose sample rate or channel count is not positive, or
    whose buffer length [int(max_voice_delay_s * sample_rate)] is not,
    comes out of [reset] with no voice at all: the call returns normally
    whatever the parameters hold, draws no random number, and leaves the
    write index where it was. *)
Theorem chorus_reset_without_stream_has_no_voice (w : world F) vs d i :
  ext (self w) = Chorus vs d i ->
  sample_rate (self w) <= 0 \/ channels (self w) <= 0 \/
    ftrunc (fmul d (fofZ (sample_rate (self w)))) <= 0 ->
  reset w = (Ret tt, World (set_ext (Chorus [] d i) (self w)) (np_random_pos w)
                           (journal w ++ [Call_reset; Logged DEBUG "Resetting effect"])).
Proof.
  intros Hext Hbad.
  unfold reset, Chorus_reset, AudioEffect_reset, bind, gets, emit, update, modify, ret.
  simpl. rewrite Hext. simpl. unfold max_delay_of, set_voices. simpl. rewrite Hext.
  rewrite <- !app_assoc. simpl.
  destruct (Z.leb_spec (sample_rate (self w)) 0) as [Hs|Hs]; [reflexivity|].
  destruct (Z.leb_spec (channels (self w)) 0) as [Hc|Hc]; [reflexivity|]. simpl.
  destruct (Z.leb_spec (ftrunc (fmul d (fofZ (sample_rate (self w))))) 0) as [Hl|Hl];
    [reflexivity|].
  exfalso. lia.
Qed.

(** X11: when the voice count of a chorus is not an int (a float, or
    [None]) and the stream properties allow a buffer, [reset] raises
    [TypeError] at [range(num_v)], after it has emptied the voice list: the
    chorus is left without voices, and no random number was drawn. *)
Theorem chorus_reset_loses_voices_on_bad_count (w : world F) vs d i (v : pyval F) :
  ext (self w) = Chorus vs d i ->
  parameters (self w) !! "num_voices" = Some v -> (forall n, v <> PyInt n) ->
  0 < sample_rate (self w) -> 0 < channels (self w) ->
  0 < ftrunc (fmul d (fofZ (sample_rate (self w)))) ->
  fst (reset w) = Raise TypeError /\
  self (snd (reset w)) = set_ext (Chorus [] d i) (self w) /\
  np_random_pos (snd (reset w)) = np_random_pos w.
Proof.
  intros Hext Hnum Hint Hsr Hch Hlen.
  unfold reset, Chorus_reset, AudioEffect_reset, bind, gets, emit, update, modify, ret, lift_res.
  simpl. rewrite Hext. simpl. unfold get_or, max_delay_of.
  rewrite Hnum, Hext. simpl.
  rewrite (proj2 (Z.leb_gt _ _) Hsr), (proj2 (Z.leb_gt _ _) Hch),
          (proj2 (Z.leb_gt _ _) Hlen). simpl.
  unfold set_voices. rewrite Hext.
  destruct v as [|n|y]; [|exfalso; apply (Hint n); reflexivity|]; simpl; repeat split.
Qed.

(** X12: changing the voice count of a configured chorus rebuilds its
    voices at once: after [set_parameter("num_voices", n)] with an int [n]
    other than the stored count, the chorus has exactly [max(n, 0)] voices
    and the mapping holds [n]. *)
Theorem chorus_voice_count_follows_parameter (w : world F) vs d i (n : Z) (x : F)
    (old : pyval F) :
  ext (self w) = Chorus vs d i ->
  parameters (self w) !! "num_voices" = Some old -> py_eqb old (PyInt n) = false ->
  parameters (self w) !! "rate_hz" = Some (PyFloat x) ->
  0 < sample_rate (self w) -> 0 < channels (self w) ->
  0 < ftrunc (fmul d (fofZ (sample_rate (self w)))) ->
  fst (set_parameter "num_voices" (PyInt n) w) = Ret tt /\
  length (voices_of (self (snd (set_parameter "num_voices" (PyInt n) w)))) = Z.to_nat n /\
  parameters (self (snd (set_parameter "num_voices" (PyInt n) w))) !! "num_voices" =
    Some (PyInt n).
Proof.
  intros Hext Hold Hne Hrate Hsr Hch Hlen.
  rewrite (AudioEffectsFacts.set_parameter_changed w "num_voices" (PyInt n) old Hold Hne).
  rewrite (AudioEffectsFacts.Chorus_reacts_num_voices _ (PyInt n) vs d i)
    by (simpl; exact Hext).
  match goal with |- context [reset ?w1] =>
    destruct (Chorus_reset_builds w1 vs d i n x) as (vs' & Hrun & Hbuf)
  end; simpl; try assumption.
  { apply lookup_insert_eq. }
  { rewrite lookup_insert_ne by discriminate. exact Hrate. }
  simpl in Hrun. rewrite Hrun. simpl. split; [reflexivity|]. split.
  - unfold voices_of. simpl. rewrite <- (length_map buffer), Hbuf. apply repeat_length.
  - apply lookup_insert_eq.
Qed.

(** X13: a change of stream properties makes a configured chorus build its
    voices twice: [set_stream_properties] notifies
    [_on_parameter_change("_stream_props_changed", None)], which for a chorus
    calls [reset], and then calls [reset] itself.  The call returns with
    [max(n, 0)] voices whose buffers have the new length and channel count,
    and six random numbers drawn per voice. *)
Theorem chorus_stream_change_resets_twice (w : world F) vs d i (n : Z) (x : F)
    (sr ch : Z) :
  ext (self w) = Chorus vs d i ->
  parameters (self w) !! "num_voices" = Some (PyInt n) ->
  parameters (self w) !! "rate_hz" = Some (PyFloat x) ->
  sample_rate (self w) <> sr \/ channels (self w) <> ch ->
  0 < sr -> 0 < ch -> 0 < ftrunc (fmul d (fofZ sr)) ->
  exists vs',
    set_stream_properties sr ch w =
    (Ret tt,
     World (Effect (name (self w)) (enabled (self w)) (bypass (self w))
                   (parameters (self w)) sr ch (Chorus vs' d 0))
           (6 * Z.to_nat n + np_random_pos w)
           (journal w ++ Call_on_parameter_change "_stream_props_changed" PyNone
                         :: reset_trace ++ reset_trace)) /\
    map buffer vs' =
      repeat (np_zeros [Z.to_nat (ftrunc (fmul d (fofZ sr))); Z.to_nat ch]) (Z.to_nat n).
Proof.
  intros Hext Hnum Hrate Hdiff Hsr Hch Hlen.
  set (e1 := Effect (name (self w)) (enabled (self w)) (bypass (self w))
                    (parameters (self w)) sr ch (Chorus vs d i)).
  set (w1 := World e1 (np_random_pos w)
                   (journal w ++ [Call_on_parameter_change "_stream_props_changed" PyNone])).
  destruct (Chorus_reset_builds w1 vs d i n x) as (vs1 & Hrun1 & _);
    try assumption; try reflexivity.
  set (w2 := World (set_ext (Chorus vs1 d 0) (self w1))
                   (3 * Z.to_nat n + np_random_pos w1) (journal w1 ++ reset_trace)) in *.
  destruct (Chorus_reset_builds w2 vs1 d 0 n x) as (vs2 & Hrun2 & Hbuf2);
    try assumption; try reflexivity.
  exists vs2. split; [|exact Hbuf2].
  assert (Hstart : set_stream_properties sr ch w =
                   (_on_parameter_change "_stream_props_changed" PyNone >> reset)
                     (World e1 (np_random_pos w) (journal w))).
  { unfold set_stream_properties, bind, gets, update, modify, ret. simpl.
    unfold e1. rewrite <- Hext.
    destruct (Z.eqb_spec (sample_rate (self w)) sr) as [Es|Ns];
      destruct (Z.eqb_spec (channels (self w)) ch) as [Ec|Nc]; simpl;
      [exfalso; destruct Hdiff; contradiction|..];
      unfold set_channels, set_sample_rate; simpl; try rewrite Es; try rewrite Ec;
      reflexivity. }
  rewrite Hstart. unfold bind.
  assert (Hhook : _on_parameter_change "_stream_props_changed" PyNone
                    (World e1 (np_random_pos w) (journal w)) = reset w1).
  { unfold _on_parameter_change, bind, gets, emit, modify. simpl. reflexivity. }
  rewrite Hhook, Hrun1. fold w2. rewrite Hrun2. unfold w2, w1, e1, set_ext. simpl.
  f_equal. f_equal; [lia|]. rewrite <- !app_assoc. reflexivity.
Qed.

End Facts.

Import Inputs MoreInputs.

(** A single sample given to the two-channel effect. *)
Lemma process_block_raises_only_without_axis_witness :
  fst (process_block scalar0 (world_of stereo_effect)) = Raise IndexError.
Proof.
  apply (process_block_raises_only_without_axis (world_of stereo_effect) scalar0 IndexError).
  repeat split.
Defined.

(** The mono block through the two-channel effect, twice. *)
Lemma adaptation_is_idempotent_witness :
  fst ((let* once := AudioEffect_process_block mono3 in
        AudioEffect_process_block once) (world_of stereo_effect)) =
  Ret (NDArray [3%nat; 2%nat] [1; 1; 2; 2; 3; 3]%Q).
Proof.
  apply (adaptation_is_idempotent (world_of stereo_effect) mono3).
  - reflexivity.
  - reflexivity.
  - left. exists 3%nat. reflexivity.
  - reflexivity.
Defined.

(** The fresh gain set to 20 dB and given three stereo frames. *)
Lemma gain_scales_by_the_level_set_witness :
  fst ((set_parameter "gain_db" (PyInt 20) >> process_block stereo3) fresh_gain) =
  Ret (NDArray [3%nat; 2%nat] [10; 30; 20; 60; 50; 50]%Q).
Proof.
  destruct (gain_scales_by_the_level_set fresh_gain 1%Q 20%Q (PyFloat 0%Q) (PyInt 20) stereo3)
    as [Hreturns _]; [reflexivity..|].
  destruct (Hreturns 10%Q eq_refl) as [Hout _].
  rewrite Hout. reflexivity.
Defined.

(** The fresh gain given [None] for its level. *)
Lemma gain_writes_none_before_rejecting_it_witness :
  fst (set_parameter "gain_db" PyNone fresh_gain) = Raise TypeError /\
  ext (self (snd (set_parameter "gain_db" PyNone fresh_gain))) = GainEffect 1%Q.
Proof.
  destruct (gain_writes_none_before_rejecting_it fresh_gain 1%Q (PyFloat 0%Q))
    as (Hraise & _ & Hext); [reflexivity|reflexivity|discriminate|].
  split; assumption.
Defined.

(** The fresh chorus, reset once more. *)
Lemma chorus_reset_rebuilds_the_voices_witness :
  fst (reset fresh_chorus) = Ret tt /\
  np_random_pos (snd (reset fresh_chorus)) = (3 * 3 + np_random_pos fresh_chorus)%nat.
Proof.
  destruct (chorus_reset_rebuilds_the_voices fresh_chorus
              (voices_of (self fresh_chorus)) (1 # 40)%Q 0 3 (1 # 5)%Q)
    as (Hret & Hpos & _); try (vm_compute; reflexivity).
  split; assumption.
Defined.

(** The chorus at a sample rate of zero. *)
Lemma chorus_reset_without_stream_has_no_voice_witness :
  voices_of (self (snd (reset unplugged_chorus))) = [] /\
  np_random_pos (snd (reset unplugged_chorus)) = np_random_pos unplugged_chorus.
Proof.
  rewrite (chorus_reset_without_stream_has_no_voice unplugged_chorus
             (voices_of (self fresh_chorus)) (1 # 40)%Q 0).
  - split; reflexivity.
  - vm_compute. reflexivity.
  - left. vm_compute. discriminate.
Defined.

(** The chorus whose voice count is 2.5. *)
Lemma chorus_reset_loses_voices_on_bad_count_witness :
  fst (reset miscounted_chorus) = Raise TypeError /\
  np_random_pos (snd (reset miscounted_chorus)) = np_random_pos miscounted_chorus.
Proof.
  destruct (chorus_reset_loses_voices_on_bad_count miscounted_chorus
              (voices_of (self fresh_chorus)) (1 # 40)%Q 0 (PyFloat (5 # 2)%Q))
    as (Hraise & _ & Hpos); try (vm_compute; reflexivity).
  - intros n. discriminate.
  - split; assumption.
Defined.

(** The fresh chorus asked for five voices. *)
Lemma chorus_voice_count_follows_parameter_witness :
  length (voices_of (self (snd (set_parameter "num_voices" (PyInt 5) fresh_chorus)))) = 5%nat.
Proof.
  destruct (chorus_voice_count_follows_parameter fresh_chorus
              (voices_of (self fresh_chorus)) (1 # 40)%Q 0 5 (1 # 5)%Q (PyInt 3))
    as (_ & Hlen & _); [vm_compute; reflexivity..|].
  exact Hlen.
Defined.

(** The fresh chorus moved to 48 kHz mono. *)
Lemma chorus_stream_change_resets_twice_witness :
  np_random_pos (snd (set_stream_properties 48000 1 fresh_chorus)) =
  (6 * 3 + np_random_pos fresh_chorus)%nat.
Proof.
  destruct (chorus_stream_change_resets_twice fresh_chorus
              (voices_of (self fresh_chorus)) (1 # 40)%Q 0 3 (1 # 5)%Q 48000 1)
    as (vs' & Hrun & _);
    [vm_compute; reflexivity | vm_compute; reflexivity | vm_compute; reflexivity
    | left; vm_compute; discriminate
    | vm_compute; reflexivity | vm_compute; reflexivity | vm_compute; reflexivity |].
  rewrite Hrun. reflexivity.
Defined.

End AudioEffectsMore.

(** ** The audio engine: what the callback consumes, and starting the stream *)
Module AudioEngineMore.
Import AudioEngine.

Section Facts.
Context {F : Type} `{NP : NumPy F}.

(** The queue after one callback. *)
Lemma callback_pops (w : cb_world F) (frames : nat) (status : callback_flags) :
  fst (_sounddevice_callback frames status w) = Ret tt /\
  this (snd (_sounddevice_callback frames status w)) =
    set_queue (if sample_rate (this w) =? 0 then stream_output_queue (this w)
               else tl (stream_output_queue (this w)))
              (this w).
Proof.
  destruct w as [t o l]. destruct t as [pl pa vol mu pv sr ch bs q]. destruct o as [r c old].
  unfold _sounddevice_callback, try_except, callback_try, callback_except,
    pop_timeout, queue_get, fill_silence, assign_outdata, log,
    effective_volume, set_queue, bind, gets, modify, ret, throw, lift_res.
  destruct status; simpl;
    (destruct (sr =? 0); simpl; [split; reflexivity|]);
    (destruct q as [|[|block] q]; simpl; [split; reflexivity|split; reflexivity|]);
    (destruct (shape block) as [|n0 [|n1 rest]]; simpl;
     [split; reflexivity
     |destruct (n0 =? frames)%nat; simpl; split; reflexivity|]);
    (destruct (n0 =? frames)%nat; simpl; [|split; reflexivity]);
    (destruct (n1 =? c)%nat; simpl; [|split; reflexivity]);
    (destruct (broadcast_to _ _ _); simpl; split; reflexivity).
Qed.

(** X14: the callback changes nothing of the engine but its queue.  With a
    sample rate other than zero it takes exactly the head off the queue,
    also when it refuses the item (a block of another shape, or [None]) and
    plays silence instead, so a refused block is lost; with a sample rate of
    zero it takes nothing off the queue. *)
Theorem callback_takes_the_head_only (w : cb_world F) (frames : nat)
    (status : callback_flags) :
  let e' := this (snd (_sounddevice_callback frames status w)) in
  (is_playing e', is_paused e', volume e', is_muted e', previous_volume_before_mute e') =
    (is_playing (this w), is_paused (this w), volume (this w), is_muted (this w),
     previous_volume_before_mute (this w)) /\
  (sample_rate e', channels e', block_size e') =
    (sample_rate (this w), channels (this w), block_size (this w)) /\
  (sample_rate (this w) <> 0 ->
   stream_output_queue e' = tl (stream_output_queue (this w))) /\
  (sample_rate (this w) = 0 ->
   stream_output_queue e' = stream_output_queue (this w)).
Proof.
  destruct (callback_pops w frames status) as [_ Hthis]. cbv zeta. rewrite Hthis.
  unfold set_queue. simpl. split; [reflexivity|]. split; [reflexivity|]. split.
  - intros Hsr. apply Z.eqb_neq in Hsr. rewrite Hsr. reflexivity.
  - intros Hsr. rewrite Hsr. reflexivity.
Qed.

Lemma callbacks_pop (statuses : list callback_flags) (frames : nat) :
  forall w : cb_world F,
    sample_rate (this w) <> 0 ->
    fst (AudioEffects.for_each statuses (_sounddevice_callback frames) w) = Ret tt /\
    this (snd (AudioEffects.for_each statuses (_sounddevice_callback frames) w)) =
      set_queue (drop (length statuses) (stream_output_queue (this w))) (this w).
Proof.
  induction statuses as [|s statuses IH]; intros w Hsr.
  - simpl. unfold ret. simpl. rewrite drop_0. split; [reflexivity|].
    destruct w as [[] ? ?]. reflexivity.
  - simpl AudioEffects.for_each. unfold bind.
    destruct (callback_pops w frames s) as [Hret Hthis].
    destruct (_sounddevice_callback frames s w) as [r w1]. simpl in Hret, Hthis. subst r.
    apply Z.eqb_neq in Hsr. rewrite Hsr in Hthis.
    destruct (IH w1) as [Hret1 Hthis1].
    { rewrite Hthis. simpl. apply Z.eqb_neq. exact Hsr. }
    split; [exact Hret1|]. rewrite Hthis1, Hthis. simpl.
    unfold set_queue. simpl. f_equal.
    destruct (stream_output_queue (this w)) as [|x q]; simpl; [apply drop_nil|reflexivity].
Qed.

(** X15: callbacks drain the queue in order, one item each: with a sample
    rate other than zero, [k] callbacks in a row all return and leave on the
    queue what it held without its first [k] items (nothing, when it held
    fewer), whatever the items were. *)
Theorem callbacks_drain_the_queue_in_order (statuses : list callback_flags)
    (frames : nat) (w : cb_world F) :
  sample_rate (this w) <> 0 ->
  fst (AudioEffects.for_each statuses (_sounddevice_callback frames) w) = Ret tt /\
  stream_output_queue
    (this (snd (AudioEffects.for_each statuses (_sounddevice_callback frames) w))) =
    drop (length statuses) (stream_output_queue (this w)).
Proof.
  intros Hsr. destruct (callbacks_pop statuses frames w Hsr) as [Hret Hthis].
  split; [exact Hret|]. rewrite Hthis. reflexivity.
Qed.

End Facts.

(** *** Starting the stream *)

Section Stream.
Import SoundStream.
Context {F : Type}.
Variable dev : device.

Lemma start_sound_stream_cases (w : SoundStream.world F) :
  (stream_is_active (stream_attr w) = true /\
   _start_sound_stream dev w = (Ret true, w)) \/
  (stream_is_active (stream_attr w) = false /\
   (sample_rate (SoundStream.this w) <= 0 \/ channels (SoundStream.this w) <= 0) /\
   _start_sound_stream dev w = (Ret false, w)) \/
  (stream_is_active (stream_attr w) = false /\
   0 < sample_rate (SoundStream.this w) /\ 0 < channels (SoundStream.this w) /\
   let e := SoundStream.this w in
   let sr := sample_rate e in
   let ch := channels e in
   let bs := block_size e in
   let l := SoundStream.logged w ++ [(INFO, "Starting sounddevice stream")] in
   match sd_OutputStream dev sr ch bs with
   | Raise _ =>
       _start_sound_stream dev w =
       (Ret false, SoundStream.World e (stream_attr w)
                     (device_calls w ++ [Open sr ch bs]) l)
   | Ret st =>
       match start dev st with
       | Raise _ =>
           _start_sound_stream dev w =
           (Ret false, SoundStream.World e (Some st)
                         (device_calls w ++ [Open sr ch bs; Start st]) l)
       | Ret st' =>
           _start_sound_stream dev w =
           (Ret true, SoundStream.World e (Some st')
                        (device_calls w ++ [Open sr ch bs; Start st]) l)
       end
   end).
Proof.
  destruct w as [e s calls l].
  unfold _start_sound_stream, bind, gets. simpl.
  destruct (stream_is_active s) eqn:Hact; [left; split; reflexivity|]. right. simpl.
  destruct (Z.leb_spec (sample_rate e) 0) as [Hsr|Hsr]; simpl.
  { left. split; [reflexivity|]. split; [left; exact Hsr|reflexivity]. }
  destruct (Z.leb_spec (channels e) 0) as [Hch|Hch]; simpl.
  { left. split; [reflexivity|]. split; [right; exact Hch|reflexivity]. }
  right. split; [reflexivity|]. split; [exact Hsr|]. split; [exact Hch|].
  unfold try_except, _stop_sound_stream, SoundStream.log, set_stream, device_call_of,
    bind, gets, modify, ret, lift_res.
  destruct s as [old|]; simpl;
    (destruct (sd_OutputStream dev (sample_rate e) (channels e) (block_size e)) as [st|ex];
     simpl; [|reflexivity]);
    (destruct (start dev st) as [st'|ex]; simpl; rewrite <- app_assoc; reflexivity).
Qed.

(** X16: [_start_sound_stream] never raises, whatever the device does: it
    returns a bool, and that bool is [True] exactly when the stream was
    already active, or the sample rate and the channel count are positive
    and the device lets a stream of the engine's properties be opened and
    started. *)
Theorem start_sound_stream_answer (w : SoundStream.world F) :
  exists b : bool,
    fst (_start_sound_stream dev w) = Ret b /\
    (b = true <->
     stream_is_active (stream_attr w) = true \/
     (0 < sample_rate (SoundStream.this w) /\ 0 < channels (SoundStream.this w) /\
      device_accepts dev (SoundStream.this w))).
Proof.
  destruct (start_sound_stream_cases w)
    as [[Hact Hrun]|[(Hact & Hbad & Hrun)|(Hact & Hsr & Hch & Hrun)]].
  - exists true. rewrite Hrun. split; [reflexivity|]. split; auto.
  - exists false. rewrite Hrun. split; [reflexivity|]. split; [discriminate|].
    intros [Ha|(Hsr & Hch & _)]; [congruence|lia].
  - cbv zeta in Hrun. unfold device_accepts.
    destruct (sd_OutputStream dev _ _ _) as [st|ex] eqn:Hopen.
    + destruct (start dev st) as [st'|ex] eqn:Hstart.
      * exists true. rewrite Hrun. split; [reflexivity|]. split; [|reflexivity].
        intros _. right. split; [exact Hsr|]. split; [exact Hch|].
        exists st, st'. split; [reflexivity|exact Hstart].
      * exists false. rewrite Hrun. split; [reflexivity|]. split; [discriminate|].
        intros [Ha|(_ & _ & st0 & st1 & [= <-] & Hs)]; congruence.
    + exists false. rewrite Hrun. split; [reflexivity|]. split; [discriminate|].
      intros [Ha|(_ & _ & st0 & st1 & Ho & _)]; congruence.
Qed.

(** X17: [_start_sound_stream] goes to the device only when it has to: with
    a stream that is active, or with a sample rate or a channel count that is
    not positive, it returns without any device call and without touching
    the engine, its stream or the log. *)
Theorem start_sound_stream_leaves_device_alone (w : SoundStream.world F) :
  stream_is_active (stream_attr w) = true \/
  sample_rate (SoundStream.this w) <= 0 \/ channels (SoundStream.this w) <= 0 ->
  snd (_start_sound_stream dev w) = w.
Proof.
  intros Hcase.
  destruct (start_sound_stream_cases w)
    as [[Hact Hrun]|[(Hact & Hbad & Hrun)|(Hact & Hsr & Hch & _)]].
  - rewrite Hrun. reflexivity.
  - rewrite Hrun. reflexivity.
  - exfalso. destruct Hcase as [Ha|[Hs|Hc]]; [congruence|lia|lia].
Qed.

(** X18: a stream that was opened but could not be started stays on the
    engine: when the stream is not active, the stream properties are
    positive and the device opens a stream whose [start()] raises,
    [_start_sound_stream] returns [False] with [self.stream] holding the new
    stream; when already the opening raises, [self.stream] is what it was,
    the old stream included, which is never closed on the way. *)
Theorem start_sound_stream_failure_leaves_stream (w : SoundStream.world F) :
  stream_is_active (stream_attr w) = false ->
  0 < sample_rate (SoundStream.this w) -> 0 < channels (SoundStream.this w) ->
  let e := SoundStream.this w in
  (forall st ex,
     sd_OutputStream dev (sample_rate e) (channels e) (block_size e) = Ret st ->
     start dev st = Raise ex ->
     fst (_start_sound_stream dev w) = Ret false /\
     stream_attr (snd (_start_sound_stream dev w)) = Some st) /\
  (forall ex,
     sd_OutputStream dev (sample_rate e) (channels e) (block_size e) = Raise ex ->
     fst (_start_sound_stream dev w) = Ret false /\
     stream_attr (snd (_start_sound_stream dev w)) = stream_attr w /\
     device_calls (snd (_start_sound_stream dev w)) =
       device_calls w ++ [Open (sample_rate e) (channels e) (block_size e)]).
Proof.
  intros Hact Hsr Hch.
  destruct (start_sound_stream_cases w)
    as [[Ha _]|[(_ & Hbad & _)|(_ & _ & _ & Hrun)]]; [congruence|lia|].
  cbv zeta in Hrun |- *. split.
  - intros st ex Hopen Hstart. rewrite Hopen, Hstart in Hrun. rewrite Hrun.
    split; reflexivity.
  - intros ex Hopen. rewrite Hopen in Hrun. rewrite Hrun. repeat split.
Qed.

End Stream.

Import Inputs MoreInputs.

(** One callback on the queue of three items. *)
Lemma callback_takes_the_head_only_witness :
  stream_output_queue (this (snd (_sounddevice_callback 2 No_flags mixed_queue))) =
  [Item_None; Item_block mono3].
Proof.
  destruct (callback_takes_the_head_only mixed_queue 2 No_flags) as (_ & _ & Hpop & _).
  cbv zeta in Hpop. rewrite Hpop; [reflexivity|]. vm_compute. discriminate.
Defined.

(** Two callbacks on the queue of three items: the block is played, [None]
    is refused, the mono block is left. *)
Lemma callbacks_drain_the_queue_in_order_witness :
  stream_output_queue
    (this (snd (AudioEffects.for_each [No_flags; Output_underflow]
                  (_sounddevice_callback 2) mixed_queue))) =
  [Item_block mono3].
Proof.
  destruct (callbacks_drain_the_queue_in_order [No_flags; Output_underflow] 2 mixed_queue)
    as [_ Hq]; [vm_compute; discriminate|].
  rewrite Hq. reflexivity.
Defined.

(** A fresh engine and a device that opens and starts the stream. *)
Lemma start_sound_stream_answer_witness :
  fst (SoundStream._start_sound_stream willing_device idle) = Ret true.
Proof.
  destruct (start_sound_stream_answer willing_device idle) as (b & Hb & Hiff).
  rewrite Hb. f_equal. apply Hiff. right.
  split; [reflexivity|]. split; [reflexivity|].
  eexists. eexists. split; reflexivity.
Defined.

(** The engine whose stream runs, asked to start it. *)
Lemma start_sound_stream_leaves_device_alone_witness :
  snd (SoundStream._start_sound_stream absent_device streaming) = streaming.
Proof.
  apply (start_sound_stream_leaves_device_alone absent_device streaming).
  left. reflexivity.
Defined.

(** A fresh engine and a device whose streams do not start. *)
Lemma start_sound_stream_failure_leaves_stream_witness :
  fst (SoundStream._start_sound_stream stalling_device idle) = Ret false /\
  SoundStream.stream_attr (snd (SoundStream._start_sound_stream stalling_device idle)) =
    Some (SoundStream.Stream 44100 2 1024 false).
Proof.
  destruct (start_sound_stream_failure_leaves_stream stalling_device idle)
    as [Hstall _]; [reflexivity..|].
  apply (Hstall (SoundStream.Stream 44100 2 1024 false) (OtherException "PortAudioError"));
    reflexivity.
Defined.

End AudioEngineMore.

(** ** The host facade: what a playback request does beside dispatching *)
Module HostAppMore.
Import HostApp HostAppFrame.

(** *** Calls on collaborators *)

Lemma calls_at_most_weaken {A} (n m : nat) (c : M world A) :
  (n <= m)%nat -> calls_at_most n c -> calls_at_most m c.
Proof.
  intros Hle Hc w. destruct (Hc w) as (l & Hl & Hlen). exists l. split; [exact Hl|lia].
Qed.

Lemma calls_none_ret {A} (a : A) : calls_at_most 0 (ret a).
Proof. intros w. exists []. rewrite app_nil_r. split; [reflexivity|simpl; lia]. Qed.

Lemma calls_none_throw {A} (e : exn) : calls_at_most 0 (@throw world A e).
Proof. intros w. exists []. rewrite app_nil_r. split; [reflexivity|simpl; lia]. Qed.

Lemma calls_none_lift_res {A} (r : res A) : calls_at_most 0 (lift_res r).
Proof. intros w. exists []. rewrite app_nil_r. split; [reflexivity|simpl; lia]. Qed.

Lemma calls_none_gets {A} (f : world -> A) : calls_at_most 0 (gets f).
Proof. intros w. exists []. rewrite app_nil_r. split; [reflexivity|simpl; lia]. Qed.

Lemma calls_none_log (lv : level) (message : string) : calls_at_most 0 (log lv message).
Proof. intros w. exists []. rewrite app_nil_r. split; [reflexivity|simpl; lia]. Qed.

Lemma calls_none_schedule (success : bool) (err_msg : option string) :
  calls_at_most 0 (schedule success err_msg).
Proof. intros w. exists []. rewrite app_nil_r. split; [reflexivity|simpl; lia]. Qed.

Lemma calls_none_set_status (text : string) : calls_at_most 0 (set_status text).
Proof.
  intros w. exists []. rewrite app_nil_r. unfold set_status, modify. simpl.
  destruct (status_bar_var (this w)); split; try reflexivity; simpl; lia.
Qed.

Lemma calls_at_most_bind {A B} (n m : nat) (c : M world A) (k : A -> M world B) :
  calls_at_most n c -> (forall a, calls_at_most m (k a)) ->
  calls_at_most (n + m) (bind c k).
Proof.
  intros Hc Hk w. unfold bind. destruct (Hc w) as (l & Hl & Hlen).
  destruct (c w) as [[a|e] w1]; simpl in *.
  - destruct (Hk a w1) as (l' & Hl' & Hlen'). exists (l ++ l').
    rewrite Hl', Hl, <- app_assoc. split; [reflexivity|]. rewrite length_app. lia.
  - exists l. split; [exact Hl|lia].
Qed.

Lemma calls_at_most_try_except {A} (n : nat) (body : M world A) (handler : exn -> M world A) :
  calls_at_most n body -> (forall e, calls_at_most 0 (handler e)) ->
  calls_at_most n (try_except body handler).
Proof.
  intros Hb Hh w. unfold try_except. destruct (Hb w) as (l & Hl & Hlen).
  destruct (body w) as [[a|e] w1]; simpl in *.
  - exists l. split; [exact Hl|exact Hlen].
  - destruct (Hh e w1) as (l' & Hl' & Hlen'). exists (l ++ l').
    rewrite Hl', Hl, <- app_assoc. split; [reflexivity|]. rewrite length_app. lia.
Qed.

Lemma calls_one_call_method_of (t : target) (obj : component) (method : string)
    (args : list pyobj) (kwargs : list (string * pyobj)) :
  calls_at_most 1 (call_method_of t obj method args kwargs).
Proof.
  unfold call_method_of. destruct (has_attr obj method).
  - apply (calls_at_most_bind 1 0); [|intros; apply calls_none_lift_res].
    intros w. exists [Call t method args kwargs]. split; [reflexivity|simpl; lia].
  - apply (calls_at_most_weaken 0); [lia|apply calls_none_throw].
Qed.

Lemma calls_one_engine_call (eng : component) (method : string)
    (args : list pyobj) (kwargs : list (string * pyobj)) :
  calls_at_most 1 (engine_call eng method args kwargs).
Proof.
  unfold engine_call. apply (calls_at_most_bind 1 0); [apply calls_one_call_method_of|].
  intros. apply calls_none_ret.
Qed.

Lemma calls_one_guarded_engine_call (eng : component) (method : string)
    (args : list pyobj) (kwargs : list (string * pyobj)) :
  calls_at_most 1 (guarded_engine_call eng method args kwargs).
Proof.
  unfold guarded_engine_call. destruct (has_attr eng method).
  - apply (calls_at_most_bind 1 0); [apply calls_one_call_method_of|].
    intros. apply calls_none_ret.
  - apply (calls_at_most_weaken 0); [lia|apply calls_none_ret].
Qed.

Lemma calls_one_guarded_ui_call (method : string) (keys : list string)
    (params : list (string * pyobj)) :
  calls_at_most 1 (guarded_ui_call method keys params).
Proof.
  unfold guarded_ui_call. apply (calls_at_most_bind 0 1); [apply calls_none_gets|].
  intros h. destruct (main_player_ui_ref h) as [ui|];
    [|apply (calls_at_most_weaken 0); [lia|apply calls_none_ret]].
  destruct (has_attr ui method);
    [|apply (calls_at_most_weaken 0); [lia|apply calls_none_ret]].
  apply (calls_at_most_bind 0 1); [apply calls_none_lift_res|]. intros args.
  apply (calls_at_most_bind 1 0); [apply calls_one_call_method_of|].
  intros. apply calls_none_ret.
Qed.

Lemma calls_one_ok (c : M world bool) :
  calls_at_most 1 c ->
  calls_at_most 1 (let* success := c in ret (success, @None string)).
Proof.
  intros Hc. apply (calls_at_most_bind 1 0); [exact Hc|]. intros. apply calls_none_ret.
Qed.

Lemma calls_one_dispatch (eng : component) (action : string)
    (params : list (string * pyobj)) :
  calls_at_most 1 (dispatch eng action params).
Proof.
  unfold dispatch.
  repeat match goal with
         | |- calls_at_most 1 (if ?b then _ else _) => destruct b
         end;
    first
      [ apply calls_one_ok;
        first [ apply calls_one_guarded_ui_call | apply calls_one_engine_call
              | apply calls_one_guarded_engine_call ]
      | apply (calls_at_most_bind 0 1);
        [apply calls_none_lift_res|intros; apply calls_one_ok; apply calls_one_engine_call]
      | apply (calls_at_most_weaken 0); [lia|];
        first [ apply calls_none_ret | apply calls_none_throw
              | apply (calls_at_most_bind 0 0); [apply calls_none_log|intros; apply calls_none_ret] ] ].
Qed.

Lemma calls_one_dispatch_guarded (eng : component) (action : string)
    (params : list (string * pyobj)) :
  calls_at_most 1 (dispatch_guarded eng action params).
Proof.
  unfold dispatch_guarded. apply calls_at_most_try_except.
  - apply (calls_at_most_bind 1 0); [apply calls_one_dispatch|].
    intros [[|] [m|]];
      (apply (calls_at_most_bind 0 0); [|intros; apply calls_none_ret]);
      first [apply calls_none_set_status | apply calls_none_ret].
  - intros []; apply calls_none_ret.
Qed.

(** With an engine registered, the request is the guarded chain followed
    by the scheduling of its outcome. *)
Lemma request_through_chain (w : world) (e : engine_ref) (action : string)
    (params : option (list (string * pyobj))) (callback : bool) :
  audio_engine_ref (this w) = Some e ->
  request_playback_action action params callback w =
  (let* r := dispatch_guarded (engine_methods e) action (or_empty params) in
   if callback then schedule (fst r) (snd r) else ret tt)
    (World (this w) (calls w) (scheduled w)
           (logged w ++ [(INFO, "Host: Playback action")])).
Proof.
  intros He. unfold request_playback_action, bind at 1, gets. rewrite He. reflexivity.
Qed.

(** Without an engine, the request logs, sets the status bar and tells the
    callback. *)
Lemma request_without_engine (w : world) (action : string)
    (params : option (list (string * pyobj))) (callback : bool) :
  audio_engine_ref (this w) = None ->
  request_playback_action action params callback w =
  (Ret tt,
   World (match status_bar_var (this w) with
          | Some _ => Host None (main_player_ui_ref (this w))
                           (Some "Error: Audio engine not ready.")
          | None => this w
          end)
         (calls w)
         (scheduled w ++ (if callback then [(false, Some no_engine_message)] else []))
         (logged w ++ [(WARNING, no_engine_message)])).
Proof.
  intros He. unfold request_playback_action, bind, gets, log, set_status, schedule,
    modify, ret. simpl. rewrite He. simpl. rewrite He.
  destruct (status_bar_var (this w)); destruct callback; simpl;
    rewrite ?app_nil_r; reflexivity.
Qed.

(** X19: one playback request makes at most one call on a collaborator
    (the engine or the player UI), whatever the action, the parameters and
    the state of the host; and without an engine registered it makes
    none. *)
Theorem request_playback_action_calls_at_most_once (w : world) (action : string)
    (params : option (list (string * pyobj))) (callback : bool) :
  exists l,
    calls (snd (request_playback_action action params callback w)) = calls w ++ l /\
    (length l <= 1)%nat /\
    (audio_engine_ref (this w) = None -> l = []).
Proof.
  unfold request_playback_action, bind at 1, gets.
  destruct (audio_engine_ref (this w)) as [e|] eqn:He.
  - assert (H : calls_at_most 1
                  (log INFO "Host: Playback action" >>
                   let* r := dispatch_guarded (engine_methods e) action (or_empty params) in
                   if callback then schedule (fst r) (snd r) else ret tt)).
    { apply (calls_at_most_bind 0 1); [apply calls_none_log|]. intros _.
      apply (calls_at_most_bind 1 0); [apply calls_one_dispatch_guarded|]. intros r.
      destruct callback; [apply calls_none_schedule|apply calls_none_ret]. }
    destruct (H w) as (l & Hl & Hlen). exists l. split; [exact Hl|].
    split; [exact Hlen|discriminate].
  - exists []. rewrite app_nil_r. split; [|split; [simpl; lia|reflexivity]].
    unfold bind, log, set_status, schedule, modify, ret. simpl.
    destruct (status_bar_var (this w)); destruct callback; reflexivity.
Qed.

(** X20: a playback request never raises, with or without an engine; it
    schedules the caller's callback exactly once when the caller passed one
    and schedules nothing when it passed none, and it leaves the engine and
    player-UI references of the host in place.  Without an engine the
    callback is told of the failure with the message that the engine is not
    available. *)
Theorem request_playback_action_reports_iff_asked (w : world) (action : string)
    (params : option (list (string * pyobj))) (callback : bool) :
  fst (request_playback_action action params callback w) = Ret tt /\
  (exists outcome,
     scheduled (snd (request_playback_action action params callback w)) =
       scheduled w ++ (if callback then [outcome] else []) /\
     (audio_engine_ref (this w) = None -> outcome = (false, Some no_engine_message))) /\
  audio_engine_ref (this (snd (request_playback_action action params callback w))) =
    audio_engine_ref (this w) /\
  main_player_ui_ref (this (snd (request_playback_action action params callback w))) =
    main_player_ui_ref (this w).
Proof.
  destruct (audio_engine_ref (this w)) as [e|] eqn:He.
  - rewrite (request_through_chain w e action params callback He).
    set (w0 := World (this w) (calls w) (scheduled w)
                     (logged w ++ [(INFO, "Host: Playback action")])).
    destruct (HostAppFacts.quiet_dispatch_guarded (engine_methods e) action
                (or_empty params) w0) as (Hsched & Heng & Hui).
    destruct (HostAppFacts.dispatch_guarded_returns (engine_methods e) action
                (or_empty params) w0) as [r Hr].
    unfold bind.
    destruct (dispatch_guarded (engine_methods e) action (or_empty params) w0) as [r0 w1].
    unfold w0 in *. simpl in *. subst r0. rewrite He in Heng.
    destruct callback; unfold schedule, modify, ret; simpl.
    + split; [reflexivity|]. split; [|split; [exact Heng|exact Hui]].
      exists r. rewrite Hsched. split; [destruct r; reflexivity|intros; discriminate].
    + split; [reflexivity|]. split; [|split; [exact Heng|exact Hui]].
      exists r. rewrite Hsched, app_nil_r. split; [reflexivity|intros; discriminate].
  - rewrite (request_without_engine w action params callback He). simpl.
    split; [reflexivity|]. split.
    + exists (false, Some no_engine_message). split; [|reflexivity].
      destruct callback; reflexivity.
    + destruct (status_bar_var (this w)); simpl; rewrite ?He; split; reflexivity.
Qed.

(** *** Failures *)

(** X21: when the engine operation an action stands for raises, the
    request reports a failure whose message begins as the matching [except]
    clause has it (an [AttributeError] raised inside the operation is
    reported as a missing method), the call has been made, and the host,
    its status bar included, is as before. *)
Theorem failing_engine_operation_is_reported (w : world) (e : engine_ref)
    (action op : string) (params : option (list (string * pyobj))) (ex : exn) :
  audio_engine_ref (this w) = Some e ->
  engine_operation action = Some op ->
  has_attr (engine_methods e) op = true ->
  (forall args kwargs, invoke (engine_methods e) op args kwargs = Raise ex) ->
  (exists d, as_kwargs (get (or_empty params) "play_args" (ODict [])) = Ret d) ->
  (exists text,
     scheduled (snd (request_playback_action action params true w)) =
     scheduled w ++ [(false, Some (failure_prefix action ex +:+ text)%string)]) /\
  this (snd (request_playback_action action params true w)) = this w /\
  exists args kwargs,
    calls (snd (request_playback_action action params true w)) =
    calls w ++ [Call The_engine op args kwargs].
Proof.
  intros He Hop Hhas Hinvoke [d Hd].
  rewrite (request_through_chain w e action params true He).
  unfold engine_operation in Hop.
  repeat match type of Hop with
         | context [String.eqb action ?s] =>
             destruct (String.eqb_spec action s) as [->|?]
         end;
    simpl in Hop; try discriminate Hop; injection Hop as <-;
    unfold dispatch_guarded, try_except, dispatch, engine_call, guarded_engine_call,
      call_method_of, schedule, bind, log, set_status, modify, ret, throw, lift_res, gets;
    simpl; rewrite ?Hhas, ?Hd; simpl; rewrite ?Hhas, ?Hinvoke; simpl;
    destruct ex; simpl;
    (split; [eexists; reflexivity|split; [reflexivity|eauto]]).
Qed.

(** X22: an action that goes to the player UI fails without a word when
    the UI is not registered or lacks the method: the callback is told
    [(False, None)], a failure without any message, nothing is called, and
    the host, its status bar included, is as before. *)
Theorem ui_action_without_its_method_fails_silently (w : world) (e : engine_ref)
    (action method : string) (keys : list string)
    (params : option (list (string * pyobj))) :
  audio_engine_ref (this w) = Some e ->
  ui_operation action = Some (method, keys) ->
  ui_has (this w) method = false ->
  scheduled (snd (request_playback_action action params true w)) =
    scheduled w ++ [(false, None)] /\
  calls (snd (request_playback_action action params true w)) = calls w /\
  this (snd (request_playback_action action params true w)) = this w.
Proof.
  intros He Hop Hhas.
  rewrite (request_through_chain w e action params true He).
  unfold ui_operation in Hop. unfold ui_has in Hhas.
  repeat match type of Hop with
         | context [String.eqb action ?s] =>
             destruct (String.eqb_spec action s) as [->|?]
         end;
    simpl in Hop; try discriminate Hop; injection Hop as <- <-;
    unfold dispatch_guarded, try_except, dispatch, guarded_ui_call,
      call_method_of, schedule, bind, log, set_status, modify, ret, throw, lift_res, gets;
    simpl; destruct (main_player_ui_ref (this w)) as [ui|]; simpl;
    rewrite ?Hhas; simpl; repeat split.
Qed.

(** X23: an action that goes to the player UI and finds one of its
    parameters missing reports a failure whose message begins with
    [Error executing playback action], calls nothing, and leaves the host,
    its status bar included, as before. *)
Theorem ui_action_missing_parameter_is_reported (w : world) (e : engine_ref)
    (ui : component) (action method key : string) (keys : list string)
    (params : option (list (string * pyobj))) :
  audio_engine_ref (this w) = Some e ->
  ui_operation action = Some (method, keys) ->
  main_player_ui_ref (this w) = Some ui -> has_attr ui method = true ->
  In key keys -> dict_get (or_empty params) key = None ->
  (exists text,
     scheduled (snd (request_playback_action action params true w)) =
     scheduled w ++ [(false, Some (error_prefix action +:+ text)%string)]) /\
  calls (snd (request_playback_action action params true w)) = calls w /\
  this (snd (request_playback_action action params true w)) = this w.
Proof.
  intros He Hop Hui Hhas Hin Hmiss.
  rewrite (request_through_chain w e action params true He).
  unfold ui_operation in Hop.
  repeat match type of Hop with
         | context [String.eqb action ?s] =>
             destruct (String.eqb_spec action s) as [->|?]
         end;
    simpl in Hop; try discriminate Hop; injection Hop as <- <-;
    simpl in Hin;
    repeat (destruct Hin as [<-|Hin]; [|]); try contradiction;
    unfold dispatch_guarded, try_except, dispatch, guarded_ui_call, item,
      call_method_of, schedule, bind, log, set_status, modify, ret, throw, lift_res, gets;
    simpl; rewrite Hui; simpl; rewrite Hhas; simpl; rewrite ?Hmiss; simpl;
    repeat match goal with
           | |- context [dict_get ?p ?k] => destruct (dict_get p k); simpl
           end;
    (split; [eexists; reflexivity|split; reflexivity]).
Qed.

Import Inputs MoreInputs.

(** [stop] on the host whose engine raises from inside. *)
Lemma failing_engine_operation_is_reported_witness :
  (exists text,
     scheduled (snd (request_playback_action "stop" None true wired_to_broken)) =
     [(false, Some ("Component missing method for action 'stop': " +:+ text)%string)]) /\
  status_bar_var (this (snd (request_playback_action "stop" None true wired_to_broken))) =
    Some "Ready".
Proof.
  destruct (failing_engine_operation_is_reported wired_to_broken broken_engine
              "stop" "stop" None
              (AttributeError "'NoneType' object has no attribute 'stop'"))
    as (Hmsg & Hthis & _); [reflexivity | reflexivity | reflexivity | reflexivity
                           | exists []; reflexivity |].
  split; [exact Hmsg|]. rewrite Hthis. reflexivity.
Defined.

(** [load_track_from_path] on the wired host, whose player UI has no
    method. *)
Lemma ui_action_without_its_method_fails_silently_witness :
  scheduled (snd (request_playback_action "load_track_from_path"
                    (Some [("filepath", OStr "a.wav")]) true wired)) = [(false, None)].
Proof.
  destruct (ui_action_without_its_method_fails_silently wired AudioEngine_ref
              "load_track_from_path" "load_track" ["filepath"]
              (Some [("filepath", OStr "a.wav")]))
    as (Hsched & _ & _); [reflexivity | reflexivity | reflexivity |].
  exact Hsched.
Defined.

(** [force_sync_playback] without the position, on the host with the full
    player UI. *)
Lemma ui_action_missing_parameter_is_reported_witness :
  calls (snd (request_playback_action "force_sync_playback"
                (Some [("library_track_id", OInt 7); ("is_playing_target", OBool true)])
                true wired_with_player)) = [] /\
  status_bar_var
    (this (snd (request_playback_action "force_sync_playback"
                  (Some [("library_track_id", OInt 7); ("is_playing_target", OBool true)])
                  true wired_with_player))) = Some "Ready".
Proof.
  destruct (ui_action_missing_parameter_is_reported wired_with_player AudioEngine_ref
              player_ui "force_sync_playback" "force_sync_local_player_to_state"
              "position_seconds"
              ["library_track_id"; "position_seconds"; "is_playing_target"]
              (Some [("library_track_id", OInt 7); ("is_playing_target", OBool true)]))
    as (_ & Hcalls & Hthis);
    [reflexivity | reflexivity | reflexivity | reflexivity
    | right; left; reflexivity | reflexivity |].
  split; [exact Hcalls|]. rewrite Hthis. reflexivity.
Defined.

End HostAppMore.

(** ** The host facade: library requests *)
Module HostLibraryMore.
Import HostApp HostLibrary.

Lemma db_call_of_comes_to (method : string) (args : list (res pyobj))
    (kwargs : list (string * pyobj)) (ref : option database) :
  exists r made, comes_to (db_call_of method args kwargs) ref r made [].
Proof.
  unfold comes_to, db_call_of, bind, gets, throw, lift_res, modify.
  destruct ref as [db|]; simpl.
  - destruct (db_has db method).
    + destruct (evaluate args) as [vs|e].
      * exists (db_invoke db method vs kwargs), [DbCall method vs kwargs].
        intros. simpl. rewrite app_nil_r. destruct (db_invoke db method vs kwargs); reflexivity.
      * exists (Raise e), []. intros. rewrite !app_nil_r. reflexivity.
    + exists (Raise (AttributeError method)), []. intros. rewrite !app_nil_r. reflexivity.
  - exists (Raise (AttributeError method)), []. intros. rewrite !app_nil_r. reflexivity.
Qed.

Lemma worker_try_comes_to (action : string) (params : list (string * pyobj))
    (ref : option database) :
  exists r made said, comes_to (worker_try action params) ref r made said.
Proof.
  unfold worker_try.
  repeat match goal with
         | |- context [if String.eqb action ?s then _ else _] =>
             destruct (String.eqb action s)
         end;
    try (match goal with
         | |- exists r made said, comes_to (db_call_of ?m ?a ?k) _ r made said =>
             destruct (db_call_of_comes_to m a k ref) as (r & made & H);
             exists r, made, []; exact H
         end).
  - destruct (db_call_of_comes_to "add_tracks_to_playlist"
                [item params "playlist_id"; item params "track_ids"] [] ref)
      as (r & made & H).
    exists (match r with Ret _ => Ret (OBool true) | Raise e => Raise e end), made, [].
    intros calls sch sub lg. unfold bind. rewrite H. destruct r; reflexivity.
  - exists (Ret ONone), [], [(WARNING, "Unknown library action")].
    intros calls sch sub lg. rewrite app_nil_r. reflexivity.
Qed.

(** What a run of [_worker] comes to: it returns, and the result, the
    calls and the log records depend on the database reference, the action
    and the parameters only. *)
Lemma worker_comes_to (action : string) (params : list (string * pyobj))
    (ref : option database) :
  exists result made said,
    forall callback calls sch sub lg,
      _worker action params callback (World ref calls sch sub lg) =
      (Ret result,
       World ref (calls ++ made) (sch ++ (if callback then [result] else []))
             sub (lg ++ said)).
Proof.
  destruct (worker_try_comes_to action params ref) as (r & made & said & H).
  destruct r as [v|e].
  - exists v, made, said. intros callback calls sch sub lg.
    unfold _worker, try_except, bind. rewrite H.
    destruct callback; unfold schedule, modify, ret; simpl; rewrite ?app_nil_r; reflexivity.
  - exists ONone, made, (said ++ [(ERROR, "Error executing library action")]).
    intros callback calls sch sub lg.
    unfold _worker, try_except, bind. rewrite H.
    unfold log, modify, ret. simpl. rewrite <- app_assoc.
    destruct callback; unfold schedule, modify, ret; simpl; rewrite ?app_nil_r; reflexivity.
Qed.

(** X24: the worker of a library request never raises, whatever the
    action, the parameters and the database do: it returns a result, hands
    exactly that result to the caller's callback when there is one (once)
    and schedules nothing otherwise, and leaves the database reference and
    the thread pool as they were. *)
Theorem library_worker_reports_what_it_returns (w : world) (action : string)
    (params : list (string * pyobj)) (callback : bool) :
  exists result,
    fst (_worker action params callback w) = Ret result /\
    scheduled (snd (_worker action params callback w)) =
      scheduled w ++ (if callback then [result] else []) /\
    music_library_db_ref (snd (_worker action params callback w)) =
      music_library_db_ref w /\
    submitted (snd (_worker action params callback w)) = submitted w.
Proof.
  destruct w as [ref calls sch sub lg].
  destruct (worker_comes_to action params ref) as (result & made & said & H).
  exists result. rewrite H. repeat split.
Qed.

(** X25: a library request with a callback is deferred, and the deferred
    worker agrees with the direct call.  With a database registered, the
    request returns [None] at once, having made no database call and
    scheduled nothing, with its worker handed to the thread pool; when the
    pool runs that worker, the callback is told exactly the result the same
    request without a callback returns, after the same database calls. *)
Theorem deferred_library_request_agrees_with_direct (w : world) (db : database)
    (action : string) (params : option (list (string * pyobj))) :
  music_library_db_ref w = Some db ->
  let direct := request_library_action action params false w in
  let deferred := request_library_action action params true w in
  let job := Task action (or_empty params) in
  fst deferred = Ret ONone /\
  db_calls (snd deferred) = db_calls w /\
  scheduled (snd deferred) = scheduled w /\
  submitted (snd deferred) = submitted w ++ [job] /\
  exists result,
    fst direct = Ret result /\
    fst (run_task job (snd deferred)) = Ret result /\
    scheduled (snd (run_task job (snd deferred))) = scheduled w ++ [result] /\
    db_calls (snd (run_task job (snd deferred))) = db_calls (snd direct).
Proof.
  intros Hdb. destruct w as [ref calls sch sub lg]. simpl in Hdb. subst ref.
  destruct (worker_comes_to action (or_empty params) (Some db))
    as (result & made & said & H).
  cbv zeta. unfold request_library_action, run_task, bind, gets, log, submit, modify, ret.
  simpl. rewrite !H. simpl. repeat split. exists result. repeat split.
Qed.

(** X26: a library request that cannot be served answers [None] instead
    of raising: without a database registered (the callback, if any, is
    told [None] at once); for an action the chain does not know (no
    database call is made); and when the database call raises. *)
Theorem unserved_library_request_answers_none (w : world) (action : string)
    (params : option (list (string * pyobj))) :
  (music_library_db_ref w = None ->
   forall callback,
     fst (request_library_action action params callback w) = Ret ONone /\
     scheduled (snd (request_library_action action params callback w)) =
       scheduled w ++ (if callback then [ONone] else []) /\
     submitted (snd (request_library_action action params callback w)) = submitted w) /\
  (~ In action library_actions ->
   fst (request_library_action action params false w) = Ret ONone /\
   db_calls (snd (request_library_action action params false w)) = db_calls w) /\
  (forall db,
     music_library_db_ref w = Some db ->
     (forall method args kwargs, exists ex, db_invoke db method args kwargs = Raise ex) ->
     fst (request_library_action action params false w) = Ret ONone).
Proof.
  destruct w as [ref calls sch sub lg]. simpl. split; [|split].
  - intros -> callback.
    unfold request_library_action, bind, gets, log, schedule, modify, ret. simpl.
    destruct callback; simpl; rewrite ?app_nil_r; repeat split.
  - intros Hnot.
    assert (Htry : forall w0, worker_try action (or_empty params) w0 =
                              (log WARNING "Unknown library action" >> ret ONone) w0).
    { intros w0. unfold worker_try, library_actions in *.
      repeat match goal with
             | |- context [String.eqb action ?s] =>
                 let E := fresh "E" in
                 assert (E : String.eqb action s = false)
                   by (apply String.eqb_neq; intros ->; apply Hnot; simpl; tauto);
                 rewrite E; clear E
             end.
      reflexivity. }
    unfold request_library_action, _worker, try_except, bind, gets.
    destruct ref as [db|]; simpl.
    + rewrite Htry.
      unfold bind, log, modify, ret. simpl. split; reflexivity.
    + unfold log, modify, ret. simpl. split; reflexivity.
  - intros db -> Hraise.
    unfold request_library_action, _worker, try_except, bind, gets. simpl.
    match goal with |- context [worker_try ?a ?p ?w0] =>
      assert (Hfail : (exists ex w1, worker_try a p w0 = (Raise ex, w1))
                      \/ (exists w1, worker_try a p w0 = (Ret ONone, w1)))
    end.
    { unfold worker_try, db_call_of, bind, gets, throw, lift_res, modify, log, ret.
      repeat match goal with
             | |- context [if String.eqb action ?s then _ else _] =>
                 destruct (String.eqb action s)
             end; simpl;
        try (destruct (db_has db _); simpl; [|eauto]);
        repeat match goal with
               | |- context [item ?p ?k] => destruct (item p k); simpl; [|eauto]
               end;
        try match goal with
            | |- context [db_invoke db ?m ?a ?k] =>
                destruct (Hraise m a k) as [ex ->]; simpl; eauto
            end.
      eauto. }
    destruct Hfail as [(ex & w1 & ->)|(w1 & ->)]; reflexivity.
Qed.

(** X27: [add_tracks_to_playlist] answers [True] whenever the database
    call returns, whatever it returns: with the method on the database and
    both parameters given, the request makes that one call and its result
    is [True]. *)
Theorem add_tracks_to_playlist_answers_true (w : world) (db : database)
    (params : list (string * pyobj)) (playlist_id track_ids answer : pyobj) :
  music_library_db_ref w = Some db ->
  db_has db "add_tracks_to_playlist" = true ->
  dict_get params "playlist_id" = Some playlist_id ->
  dict_get params "track_ids" = Some track_ids ->
  db_invoke db "add_tracks_to_playlist" [playlist_id; track_ids] [] = Ret answer ->
  fst (request_library_action "add_tracks_to_playlist" (Some params) false w) =
    Ret (OBool true) /\
  db_calls (snd (request_library_action "add_tracks_to_playlist" (Some params) false w)) =
    db_calls w ++ [DbCall "add_tracks_to_playlist" [playlist_id; track_ids] []].
Proof.
  intros Hdb Hhas Hpid Htids Hanswer. destruct w as [ref calls sch sub lg].
  simpl in Hdb. subst ref.
  unfold request_library_action, _worker, try_except, worker_try, db_call_of, item,
    bind, gets, throw, lift_res, modify, log, ret.
  simpl. rewrite Hhas. simpl. rewrite Hpid, Htids. simpl. rewrite Hanswer. simpl.
  split; reflexivity.
Qed.

Import MoreInputs.

(** A search with a callback on the host with the catalogue. *)
Lemma deferred_library_request_agrees_with_direct_witness :
  fst (request_library_action "search_tracks" None true with_library) = Ret ONone /\
  submitted (snd (request_library_action "search_tracks" None true with_library)) =
    [Task "search_tracks" []].
Proof.
  destruct (deferred_library_request_agrees_with_direct with_library catalogue
              "search_tracks" None eq_refl) as (Hnone & _ & _ & Hjob & _).
  split; [exact Hnone|exact Hjob].
Defined.

(** A search with a callback on the host without a database. *)
Lemma unserved_library_request_answers_none_witness :
  fst (request_library_action "search_tracks" None true without_library) = Ret ONone /\
  scheduled (snd (request_library_action "search_tracks" None true without_library)) =
    [ONone].
Proof.
  destruct (unserved_library_request_answers_none without_library "search_tracks" None)
    as (Hnodb & _ & _).
  destruct (Hnodb eq_refl true) as (Hret & Hsched & _).
  split; [exact Hret|exact Hsched].
Defined.

(** Two tracks added to playlist 4 on the catalogue, which answers
    [False]. *)
Lemma add_tracks_to_playlist_answers_true_witness :
  fst (request_library_action "add_tracks_to_playlist"
         (Some [("playlist_id", OInt 4); ("track_ids", OList [OInt 1; OInt 2])])
         false with_library) = Ret (OBool true).
Proof.
  destruct (add_tracks_to_playlist_answers_true with_library catalogue
              [("playlist_id", OInt 4); ("track_ids", OList [OInt 1; OInt 2])]
              (OInt 4) (OList [OInt 1; OInt 2]) (OBool false))
    as [Htrue _]; [reflexivity..|].
  exact Htrue.
Defined.

End HostLibraryMore.

(** ** Plugins: saving and loading a configuration *)
Module PluginSystemMore.
Import HostApp PluginSystem.

Lemma assign_loop (items : list (string * pyobj)) :
  forall (p : plugin) (ps : gmap string pyobj) (lg : list (level * string)),
    parameters p = Some ps ->
    AudioEffects.for_each items
      (fun kv => update (assign_known (fst kv) (snd kv))) (World p lg) =
    (Ret tt, World (set_parameters (Some (overwrite_known items ps)) p) lg).
Proof.
  induction items as [|[k v] items IH]; intros p ps lg Hps.
  - simpl. unfold ret. destruct p. simpl in *. subst. reflexivity.
  - simpl AudioEffects.for_each. unfold bind.
    change (update (assign_known k v) (World p lg))
      with (Ret tt, World (assign_known k v p) lg).
    cbv beta iota. simpl overwrite_known.
    destruct (ps !! k) as [old|] eqn:Hk.
    + rewrite (IH (assign_known k v p) (<[k := v]> ps))
        by (unfold assign_known; rewrite Hps, Hk; reflexivity).
      unfold assign_known. rewrite Hps, Hk. reflexivity.
    + rewrite (IH (assign_known k v p) ps)
        by (unfold assign_known; rewrite Hps, Hk; exact Hps).
      unfold assign_known. rewrite Hps, Hk. reflexivity.
Qed.

Lemma overwrite_known_keys (items : list (string * pyobj)) :
  forall (ps : gmap string pyobj) (key : string),
    is_Some (overwrite_known items ps !! key) <-> is_Some (ps !! key).
Proof.
  induction items as [|[k v] items IH]; intros ps key; simpl; [reflexivity|].
  destruct (ps !! k) as [old|] eqn:Hk; [|apply IH].
  rewrite IH. destruct (decide (k = key)) as [->|Hne].
  - rewrite lookup_insert_eq, Hk. split; eauto.
  - rewrite lookup_insert_ne by exact Hne. reflexivity.
Qed.

Lemma overwrite_known_other (items : list (string * pyobj)) :
  forall (ps : gmap string pyobj) (key : string),
    ~ In key (map fst items) -> overwrite_known items ps !! key = ps !! key.
Proof.
  induction items as [|[k v] items IH]; intros ps key Hnot; simpl; [reflexivity|].
  simpl in Hnot.
  destruct (ps !! k) as [old|] eqn:Hk; rewrite IH by tauto; [|reflexivity].
  apply lookup_insert_ne. tauto.
Qed.

Lemma dict_get_in (items : list (string * pyobj)) (key : string) (v : pyobj) :
  dict_get items key = Some v -> In key (map fst items).
Proof.
  induction items as [|[k x] items IH]; simpl; [discriminate|].
  destruct (String.eqb_spec k key) as [->|Hne]; [auto|]. intros H. right. exact (IH H).
Qed.

Lemma overwrite_known_given (items : list (string * pyobj)) :
  forall (ps : gmap string pyobj) (key : string) (v : pyobj),
    NoDup (map fst items) -> dict_get items key = Some v -> is_Some (ps !! key) ->
    overwrite_known items ps !! key = Some v.
Proof.
  induction items as [|[k x] items IH]; intros ps key v Hnd Hget Hsome; simpl in *;
    [discriminate|].
  apply NoDup_cons in Hnd as [Hfresh Hnd].
  destruct (String.eqb_spec k key) as [->|Hne].
  - injection Hget as ->. destruct Hsome as [old Hold]. rewrite Hold.
    rewrite overwrite_known_other.
    + apply lookup_insert_eq.
    + intros Hin. apply Hfresh. apply list_elem_of_In. exact Hin.
  - destruct (ps !! k) as [old|] eqn:Hk.
    + apply IH; [exact Hnd|exact Hget|]. rewrite lookup_insert_ne by exact Hne. exact Hsome.
    + apply IH; assumption.
Qed.

Lemma dict_update_other (items : list (string * pyobj)) :
  forall (d : gmap string pyobj) (key : string),
    ~ In key (map fst items) -> dict_update items d !! key = d !! key.
Proof.
  unfold dict_update.
  induction items as [|[k v] items IH]; intros d key Hnot; simpl; [reflexivity|].
  simpl in Hnot. rewrite IH by tauto. apply lookup_insert_ne. tauto.
Qed.

Lemma dict_update_given (items : list (string * pyobj)) :
  forall (d : gmap string pyobj) (key : string) (v : pyobj),
    NoDup (map fst items) -> dict_get items key = Some v ->
    dict_update items d !! key = Some v.
Proof.
  unfold dict_update.
  induction items as [|[k x] items IH]; intros d key v Hnd Hget; simpl in *;
    [discriminate|].
  apply NoDup_cons in Hnd as [Hfresh Hnd].
  destruct (String.eqb_spec k key) as [->|Hne].
  - injection Hget as ->.
    pose proof (dict_update_other items (<[key := v]> d) key) as Hother.
    unfold dict_update in Hother. rewrite Hother.
    + apply lookup_insert_eq.
    + intros Hin. apply Hfresh. apply list_elem_of_In. exact Hin.
  - apply IH; assumption.
Qed.

Lemma dict_get_none (items : list (string * pyobj)) (key : string) :
  dict_get items key = None -> ~ In key (map fst items).
Proof.
  induction items as [|[k x] items IH]; simpl; [tauto|].
  destruct (String.eqb_spec k key) as [->|Hne]; [discriminate|].
  intros H [Heq|Hin]; [contradiction|]. exact (IH H Hin).
Qed.

(** Writing back what a mapping holds changes nothing. *)
Lemma overwrite_known_own (m : gmap string pyobj) (items : list (string * pyobj)) :
  (forall k v, In (k, v) items -> m !! k = Some v) -> overwrite_known items m = m.
Proof.
  induction items as [|[k v] items IH]; intros Hown; simpl; [reflexivity|].
  rewrite (Hown k v) by (left; reflexivity).
  rewrite insert_id by (apply Hown; left; reflexivity).
  apply IH. intros k' v' Hin. apply Hown. right. exact Hin.
Qed.

Lemma dict_update_own (m : gmap string pyobj) (items : list (string * pyobj)) :
  (forall k v, In (k, v) items -> m !! k = Some v) -> dict_update items m = m.
Proof.
  unfold dict_update.
  induction items as [|[k v] items IH]; intros Hown; simpl; [reflexivity|].
  rewrite insert_id by (apply Hown; left; reflexivity).
  apply IH. intros k' v' Hin. apply Hown. right. exact Hin.
Qed.

Lemma map_to_list_own (m : gmap string pyobj) (k : string) (v : pyobj) :
  In (k, v) (map_to_list m) -> m !! k = Some v.
Proof. intros Hin. apply elem_of_map_to_list. apply list_elem_of_In. exact Hin. Qed.

(** X28: saving and loading back is a round trip: on a plugin without a
    [set_parameter] method, [load_config(save_config())] returns normally
    and leaves the plugin exactly as it was, whether the plugin keeps its
    settings in [parameters] or in [config]. *)
Theorem plugin_config_round_trip (w : world) :
  fst (load_config None (as_dict (save_config (self w))) w) = Ret tt /\
  self (snd (load_config None (as_dict (save_config (self w))) w)) = self w.
Proof.
  destruct w as [p lg]. unfold load_config, as_dict, save_config, bind, gets. simpl.
  destruct (parameters p) as [ps|] eqn:Hps.
  - rewrite (assign_loop _ p ps lg Hps). simpl.
    rewrite overwrite_known_own by (apply map_to_list_own).
    split; [reflexivity|]. destruct p. simpl in *. subst. reflexivity.
  - unfold update, modify, log. simpl.
    rewrite dict_update_own by (apply map_to_list_own).
    split; [reflexivity|]. destruct p. simpl in *. reflexivity.
Qed.

(** X29: on a plugin that keeps its settings in [parameters] and has no
    [set_parameter] method, [load_config] of a dict only overwrites: the
    mapping keeps exactly its keys, a key the dict does not give keeps its
    value, a key of the mapping the dict gives takes the given value, and
    what the dict gives under other keys is dropped; [config] is not
    touched. *)
Theorem load_config_overwrites_known_parameters_only (w : world)
    (ps : gmap string pyobj) (items : list (string * pyobj)) :
  parameters (self w) = Some ps ->
  NoDup (map fst items) ->
  fst (load_config None (ODict items) w) = Ret tt /\
  config (self (snd (load_config None (ODict items) w))) = config (self w) /\
  exists ps',
    parameters (self (snd (load_config None (ODict items) w))) = Some ps' /\
    forall key,
      (is_Some (ps' !! key) <-> is_Some (ps !! key)) /\
      (dict_get items key = None -> ps' !! key = ps !! key) /\
      (forall v, dict_get items key = Some v -> is_Some (ps !! key) ->
                 ps' !! key = Some v).
Proof.
  intros Hps Hnd. destruct w as [p lg]. simpl in Hps.
  unfold load_config, bind, gets. simpl. rewrite Hps.
  rewrite (assign_loop _ p ps lg Hps). simpl.
  split; [reflexivity|]. split; [reflexivity|].
  exists (overwrite_known items ps). split; [reflexivity|]. intros key. split; [|split].
  - apply overwrite_known_keys.
  - intros Hnone. apply overwrite_known_other. apply dict_get_none. exact Hnone.
  - intros v Hget Hsome. apply overwrite_known_given; assumption.
Qed.

(** X30: on a plugin without a [parameters] dict, [load_config] of a dict
    merges it into [config], whether or not the plugin has a
    [set_parameter] method, which is not consulted: every key the dict
    gives holds the given value afterwards, new keys included, and every
    other key keeps its value.  Anything that is not a dict leaves the
    plugin as it was. *)
Theorem load_config_merges_into_config (w : world)
    (set_parameter : option (string -> pyobj -> M world unit))
    (saved : pyobj) :
  parameters (self w) = None ->
  fst (load_config set_parameter saved w) = Ret tt /\
  parameters (self (snd (load_config set_parameter saved w))) = None /\
  (forall items,
     saved = ODict items -> NoDup (map fst items) ->
     forall key,
       config (self (snd (load_config set_parameter saved w))) !! key =
       match dict_get items key with
       | Some v => Some v
       | None => config (self w) !! key
       end) /\
  ((forall items, saved <> ODict items) ->
   self (snd (load_config set_parameter saved w)) = self w).
Proof.
  intros Hps. destruct w as [p lg]. simpl in Hps.
  assert (Hdict : forall items,
            load_config set_parameter (ODict items) (World p lg) =
            (Ret tt, World (set_config (dict_update items (config p)) p)
                           (lg ++ [(INFO, "Plugin loaded configuration")]))).
  { intros items. unfold load_config, bind, gets, update, modify, log. simpl.
    rewrite Hps. reflexivity. }
  destruct saved as [| | | | |l|items];
    try (unfold load_config, log, modify; simpl;
         repeat split; try assumption; try (intros; discriminate); fail).
  rewrite Hdict. simpl. split; [reflexivity|]. split; [exact Hps|]. split.
  - intros items0 [= <-] Hnd key.
    destruct (dict_get items key) as [v|] eqn:Hget.
    + apply dict_update_given; assumption.
    + apply dict_update_other. apply dict_get_none. exact Hget.
  - intros Hnot. exfalso. apply (Hnot items). reflexivity.
Qed.

Import MoreInputs.

Lemma saved_items_distinct : NoDup (map fst saved_items).
Proof.
  apply NoDup_cons. split.
  - intros Hin. apply list_elem_of_In in Hin. simpl in Hin.
    destruct Hin as [Heq|[]]. discriminate Heq.
  - apply NoDup_singleton.
Qed.

(** The saved configuration loaded into the filter of the effects module:
    the cutoff is taken, the unknown key is dropped. *)
Lemma load_config_overwrites_known_parameters_only_witness :
  exists ps',
    parameters (self (snd (load_config None (ODict saved_items) filter_effect))) = Some ps' /\
    ps' !! "cutoff_hz" = Some (OFloat 250) /\
    ps' !! "resonance" = None.
Proof.
  destruct (load_config_overwrites_known_parameters_only filter_effect filter_settings
              saved_items eq_refl saved_items_distinct) as (_ & _ & ps' & Hps' & Hkeys).
  exists ps'. split; [exact Hps'|]. split.
  - destruct (Hkeys "cutoff_hz") as (_ & _ & Hgiven).
    apply Hgiven; [reflexivity|]. exists (OFloat 1000). reflexivity.
  - destruct (Hkeys "resonance") as (Hsame & _ & _).
    destruct (ps' !! "resonance") as [v|] eqn:Hv; [|reflexivity].
    destruct (proj1 Hsame (ex_intro _ v eq_refl)) as [x Hx]. discriminate Hx.
Defined.

(** The saved configuration loaded into the filter of the plugin system:
    the cutoff is taken and the new key is added. *)
Lemma load_config_merges_into_config_witness :
  config (self (snd (load_config None (ODict saved_items) filter_from_system)))
    !! "resonance" = Some (OFloat 2) /\
  config (self (snd (load_config None (ODict saved_items) filter_from_system)))
    !! "order" = Some (OInt 2).
Proof.
  destruct (load_config_merges_into_config filter_from_system None (ODict saved_items)
              eq_refl) as (_ & _ & Hmerge & _).
  split.
  - rewrite (Hmerge saved_items eq_refl saved_items_distinct "resonance"). reflexivity.
  - rewrite (Hmerge saved_items eq_refl saved_items_distinct "order"). reflexivity.
Defined.

End PluginSystemMore.
